(** * AI-accounting: invoice mass upload and report derivation

A shallow embedding of
  - [src/unnamed/part_000]               (the Gemini extraction service,
                                          [extractInvoiceDataWithRetry]),
  - [src/components/MassUploadModal.tsx] (the upload modal:
    [startProcessing], [recalculateInvoiceData], [handleLineItemChange],
    [handleSave]; and, in the second document of that file, the reports
    page: [ledgersByName], [trialBalanceData], [stockSummaryData],
    [gstr1Data], [stockValuationData]).

Conventions of the embedding.
  - A JavaScript [number] is an exact rational ([Q]); equality of
    numbers is [Qeq] ([==]).  The engine's numbers are IEEE-754
    binary64, whose rounding the rationals do not show; [NaN] and the
    infinities are outside the model.  The statements on the totals of
    a saved voucher and on the rows of the stock reports are therefore
    made between results of the same operations in the same order,
    which binary64 computes alike; those on the closure of the trial
    balance and on the reconciliation of the tax reports carry the
    hypothesis [Spec.exactlySummable], which keeps the sums inside the
    whole numbers that binary64 adds and subtracts without rounding.
    The arithmetic of [handleSave] is, besides, written once over its
    operations ([MassUploadModal.itemAmounts]) and read in binary64
    ([Binary64]).
  - A JavaScript string is a [string]; [toLowerCase] folds the ASCII
    letters only.
  - A JavaScript object used as a dictionary is an insertion-ordered
    association list with unique keys ([Obj]).  The balances of the
    trial balance are read as the code reads them, the members inherited
    from [Object.prototype] included ([inherited]).  In the stock
    reports an assignment under "__proto__", which makes no key, and
    everywhere the order in which [Object.entries] lists keys that are
    array indices, are outside the model: a statement that depends on
    either carries the hypothesis that the names are not such keys
    ([Spec.insertionOrdered]).
  - A [throw] is the [Throw] branch of the result type [Exn].
  - React state is passed explicitly; [await] is sequential
    composition, and what the awaited promise does is given by an
    oracle; the reply of the extraction service is taken to be of the
    type the code gives it ([ExtractedInvoiceData]). *)

From Stdlib Require Import PrimFloat.
From Stdlib Require Import QArith Qfield Lqa ZArith Lia List String Ascii Bool.
From Stdlib Require Import Qabs Permutation DecimalString.
Import ListNotations.

Set Implicit Arguments.

Local Open Scope string_scope.
Local Open Scope list_scope.
Local Open Scope Q_scope.

(* ===================================================================== *)
(** * JavaScript values                                                    *)
(* ===================================================================== *)

Definition number := Q.

(** What a [throw] statement can carry.  [ErrorObj] values are
    [instanceof Error]; [NonError] stands for any other thrown value (for
    instance the [ProgressEvent] that [FileReader.onerror] receives). *)
Inductive ErrorKind := PlainError | TypeError | RangeError | SyntaxError.

Inductive Thrown :=
| ErrorObj (kind : ErrorKind) (message : string)
| NonError.

Inductive Exn (A : Type) : Type :=
| Ok (a : A)
| Throw (e : Thrown).

Arguments Ok {A} a.
Arguments Throw {A} e.

Definition bindExn {A B} (m : Exn A) (k : A -> Exn B) : Exn B :=
  match m with
  | Ok a => k a
  | Throw e => Throw e
  end.

Notation "x <- m ;; k" := (bindExn m (fun x => k))
  (at level 61, m at next level, right associativity).

(** [arr.map(f)] where [f] may throw: the first exception aborts the map. *)
Fixpoint mapExn {A B} (f : A -> Exn B) (l : list A) : Exn (list B) :=
  match l with
  | [] => Ok []
  | a :: r => b <- f a ;; bs <- mapExn f r ;; Ok (b :: bs)
  end.

(** [arr.forEach(f)] over a mutable store [S], where [f] may throw. *)
Fixpoint forEachExn {A S} (f : A -> S -> Exn S) (l : list A) (s : S) : Exn S :=
  match l with
  | [] => Ok s
  | a :: r => s' <- f a s ;; forEachExn f r s'
  end.

(** ** Strings *)

Definition lowerAscii (c : ascii) : ascii :=
  let n := nat_of_ascii c in
  if andb (Nat.leb 65 n) (Nat.leb n 90) then ascii_of_nat (n + 32) else c.

Fixpoint toLowerCase (s : string) : string :=
  match s with
  | EmptyString => EmptyString
  | String c r => String (lowerAscii c) (toLowerCase r)
  end.

(** ** Truthiness *)

Definition truthyStr (s : string) : bool :=
  match s with EmptyString => false | _ => true end.

(** An optional string property: [undefined] and [''] are falsy. *)
Definition truthyOptStr (s : option string) : bool :=
  match s with Some x => truthyStr x | None => false end.

Definition truthyNum (x : number) : bool := negb (Qeq_bool x 0).

(** [x || d] on an optional number: [undefined] and [0] give [d]. *)
Definition numOr (x : option number) (d : number) : number :=
  match x with
  | Some r => if truthyNum r then r else d
  | None => d
  end.

(** [a > b] on numbers. *)
Definition gtb (a b : number) : bool := negb (Qle_bool a b).

(** ** Objects used as dictionaries *)

Definition Obj (V : Type) := list (string * V).

Fixpoint get {V} (k : string) (o : Obj V) : option V :=
  match o with
  | [] => None
  | (k', v) :: r => if String.eqb k k' then Some v else get k r
  end.

(** [o[k] = v]: an existing key keeps its place, a new key goes last. *)
Fixpoint set {V} (k : string) (v : V) (o : Obj V) : Obj V :=
  match o with
  | [] => [(k, v)]
  | (k', v') :: r =>
      if String.eqb k k' then (k, v) :: r else (k', v') :: set k v r
  end.

Definition keys {V} (o : Obj V) : list string := List.map fst o.

(** [o[k]] is defined. *)
Definition has {V} (k : string) (o : Obj V) : bool :=
  match get k o with Some _ => true | None => false end.

(** The members every plain object inherits from [Object.prototype]:
    under such a name [o[k]] finds, in an object without a key [k] of
    its own, the inherited member (a function, or the prototype itself
    under "__proto__"), which is truthy and takes the properties
    assigned to it. *)
Definition inheritedNames : list string :=
  ["constructor"; "__defineGetter__"; "__defineSetter__"; "hasOwnProperty";
   "__lookupGetter__"; "__lookupSetter__"; "isPrototypeOf";
   "propertyIsEnumerable"; "toString"; "valueOf"; "__proto__"; "toLocaleString"].

Definition inherited (k : string) : bool := existsb (String.eqb k) inheritedNames.

(** Sum of a list of numbers. *)
Fixpoint Qsum (l : list number) : number :=
  match l with
  | [] => 0
  | x :: r => x + Qsum r
  end.

(* ===================================================================== *)
(** * The data model ([../types], as the two components use it)           *)
(* ===================================================================== *)

Module Ledger.
Record t := mk {
  name : string;
  state : option string;
  registrationType : string;
  gstin : option string
}.
End Ledger.

Module StockItem.
Record t := mk {
  name : string;
  gstRate : number
}.
End StockItem.

Module CompanyDetails.
Record t := mk {
  state : option string
}.
End CompanyDetails.

Module VoucherItem.
Record t := mk {
  name : string;
  qty : number;
  rate : number;
  taxableAmount : number;
  cgstAmount : number;
  sgstAmount : number;
  igstAmount : number;
  totalAmount : number
}.
End VoucherItem.

Inductive SalesPurchaseType := Purchase | Sales.

Module SalesPurchaseVoucher.
Record t := mk {
  id : string;
  type : SalesPurchaseType;
  date : string;
  invoiceNo : string;
  party : string;
  isInterState : bool;
  items : list VoucherItem.t;
  totalTaxableAmount : number;
  totalCgst : number;
  totalSgst : number;
  totalIgst : number;
  total : number;
  narration : string
}.
End SalesPurchaseVoucher.

Inductive PaymentReceiptType := Payment | Receipt.

Module PaymentReceiptVoucher.
Record t := mk {
  id : string;
  type : PaymentReceiptType;
  date : string;
  party : string;
  account : string;
  amount : number
}.
End PaymentReceiptVoucher.

Module ContraVoucher.
Record t := mk {
  id : string;
  date : string;
  fromAccount : string;
  toAccount : string;
  amount : number
}.
End ContraVoucher.

Module JournalEntry.
Record t := mk {
  ledger : string;
  debit : number;
  credit : number
}.
End JournalEntry.

Module JournalVoucher.
Record t := mk {
  id : string;
  date : string;
  entries : list JournalEntry.t
}.
End JournalVoucher.

(** The tagged union [Voucher]; the tag is [v.type]. *)
Inductive Voucher :=
| VSalesPurchase (v : SalesPurchaseVoucher.t)
| VPaymentReceipt (v : PaymentReceiptVoucher.t)
| VContra (v : ContraVoucher.t)
| VJournal (v : JournalVoucher.t).

Module ExtractedLineItem.
Record t := mk {
  itemDescription : string;
  hsnCode : string;
  quantity : number;
  rate : number
}.
End ExtractedLineItem.

(** [lineItems] is [None] when the parsed JSON has no such property: the
    save path guards it with [data.lineItems || []]. *)
Module ExtractedInvoiceData.
Record t := mk {
  sellerName : string;
  invoiceNumber : string;
  invoiceDate : string;
  subtotal : number;
  cgstAmount : number;
  sgstAmount : number;
  totalAmount : number;
  lineItems : option (list ExtractedLineItem.t)
}.
End ExtractedInvoiceData.

(** The browser's [File]: only what the code reads of it. *)
Module File.
Record t := mk {
  name : string;
  lastModified : Z;
  type : string
}.
End File.

Inductive FileStatus := pending | processing | success | error.

Module MassUploadFile.
Record t := mk {
  id : string;
  file : File.t;
  status : FileStatus;
  extractedData : option ExtractedInvoiceData.t;
  error : option string
}.
End MassUploadFile.

Definition FileStatus_eqb (a b : FileStatus) : bool :=
  match a, b with
  | pending, pending | processing, processing
  | success, success | error, error => true
  | _, _ => false
  end.

Definition withStatus (s : FileStatus) (f : MassUploadFile.t) : MassUploadFile.t :=
  MassUploadFile.mk (MassUploadFile.id f) (MassUploadFile.file f) s
    (MassUploadFile.extractedData f) (MassUploadFile.error f).

Definition withExtractedData (d : ExtractedInvoiceData.t) (f : MassUploadFile.t)
  : MassUploadFile.t :=
  MassUploadFile.mk (MassUploadFile.id f) (MassUploadFile.file f)
    (MassUploadFile.status f) (Some d) (MassUploadFile.error f).

Definition withError (m : string) (f : MassUploadFile.t) : MassUploadFile.t :=
  MassUploadFile.mk (MassUploadFile.id f) (MassUploadFile.file f)
    (MassUploadFile.status f) (MassUploadFile.extractedData f) (Some m).

(** [prev.map(f => f.id === id ? upd(f) : f)] *)
Definition updateById (id : string) (upd : MassUploadFile.t -> MassUploadFile.t)
  (prev : list MassUploadFile.t) : list MassUploadFile.t :=
  List.map (fun f => if String.eqb (MassUploadFile.id f) id then upd f else f) prev.

(* ===================================================================== *)
(** * services/geminiService ([src/unnamed/part_000])                     *)
(* ===================================================================== *)

Module GeminiService.

(** What the outside world does: reading the file, and the outcome of
    the [try] block (the [generateContent] call followed by
    [JSON.parse]) at each attempt.  The parsed reply is taken to be of
    the type the code gives it; a reply that is some other JSON value
    ([null], a number, a string) is outside the model. *)
Record Host := mkHost {
  fileToBase64 : File.t -> Exn string;
  tryExtract : File.t -> nat -> Exn ExtractedInvoiceData.t
}.

Inductive Event :=
| Generate (attempt : nat)
| ConsoleError (attemptShown : nat) (e : Thrown)
| Sleep (ms : Z).

Definition retriesExhausted : Thrown :=
  ErrorObj PlainError "Failed to extract invoice data after multiple retries.".

Definition notReached : Thrown := ErrorObj PlainError "Should not be reached".

(** The default values of the parameters [maxRetries] and [initialDelay]. *)
Definition maxRetriesDefault : nat := 3.

Definition initialDelayDefault : Z := 1000%Z.

Section Retry.
Variable host : Host.
Variable file : File.t.
Variable maxRetries : nat.

(** The [while (attempt < maxRetries)] loop, line by line; [fuel]
    bounds the number of iterations and [None] means it ran out. *)
Fixpoint whileLoop (fuel attempt : nat) (delay : Z)
  : option (list Event * Exn ExtractedInvoiceData.t) :=
  match fuel with
  | O => None
  | S fuel' =>
      if Nat.ltb attempt maxRetries then
        match tryExtract host file attempt with
        | Ok parsedData => Some ([Generate attempt], Ok parsedData)
        | Throw e =>
            let attempt' := S attempt in
            if Nat.leb maxRetries attempt' then
              Some ([Generate attempt; ConsoleError (attempt + 1) e],
                    Throw retriesExhausted)
            else
              match whileLoop fuel' attempt' (delay * 2)%Z with
              | Some (tr, r) =>
                  Some (Generate attempt :: ConsoleError (attempt + 1) e
                          :: Sleep delay :: tr, r)
              | None => None
              end
        end
      else Some ([], Throw notReached)
  end.

(** The same loop by recursion on its variant
    [remaining = maxRetries - attempt]. *)
Fixpoint retryLoop (remaining attempt : nat) (delay : Z)
  : list Event * Exn ExtractedInvoiceData.t :=
  match remaining with
  | O => ([], Throw notReached)
  | S rem =>
      match tryExtract host file attempt with
      | Ok parsedData => ([Generate attempt], Ok parsedData)
      | Throw e =>
          match rem with
          | O => ([Generate attempt; ConsoleError (attempt + 1) e],
                  Throw retriesExhausted)
          | S _ =>
              let (tr, r) := retryLoop rem (S attempt) (delay * 2)%Z in
              (Generate attempt :: ConsoleError (attempt + 1) e
                 :: Sleep delay :: tr, r)
          end
      end
  end.

Definition extractInvoiceDataWithRetry (initialDelay : Z)
  : list Event * Exn ExtractedInvoiceData.t :=
  match fileToBase64 host file with
  | Throw e => ([], Throw e)
  | Ok _ => retryLoop maxRetries 0 initialDelay
  end.
End Retry.

(** The number of extraction attempts and the back-off delays of a run. *)
Fixpoint attempts (tr : list Event) : nat :=
  match tr with
  | [] => 0
  | Generate _ :: r => S (attempts r)
  | _ :: r => attempts r
  end.

Fixpoint delays (tr : list Event) : list Z :=
  match tr with
  | [] => []
  | Sleep d :: r => d :: delays r
  | _ :: r => delays r
  end.

(** [s.split(sep)] for a one-character separator. *)
Fixpoint splitOn (sep : ascii) (s : string) : list string :=
  match s with
  | EmptyString => [EmptyString]
  | String c r =>
      if Ascii.eqb c sep then EmptyString :: splitOn sep r
      else match splitOn sep r with
           | x :: xs => String c x :: xs
           | [] => [String c EmptyString]
           end
  end.

(** What [fileToBase64] resolves with for the data URL [result]:
    [result.split(',')[1]], [None] being [undefined]. *)
Definition dataUrlPayload (result : string) : option string :=
  nth_error (splitOn "," result) 1.

(** [d; 2d; 4d; ...], [n] terms. *)
Fixpoint doubling (n : nat) (d : Z) : list Z :=
  match n with
  | O => []
  | S k => d :: doubling k (d * 2)%Z
  end.

End GeminiService.

(* ===================================================================== *)
(** * The host's [Date]                                                    *)
(* ===================================================================== *)

Module DateHost.
(** [parse s] is the time value of [new Date(s)], [None] for an Invalid
    Date; [isoDay t] is [toISOString().split('T')[0]] of a valid date;
    [now] is the time value of [new Date()]. *)
Record t := mk {
  TimeValue : Type;
  parse : string -> option TimeValue;
  isoDay : TimeValue -> string;
  now : TimeValue
}.
End DateHost.

(* ===================================================================== *)
(** * components/MassUploadModal                                          *)
(* ===================================================================== *)

Module MassUploadModal.

Definition errorMessage (e : Thrown) : string :=
  match e with
  | ErrorObj _ m => m
  | NonError => "Unknown extraction error."
  end.

Section Processing.
Variable host : GeminiService.Host.

(** One iteration of [for (const file of files)]; the state is the
    React [files] state together with the log of service events. *)
Definition processFile (file : MassUploadFile.t)
  (st : list MassUploadFile.t * list GeminiService.Event)
  : list MassUploadFile.t * list GeminiService.Event :=
  if FileStatus_eqb (MassUploadFile.status file) pending then
    let prev := updateById (MassUploadFile.id file) (withStatus processing) (fst st) in
    let (tr, r) :=
      GeminiService.extractInvoiceDataWithRetry host (MassUploadFile.file file)
        GeminiService.maxRetriesDefault GeminiService.initialDelayDefault in
    match r with
    | Ok data =>
        (updateById (MassUploadFile.id file)
           (fun f => withExtractedData data (withStatus success f)) prev,
         snd st ++ tr)
    | Throw e =>
        (updateById (MassUploadFile.id file)
           (fun f => withError (errorMessage e) (withStatus error f)) prev,
         snd st ++ tr)
    end
  else st.

Definition startProcessing (files : list MassUploadFile.t)
  : list MassUploadFile.t * list GeminiService.Event :=
  fold_left (fun st file => processFile file st) files (files, []).
End Processing.

(** What [toISOString] throws on an Invalid Date. *)
Definition invalidTime : Thrown := ErrorObj RangeError "Invalid time value".

Section Props.
Variable ledgers : list Ledger.t.
Variable stockItems : list StockItem.t.
Variable companyDetails : CompanyDetails.t.

(** [ledgers.find(l => l.name.toLowerCase() === sellerName.toLowerCase())] *)
Definition findPartyLedger (sellerName : string) : option Ledger.t :=
  find (fun l => String.eqb (toLowerCase (Ledger.name l)) (toLowerCase sellerName))
    ledgers.

(** [(partyLedger?.state && companyDetails.state)
      ? partyLedger.state.toLowerCase() !== companyDetails.state.toLowerCase()
      : false] *)
Definition interStateOf (partyLedger : option Ledger.t) : bool :=
  match partyLedger with
  | Some l =>
      match Ledger.state l, CompanyDetails.state companyDetails with
      | Some ls, Some cs =>
          if andb (truthyStr ls) (truthyStr cs)
          then negb (String.eqb (toLowerCase ls) (toLowerCase cs))
          else false
      | _, _ => false
      end
  | None => false
  end.

(** [stockItems.find(si => si.name.toLowerCase() === d.toLowerCase())] *)
Definition findStockItem (itemDescription : string) : option StockItem.t :=
  find (fun si => String.eqb (toLowerCase (StockItem.name si))
                    (toLowerCase itemDescription)) stockItems.

Definition orEmpty {A} (l : option (list A)) : list A :=
  match l with Some x => x | None => [] end.

(** *** recalculateInvoiceData *)

(** [stockItem?.gstRate || 0] *)
Definition gstRateOnEdit (itemDescription : string) : number :=
  numOr (option_map StockItem.gstRate (findStockItem itemDescription)) 0.

(** The three [let] accumulators of [recalculateInvoiceData]. *)
Record Acc3 := mkAcc3 { accSubtotal : number; accCgst : number; accSgst : number }.

Definition recalcStep (isInterState : bool) (acc : Acc3)
  (item : ExtractedLineItem.t) : Acc3 :=
  let gstRate := gstRateOnEdit (ExtractedLineItem.itemDescription item) in
  let taxableAmount := ExtractedLineItem.quantity item * ExtractedLineItem.rate item in
  let tax := taxableAmount * (gstRate / 100) in
  if isInterState then
    mkAcc3 (accSubtotal acc + taxableAmount) (accCgst acc) (accSgst acc)
  else
    mkAcc3 (accSubtotal acc + taxableAmount) (accCgst acc + tax / 2)
      (accSgst acc + tax / 2).

Definition recalculateInvoiceData (data : ExtractedInvoiceData.t)
  (sellerName : string) : ExtractedInvoiceData.t :=
  let partyLedger := findPartyLedger sellerName in
  let isInterState := interStateOf partyLedger in
  let acc := fold_left (recalcStep isInterState)
               (orEmpty (ExtractedInvoiceData.lineItems data)) (mkAcc3 0 0 0) in
  let totalAmount := accSubtotal acc + ExtractedInvoiceData.cgstAmount data
                     + ExtractedInvoiceData.sgstAmount data in
  ExtractedInvoiceData.mk
    (ExtractedInvoiceData.sellerName data)
    (ExtractedInvoiceData.invoiceNumber data)
    (ExtractedInvoiceData.invoiceDate data)
    (accSubtotal acc) (accCgst acc) (accSgst acc) totalAmount
    (ExtractedInvoiceData.lineItems data).

(** *** handleLineItemChange *)

(** [{...item, [field]: value}] for the fields of a line item. *)
Inductive LineItemPatch :=
| SetItemDescription (value : string)
| SetHsnCode (value : string)
| SetQuantity (value : number)
| SetRate (value : number).

Definition applyPatch (p : LineItemPatch) (item : ExtractedLineItem.t)
  : ExtractedLineItem.t :=
  match p with
  | SetItemDescription v =>
      ExtractedLineItem.mk v (ExtractedLineItem.hsnCode item)
        (ExtractedLineItem.quantity item) (ExtractedLineItem.rate item)
  | SetHsnCode v =>
      ExtractedLineItem.mk (ExtractedLineItem.itemDescription item) v
        (ExtractedLineItem.quantity item) (ExtractedLineItem.rate item)
  | SetQuantity v =>
      ExtractedLineItem.mk (ExtractedLineItem.itemDescription item)
        (ExtractedLineItem.hsnCode item) v (ExtractedLineItem.rate item)
  | SetRate v =>
      ExtractedLineItem.mk (ExtractedLineItem.itemDescription item)
        (ExtractedLineItem.hsnCode item) (ExtractedLineItem.quantity item) v
  end.

(** [a[i] = x] for an index inside the array. *)
Fixpoint replaceAt {A} (i : nat) (x : A) (l : list A) : list A :=
  match l, i with
  | [], _ => []
  | _ :: r, O => x :: r
  | y :: r, S j => y :: replaceAt j x r
  end.

Definition withLineItems (items : list ExtractedLineItem.t)
  (data : ExtractedInvoiceData.t) : ExtractedInvoiceData.t :=
  ExtractedInvoiceData.mk
    (ExtractedInvoiceData.sellerName data)
    (ExtractedInvoiceData.invoiceNumber data)
    (ExtractedInvoiceData.invoiceDate data)
    (ExtractedInvoiceData.subtotal data)
    (ExtractedInvoiceData.cgstAmount data)
    (ExtractedInvoiceData.sgstAmount data)
    (ExtractedInvoiceData.totalAmount data)
    (Some items).

(** The body of the [map] callback for the file being edited.  The
    handler is only reachable from the row rendered for
    [lineItems[itemIndex]], so the index is that of an existing row;
    for any other index JavaScript would grow the array with a partial
    item whose missing numeric fields make the arithmetic [NaN], which
    the number model does not cover, and the embedding leaves the file
    as it is. *)
Definition editLineItem (itemIndex : nat) (patch : LineItemPatch)
  (f : MassUploadFile.t) : Exn MassUploadFile.t :=
  match MassUploadFile.extractedData f with
  | Some data =>
      match ExtractedInvoiceData.lineItems data with
      | None => Throw (ErrorObj TypeError "lineItems is not iterable")
      | Some lineItems =>
          match nth_error lineItems itemIndex with
          | Some item =>
              let newLineItems := replaceAt itemIndex (applyPatch patch item) lineItems in
              let recalculatedData :=
                recalculateInvoiceData (withLineItems newLineItems data)
                  (ExtractedInvoiceData.sellerName data) in
              Ok (withExtractedData recalculatedData f)
          | None => Ok f
          end
      end
  | None => Ok f
  end.

Definition handleLineItemChange (fileId : string) (itemIndex : nat)
  (patch : LineItemPatch) (prevFiles : list MassUploadFile.t)
  : Exn (list MassUploadFile.t) :=
  mapExn (fun f => if String.eqb (MassUploadFile.id f) fileId
                   then editLineItem itemIndex patch f else Ok f) prevFiles.

(** *** handleSave *)

(** [stockItem?.gstRate || 18] *)
Definition gstRateOnSave (itemDescription : string) : number :=
  numOr (option_map StockItem.gstRate (findStockItem itemDescription)) 18.

Definition toVoucherItem (isInterState : bool) (item : ExtractedLineItem.t)
  : VoucherItem.t :=
  let gstRate := gstRateOnSave (ExtractedLineItem.itemDescription item) in
  let taxableAmount := ExtractedLineItem.quantity item * ExtractedLineItem.rate item in
  let tax := taxableAmount * (gstRate / 100) in
  VoucherItem.mk (ExtractedLineItem.itemDescription item)
    (ExtractedLineItem.quantity item) (ExtractedLineItem.rate item) taxableAmount
    (if isInterState then 0 else tax / 2) (if isInterState then 0 else tax / 2)
    (if isInterState then tax else 0) (taxableAmount + tax).

(** The accumulator of [items.reduce]. *)
Record Totals := mkTotals {
  totalTaxableAmount : number;
  totalCgst : number;
  totalSgst : number;
  totalIgst : number;
  grandTotal : number
}.

Definition addItem (acc : Totals) (item : VoucherItem.t) : Totals :=
  mkTotals (totalTaxableAmount acc + VoucherItem.taxableAmount item)
    (totalCgst acc + VoucherItem.cgstAmount item)
    (totalSgst acc + VoucherItem.sgstAmount item)
    (totalIgst acc + VoucherItem.igstAmount item)
    (grandTotal acc + VoucherItem.totalAmount item).

Section Save.
Variable dateHost : DateHost.t.

(** [new Date(s).toISOString().split('T')[0]
      || new Date().toISOString().split('T')[0]]:
    [toISOString] throws a [RangeError] on an Invalid Date. *)
Definition voucherDate (invoiceDate : string) : Exn string :=
  match DateHost.parse dateHost invoiceDate with
  | None => Throw invalidTime
  | Some t =>
      let d := DateHost.isoDay dateHost t in
      Ok (if truthyStr d then d
          else DateHost.isoDay dateHost (DateHost.now dateHost))
  end.

(** The body of the [map] callback of [handleSave]. *)
Definition toVoucher (f : MassUploadFile.t) (data : ExtractedInvoiceData.t)
  : Exn SalesPurchaseVoucher.t :=
  let partyLedger := findPartyLedger (ExtractedInvoiceData.sellerName data) in
  let isInterState := interStateOf partyLedger in
  let items := List.map (toVoucherItem isInterState)
                 (orEmpty (ExtractedInvoiceData.lineItems data)) in
  let acc := fold_left addItem items (mkTotals 0 0 0 0 0) in
  date <- voucherDate (ExtractedInvoiceData.invoiceDate data) ;;
  Ok (SalesPurchaseVoucher.mk "" Purchase date
        (ExtractedInvoiceData.invoiceNumber data)
        (ExtractedInvoiceData.sellerName data) isInterState items
        (totalTaxableAmount acc) (totalCgst acc) (totalSgst acc)
        (totalIgst acc) (grandTotal acc)
        (String.append "Auto-imported from "
           (File.name (MassUploadFile.file f)))).

(** [f.status === 'success' && f.extractedData] *)
Definition savable (f : MassUploadFile.t) : bool :=
  andb (FileStatus_eqb (MassUploadFile.status f) success)
    (match MassUploadFile.extractedData f with Some _ => true | None => false end).

(** The vouchers passed to [onComplete]; [Throw] when the [map]
    callback throws, in which case [onComplete] is not called. *)
Definition handleSave (files : list MassUploadFile.t)
  : Exn (list SalesPurchaseVoucher.t) :=
  mapExn (fun f =>
            match MassUploadFile.extractedData f with
            | Some data => toVoucher f data
            | None => Throw (ErrorObj TypeError "extractedData is undefined")
            end)
    (filter savable files).
End Save.
End Props.

(** *** The arithmetic of handleSave, over its operations

    The numeric expressions of the [map] and [reduce] callbacks of
    [handleSave], with [+], [*], [/] and the literals [0], [2] and [100]
    as parameters.  Over the rationals they are the fields of
    [toVoucherItem] and [addItem]; over the binary64 operations they are
    the numbers the engine computes. *)
Section Arithmetic.
Variable num : Type.
Variables add mul div : num -> num -> num.
Variables zero two hundred : num.

Record Amounts := mkAmounts {
  taxablePart : num;
  cgstPart : num;
  sgstPart : num;
  igstPart : num;
  totalPart : num
}.

(** [taxableAmount], [cgstAmount], [sgstAmount], [igstAmount] and
    [totalAmount] of the item made of a line. *)
Definition itemAmounts (isInterState : bool) (quantity rate gstRate : num) : Amounts :=
  let taxableAmount := mul quantity rate in
  let tax := mul taxableAmount (div gstRate hundred) in
  mkAmounts taxableAmount
    (if isInterState then zero else div tax two)
    (if isInterState then zero else div tax two)
    (if isInterState then tax else zero)
    (add taxableAmount tax).

(** The [reduce] callback. *)
Definition addAmounts (acc item : Amounts) : Amounts :=
  mkAmounts (add (taxablePart acc) (taxablePart item))
    (add (cgstPart acc) (cgstPart item))
    (add (sgstPart acc) (sgstPart item))
    (add (igstPart acc) (igstPart item))
    (add (totalPart acc) (totalPart item)).

Definition sumAmounts (items : list Amounts) : Amounts :=
  fold_left addAmounts items (mkAmounts zero zero zero zero zero).

(** [totalTaxableAmount + totalCgst + totalSgst + totalIgst] *)
Definition partsTotal (a : Amounts) : num :=
  add (add (add (taxablePart a) (cgstPart a)) (sgstPart a)) (igstPart a).
End Arithmetic.

Arguments mkAmounts {num} _ _ _ _ _.
Arguments taxablePart {num} _.
Arguments cgstPart {num} _.
Arguments sgstPart {num} _.
Arguments igstPart {num} _.
Arguments totalPart {num} _.
Arguments itemAmounts {num} add mul div zero two hundred isInterState quantity rate gstRate.
Arguments addAmounts {num} add acc item.
Arguments sumAmounts {num} add zero items.
Arguments partsTotal {num} add a.

(** *** handleFileSelect, handleDataChange, handleDeleteFile *)

(** A JavaScript integer in a template literal. *)
Definition decimal (z : Z) : string := NilZero.string_of_int (Z.to_int z).

(** [`${file.name}-${file.lastModified}`] *)
Definition fileId (file : File.t) : string :=
  String.append (File.name file) (String.append "-" (decimal (File.lastModified file))).

(** [files.some(f => f.id === id)] *)
Definition known (files : list MassUploadFile.t) (id : string) : bool :=
  existsb (fun f => String.eqb (MassUploadFile.id f) id) files.

(** The selected files that are not yet in the list become pending
    entries after it.  The closure's [files] and the [prev] of [setFiles]
    are the same state. *)
Definition handleFileSelect (selectedFiles : list File.t)
  (files : list MassUploadFile.t) : list MassUploadFile.t :=
  let newFiles :=
    List.map (fun file => MassUploadFile.mk (fileId file) file pending None None)
      (filter (fun file => negb (known files (fileId file))) selectedFiles) in
  files ++ newFiles.

(** [{ ...f.extractedData, [field]: value }] for the scalar fields. *)
Inductive DataPatch :=
| SetSellerName (value : string)
| SetInvoiceNumber (value : string)
| SetInvoiceDate (value : string)
| SetSubtotal (value : number)
| SetCgstAmount (value : number)
| SetSgstAmount (value : number)
| SetTotalAmount (value : number).

Definition applyDataPatch (p : DataPatch) (d : ExtractedInvoiceData.t)
  : ExtractedInvoiceData.t :=
  let mk := ExtractedInvoiceData.mk in
  let sellerName := ExtractedInvoiceData.sellerName d in
  let invoiceNumber := ExtractedInvoiceData.invoiceNumber d in
  let invoiceDate := ExtractedInvoiceData.invoiceDate d in
  let subtotal := ExtractedInvoiceData.subtotal d in
  let cgstAmount := ExtractedInvoiceData.cgstAmount d in
  let sgstAmount := ExtractedInvoiceData.sgstAmount d in
  let totalAmount := ExtractedInvoiceData.totalAmount d in
  let lineItems := ExtractedInvoiceData.lineItems d in
  match p with
  | SetSellerName v =>
      mk v invoiceNumber invoiceDate subtotal cgstAmount sgstAmount totalAmount lineItems
  | SetInvoiceNumber v =>
      mk sellerName v invoiceDate subtotal cgstAmount sgstAmount totalAmount lineItems
  | SetInvoiceDate v =>
      mk sellerName invoiceNumber v subtotal cgstAmount sgstAmount totalAmount lineItems
  | SetSubtotal v =>
      mk sellerName invoiceNumber invoiceDate v cgstAmount sgstAmount totalAmount lineItems
  | SetCgstAmount v =>
      mk sellerName invoiceNumber invoiceDate subtotal v sgstAmount totalAmount lineItems
  | SetSgstAmount v =>
      mk sellerName invoiceNumber invoiceDate subtotal cgstAmount v totalAmount lineItems
  | SetTotalAmount v =>
      mk sellerName invoiceNumber invoiceDate subtotal cgstAmount sgstAmount v lineItems
  end.

Definition handleDataChange (fileId : string) (patch : DataPatch)
  (prevFiles : list MassUploadFile.t) : list MassUploadFile.t :=
  List.map
    (fun f =>
       if String.eqb (MassUploadFile.id f) fileId then
         match MassUploadFile.extractedData f with
         | Some data => withExtractedData (applyDataPatch patch data) f
         | None => f
         end
       else f)
    prevFiles.


(** *** The counters of the footer *)

Definition completedCount (files : list MassUploadFile.t) : nat :=
  List.length
    (filter (fun f => orb (FileStatus_eqb (MassUploadFile.status f) success)
                        (FileStatus_eqb (MassUploadFile.status f) error)) files).

Definition successCount (files : list MassUploadFile.t) : nat :=
  List.length (filter (fun f => FileStatus_eqb (MassUploadFile.status f) success) files).

Definition hasPendingFiles (files : list MassUploadFile.t) : bool :=
  existsb (fun f => FileStatus_eqb (MassUploadFile.status f) pending) files.

End MassUploadModal.

(* ===================================================================== *)
(** * The numbers of the engine                                           *)
(* ===================================================================== *)

(** The arithmetic of [handleSave] in IEEE-754 binary64, rounding to
    nearest even, as a JavaScript engine computes it. *)
Module Binary64.

Definition number := PrimFloat.float.

Definition itemAmounts : bool -> number -> number -> number -> MassUploadModal.Amounts number :=
  MassUploadModal.itemAmounts PrimFloat.add PrimFloat.mul PrimFloat.div
    0%float 2%float 100%float.

Definition sumAmounts : list (MassUploadModal.Amounts number) -> MassUploadModal.Amounts number :=
  MassUploadModal.sumAmounts PrimFloat.add 0%float.

Definition partsTotal : MassUploadModal.Amounts number -> number :=
  MassUploadModal.partsTotal PrimFloat.add.

(** [a === b] on numbers. *)
Definition strictEquals (a b : number) : bool := PrimFloat.eqb a b.

End Binary64.

(* ===================================================================== *)
(** * components/ReportsPage (second document of MassUploadModal.tsx)     *)
(* ===================================================================== *)

Module Balance.
Record t := mk { debit : number; credit : number }.
End Balance.

Module TrialBalanceRow.
Record t := mk { ledger : string; debit : number; credit : number }.
End TrialBalanceRow.

Module TrialBalance.
Record t := mk { result : list TrialBalanceRow.t; totals : Balance.t }.
End TrialBalance.

Module Movement.
Record t := mk { inward : number; outward : number }.
End Movement.

Module StockSummaryRow.
Record t := mk { name : string; inward : number; outward : number; closing : number }.
End StockSummaryRow.

Module Gstr1.
Record t := mk { b2b : list SalesPurchaseVoucher.t; b2c : list SalesPurchaseVoucher.t }.
End Gstr1.

Module Valuation.
Record t := mk { purchaseQty : number; purchaseValue : number; salesQty : number }.
End Valuation.

Module StockValuationRow.
Record t := mk { name : string; closingQty : number; avgCost : number; value : number }.
End StockValuationRow.

Module SalesTax.
Record t := mk {
  taxable : number;
  cgst : number;
  sgst : number;
  igst : number;
  total : number
}.
End SalesTax.

Module ReportsPage.

Inductive ReportType :=
| DayBook | LedgerReport | TrialBalance | StockSummary | GSTR1
| StockValuation | SalesTaxReport.

Definition ReportType_eqb (a b : ReportType) : bool :=
  match a, b with
  | DayBook, DayBook | LedgerReport, LedgerReport
  | TrialBalance, TrialBalance | StockSummary, StockSummary
  | GSTR1, GSTR1 | StockValuation, StockValuation
  | SalesTaxReport, SalesTaxReport => true
  | _, _ => false
  end.

(** ** trialBalanceData *)

(** [if (name && !balances[name]) balances[name] = { debit: 0, credit: 0 }]:
    [balances[name]] is truthy when [name] is a key and when it is the
    name of an inherited member, so that no key is ever made under such
    a name. *)
Definition ensureLedger (name : string) (balances : Obj Balance.t) : Obj Balance.t :=
  if andb (truthyStr name) (negb (orb (has name balances) (inherited name)))
  then set name (Balance.mk 0 0) balances
  else balances.

Definition notAnObject : Thrown :=
  ErrorObj TypeError "Cannot read properties of undefined".

(** [balances[name].debit += x]; reading a property of [undefined]
    throws; under the name of an inherited member it is that member
    which takes the property, and the balances keep no trace of it. *)
Definition addDebit (name : string) (x : number) (balances : Obj Balance.t)
  : Exn (Obj Balance.t) :=
  match get name balances with
  | Some b => Ok (set name (Balance.mk (Balance.debit b + x) (Balance.credit b)) balances)
  | None => if inherited name then Ok balances else Throw notAnObject
  end.

(** [balances[name].credit += x] *)
Definition addCredit (name : string) (x : number) (balances : Obj Balance.t)
  : Exn (Obj Balance.t) :=
  match get name balances with
  | Some b => Ok (set name (Balance.mk (Balance.debit b) (Balance.credit b + x)) balances)
  | None => if inherited name then Ok balances else Throw notAnObject
  end.

(** The callback of [v.entries.forEach] in the Journal case. *)
Definition postEntry (e : JournalEntry.t) (balances : Obj Balance.t)
  : Exn (Obj Balance.t) :=
  let balances := ensureLedger (JournalEntry.ledger e) balances in
  if truthyStr (JournalEntry.ledger e) then
    b <- addDebit (JournalEntry.ledger e) (JournalEntry.debit e) balances ;;
    addCredit (JournalEntry.ledger e) (JournalEntry.credit e) b
  else Ok balances.

(** The [ensureLedger('IGST'); ensureLedger('CGST'); ensureLedger('SGST')]
    line shared by the Purchase and Sales cases. *)
Definition ensureTaxLedgers (balances : Obj Balance.t) : Obj Balance.t :=
  ensureLedger "SGST" (ensureLedger "CGST" (ensureLedger "IGST" balances)).

(** The callback of [vouchers.forEach]: the [switch (v.type)]. *)
Definition post (v : Voucher) (balances : Obj Balance.t) : Exn (Obj Balance.t) :=
  match v with
  | VSalesPurchase v =>
      match SalesPurchaseVoucher.type v with
      | Purchase =>
          let b0 := ensureTaxLedgers
                      (ensureLedger "Purchases"
                         (ensureLedger (SalesPurchaseVoucher.party v) balances)) in
          b1 <- addCredit (SalesPurchaseVoucher.party v) (SalesPurchaseVoucher.total v) b0 ;;
          b2 <- addDebit "Purchases" (SalesPurchaseVoucher.totalTaxableAmount v) b1 ;;
          if SalesPurchaseVoucher.isInterState v then
            addDebit "IGST" (SalesPurchaseVoucher.totalIgst v) b2
          else
            (b3 <- addDebit "CGST" (SalesPurchaseVoucher.totalCgst v) b2 ;;
             addDebit "SGST" (SalesPurchaseVoucher.totalSgst v) b3)
      | Sales =>
          let b0 := ensureTaxLedgers
                      (ensureLedger "Sales"
                         (ensureLedger (SalesPurchaseVoucher.party v) balances)) in
          b1 <- addDebit (SalesPurchaseVoucher.party v) (SalesPurchaseVoucher.total v) b0 ;;
          b2 <- addCredit "Sales" (SalesPurchaseVoucher.totalTaxableAmount v) b1 ;;
          if SalesPurchaseVoucher.isInterState v then
            addCredit "IGST" (SalesPurchaseVoucher.totalIgst v) b2
          else
            (b3 <- addCredit "CGST" (SalesPurchaseVoucher.totalCgst v) b2 ;;
             addCredit "SGST" (SalesPurchaseVoucher.totalSgst v) b3)
      end
  | VPaymentReceipt v =>
      let b0 := ensureLedger (PaymentReceiptVoucher.account v)
                  (ensureLedger (PaymentReceiptVoucher.party v) balances) in
      match PaymentReceiptVoucher.type v with
      | Payment =>
          b1 <- addDebit (PaymentReceiptVoucher.party v) (PaymentReceiptVoucher.amount v) b0 ;;
          addCredit (PaymentReceiptVoucher.account v) (PaymentReceiptVoucher.amount v) b1
      | Receipt =>
          b1 <- addCredit (PaymentReceiptVoucher.party v) (PaymentReceiptVoucher.amount v) b0 ;;
          addDebit (PaymentReceiptVoucher.account v) (PaymentReceiptVoucher.amount v) b1
      end
  | VContra v =>
      let b0 := ensureLedger (ContraVoucher.toAccount v)
                  (ensureLedger (ContraVoucher.fromAccount v) balances) in
      b1 <- addCredit (ContraVoucher.fromAccount v) (ContraVoucher.amount v) b0 ;;
      addDebit (ContraVoucher.toAccount v) (ContraVoucher.amount v) b1
  | VJournal v => forEachExn postEntry (JournalVoucher.entries v) balances
  end.

(** The [map] callback over [Object.entries(balances)]. *)
Definition netRow (e : string * Balance.t) : TrialBalanceRow.t :=
  let (ledger, b) := e in
  if gtb (Balance.debit b) (Balance.credit b) then
    TrialBalanceRow.mk ledger (Balance.debit b - Balance.credit b) 0
  else if gtb (Balance.credit b) (Balance.debit b) then
    TrialBalanceRow.mk ledger 0 (Balance.credit b - Balance.debit b)
  else TrialBalanceRow.mk ledger 0 0.

(** [item.debit > 0 || item.credit > 0] *)
Definition emitted (item : TrialBalanceRow.t) : bool :=
  orb (gtb (TrialBalanceRow.debit item) 0) (gtb (TrialBalanceRow.credit item) 0).

Definition addRow (acc : Balance.t) (curr : TrialBalanceRow.t) : Balance.t :=
  Balance.mk (Balance.debit acc + TrialBalanceRow.debit curr)
    (Balance.credit acc + TrialBalanceRow.credit curr).

(** ** stockSummaryData and stockValuationData: the item callbacks *)

(** [if (summary[item.name]) summary[item.name].inward += item.qty] *)
Definition addInward (summary : Obj Movement.t) (item : VoucherItem.t) : Obj Movement.t :=
  match get (VoucherItem.name item) summary with
  | Some d => set (VoucherItem.name item)
                (Movement.mk (Movement.inward d + VoucherItem.qty item) (Movement.outward d))
                summary
  | None => summary
  end.

(** [if (summary[item.name]) summary[item.name].outward += item.qty] *)
Definition addOutward (summary : Obj Movement.t) (item : VoucherItem.t) : Obj Movement.t :=
  match get (VoucherItem.name item) summary with
  | Some d => set (VoucherItem.name item)
                (Movement.mk (Movement.inward d) (Movement.outward d + VoucherItem.qty item))
                summary
  | None => summary
  end.

Definition summaryStep (summary : Obj Movement.t) (v : Voucher) : Obj Movement.t :=
  match v with
  | VSalesPurchase v =>
      match SalesPurchaseVoucher.type v with
      | Purchase => fold_left addInward (SalesPurchaseVoucher.items v) summary
      | Sales => fold_left addOutward (SalesPurchaseVoucher.items v) summary
      end
  | _ => summary
  end.

Definition summaryRow (e : string * Movement.t) : StockSummaryRow.t :=
  let (name, data) := e in
  StockSummaryRow.mk name (Movement.inward data) (Movement.outward data)
    (Movement.inward data - Movement.outward data).





(** ** salesTaxData, filteredVouchers and the Day Book cells *)

Definition addSale5 (acc : SalesTax.t) (v : SalesPurchaseVoucher.t) : SalesTax.t :=
  SalesTax.mk (SalesTax.taxable acc + SalesPurchaseVoucher.totalTaxableAmount v)
    (SalesTax.cgst acc + SalesPurchaseVoucher.totalCgst v)
    (SalesTax.sgst acc + SalesPurchaseVoucher.totalSgst v)
    (SalesTax.igst acc + SalesPurchaseVoucher.totalIgst v)
    (SalesTax.total acc + SalesPurchaseVoucher.total v).

Definition dateOf (v : Voucher) : string :=
  match v with
  | VSalesPurchase v => SalesPurchaseVoucher.date v
  | VPaymentReceipt v => PaymentReceiptVoucher.date v
  | VContra v => ContraVoucher.date v
  | VJournal v => JournalVoucher.date v
  end.

(** The [switch (v.type)] of the ledger filter; ['account' in v] holds
    for Payment and Receipt vouchers only. *)
Definition mentions (selectedLedger : string) (v : Voucher) : bool :=
  match v with
  | VSalesPurchase v => String.eqb (SalesPurchaseVoucher.party v) selectedLedger
  | VPaymentReceipt v =>
      orb (String.eqb (PaymentReceiptVoucher.party v) selectedLedger)
        (String.eqb (PaymentReceiptVoucher.account v) selectedLedger)
  | VContra v =>
      orb (String.eqb (ContraVoucher.fromAccount v) selectedLedger)
        (String.eqb (ContraVoucher.toAccount v) selectedLedger)
  | VJournal v =>
      existsb (fun e => String.eqb (JournalEntry.ledger e) selectedLedger)
        (JournalVoucher.entries v)
  end.

(** ['total' in v ? v.total : 'amount' in v ? v.amount : 0] *)
Definition getVoucherAmount (v : Voucher) : number :=
  match v with
  | VSalesPurchase v => SalesPurchaseVoucher.total v
  | VPaymentReceipt v => PaymentReceiptVoucher.amount v
  | VContra v => ContraVoucher.amount v
  | VJournal _ => 0
  end.

(** [vouchers.filter(v => v.type === 'Sales') as SalesPurchaseVoucher[]] *)
Fixpoint salesOf (vouchers : list Voucher) : list SalesPurchaseVoucher.t :=
  match vouchers with
  | [] => []
  | VSalesPurchase v :: r =>
      match SalesPurchaseVoucher.type v with
      | Sales => v :: salesOf r
      | Purchase => salesOf r
      end
  | _ :: r => salesOf r
  end.

Section Props.
Variable vouchers : list Voucher.
Variable ledgers : list Ledger.t.
Variable stockItems : list StockItem.t.
Variable reportType : ReportType.

Definition ledgersByName : Obj Ledger.t :=
  fold_left (fun acc ledger => set (Ledger.name ledger) ledger acc) ledgers [].

Definition trialBalanceData : Exn (option TrialBalance.t) :=
  if negb (ReportType_eqb reportType TrialBalance) then Ok None
  else
    let balances0 := fold_left (fun b l => ensureLedger (Ledger.name l) b) ledgers [] in
    balances <- forEachExn post vouchers balances0 ;;
    let result := filter emitted (List.map netRow balances) in
    let totals := fold_left addRow result (Balance.mk 0 0) in
    Ok (Some (TrialBalance.mk result totals)).

Definition stockSummaryData : option (list StockSummaryRow.t) :=
  if negb (ReportType_eqb reportType StockSummary) then None
  else
    let summary0 := fold_left (fun s i => set (StockItem.name i) (Movement.mk 0 0) s)
                      stockItems [] in
    let summary := fold_left summaryStep vouchers summary0 in
    Some (List.map summaryRow summary).

(** [partyLedger?.registrationType === 'Registered' && partyLedger?.gstin] *)
Definition isB2b (v : SalesPurchaseVoucher.t) : bool :=
  match get (SalesPurchaseVoucher.party v) ledgersByName with
  | Some partyLedger =>
      andb (String.eqb (Ledger.registrationType partyLedger) "Registered")
        (truthyOptStr (Ledger.gstin partyLedger))
  | None => false
  end.

(** [!partyLedger || partyLedger.registrationType !== 'Registered'
      || !partyLedger.gstin] *)
Definition isB2c (v : SalesPurchaseVoucher.t) : bool :=
  match get (SalesPurchaseVoucher.party v) ledgersByName with
  | Some partyLedger =>
      orb (negb (String.eqb (Ledger.registrationType partyLedger) "Registered"))
        (negb (truthyOptStr (Ledger.gstin partyLedger)))
  | None => true
  end.

Definition gstr1Data : option Gstr1.t :=
  if negb (ReportType_eqb reportType GSTR1) then None
  else
    let salesVouchers := salesOf vouchers in
    Some (Gstr1.mk (filter isB2b salesVouchers) (filter isB2c salesVouchers)).


Definition salesTaxData : option SalesTax.t :=
  if negb (ReportType_eqb reportType SalesTaxReport) then None
  else Some (fold_left addSale5 (salesOf vouchers) (SalesTax.mk 0 0 0 0 0)).

Section Filters.
Variable selectedLedger : string.
Variable filterDate : string.
Variable filterMonth : string.

Definition filteredVouchers : list Voucher :=
  if andb (ReportType_eqb reportType LedgerReport) (truthyStr selectedLedger) then
    filter (mentions selectedLedger) vouchers
  else if ReportType_eqb reportType DayBook then
    if truthyStr filterDate then
      filter (fun v => String.eqb (dateOf v) filterDate) vouchers
    else if truthyStr filterMonth then
      filter (fun v => String.prefix filterMonth (dateOf v)) vouchers
    else vouchers
  else vouchers.
End Filters.
End Props.
End ReportsPage.

(* ===================================================================== *)
(** * Properties named by the specification                               *)
(* ===================================================================== *)

Module Spec.

(** Every ledger name a voucher posts to is a non-empty string. *)
Definition namesGiven (v : Voucher) : Prop :=
  match v with
  | VSalesPurchase v => truthyStr (SalesPurchaseVoucher.party v) = true
  | VPaymentReceipt v =>
      truthyStr (PaymentReceiptVoucher.party v) = true /\
      truthyStr (PaymentReceiptVoucher.account v) = true
  | VContra v =>
      truthyStr (ContraVoucher.fromAccount v) = true /\
      truthyStr (ContraVoucher.toAccount v) = true
  | VJournal _ => True
  end.

Definition entryImbalance (e : JournalEntry.t) : number :=
  if truthyStr (JournalEntry.ledger e)
  then JournalEntry.debit e - JournalEntry.credit e else 0.

(** What a voucher debits minus what it credits in the trial balance. *)
Definition imbalance (v : Voucher) : number :=
  match v with
  | VSalesPurchase v =>
      let tax := if SalesPurchaseVoucher.isInterState v
                 then SalesPurchaseVoucher.totalIgst v
                 else SalesPurchaseVoucher.totalCgst v + SalesPurchaseVoucher.totalSgst v in
      match SalesPurchaseVoucher.type v with
      | Purchase => SalesPurchaseVoucher.totalTaxableAmount v + tax
                    - SalesPurchaseVoucher.total v
      | Sales => SalesPurchaseVoucher.total v
                 - (SalesPurchaseVoucher.totalTaxableAmount v + tax)
      end
  | VPaymentReceipt _ => 0
  | VContra _ => 0
  | VJournal v => Qsum (List.map entryImbalance (JournalVoucher.entries v))
  end.

(** A voucher is balanced when it debits as much as it credits: a
    Purchase or Sales total is the taxable amount plus the tax of its
    own regime, and a Journal's named entries debit as much as they
    credit. *)
Definition balanced (v : Voucher) : Prop := imbalance v == 0.

Definition net (b : Balance.t) : number := Balance.debit b - Balance.credit b.

Definition netSum (o : Obj Balance.t) : number :=
  Qsum (List.map (fun e => net (snd e)) o).

(** [posted o o' d]: going from [o] to [o'] adds [d] to the net of all
    ledgers and forgets no ledger. *)
Definition posted (o o' : Obj Balance.t) (d : number) : Prop :=
  netSum o' == netSum o + d /\ (forall k, has k o = true -> has k o' = true).

Definition rowNet (r : TrialBalanceRow.t) : number :=
  TrialBalanceRow.debit r - TrialBalanceRow.credit r.

Definition debitColumn (rows : list TrialBalanceRow.t) : number :=
  Qsum (List.map TrialBalanceRow.debit rows).

Definition creditColumn (rows : list TrialBalanceRow.t) : number :=
  Qsum (List.map TrialBalanceRow.credit rows).

(** The two tax groups of a voucher item: CGST with SGST, and IGST. *)
Definition centralStateTaxed (it : VoucherItem.t) : Prop :=
  ~ VoucherItem.cgstAmount it == 0 \/ ~ VoucherItem.sgstAmount it == 0.

Definition integratedTaxed (it : VoucherItem.t) : Prop :=
  ~ VoucherItem.igstAmount it == 0.

Definition exactlyOneTaxGroup (it : VoucherItem.t) : Prop :=
  (centralStateTaxed it /\ ~ integratedTaxed it) \/
  (~ centralStateTaxed it /\ integratedTaxed it).

(** ** GSTR-1 *)

(** The ledger that [ledgersByName] holds under exactly the name [party]:
    the last such ledger of the master list. *)
Definition ledgerNamed (ledgers : list Ledger.t) (party : string) : option Ledger.t :=
  find (fun l => String.eqb (Ledger.name l) party) (rev ledgers).

Definition registeredWithGstin (l : Ledger.t) : Prop :=
  Ledger.registrationType l = "Registered" /\
  exists g, Ledger.gstin l = Some g /\ g <> "".

(** The b2b condition of the code: the party is the exact name of a ledger. *)
Definition b2bExact (ledgers : list Ledger.t) (v : SalesPurchaseVoucher.t) : Prop :=
  exists l, ledgerNamed ledgers (SalesPurchaseVoucher.party v) = Some l /\
            registeredWithGstin l.

(** The b2b condition in the specification's words: the party ledger
    exists under case-insensitive matching of names. *)
Definition b2bCaseInsensitive (ledgers : list Ledger.t) (v : SalesPurchaseVoucher.t)
  : Prop :=
  exists l, In l ledgers /\
            toLowerCase (Ledger.name l) = toLowerCase (SalesPurchaseVoucher.party v) /\
            registeredWithGstin l.

Definition isSale (vouchers : list Voucher) (v : SalesPurchaseVoucher.t) : Prop :=
  In (VSalesPurchase v) vouchers /\ SalesPurchaseVoucher.type v = Sales.

(** ** Stock movement *)

Definition SalesPurchaseType_eqb (a b : SalesPurchaseType) : bool :=
  match a, b with
  | Purchase, Purchase | Sales, Sales => true
  | _, _ => false
  end.

(** The line items of a voucher of kind [ty] whose name is exactly [name]. *)
Definition itemsNamed (ty : SalesPurchaseType) (name : string) (v : Voucher)
  : list VoucherItem.t :=
  match v with
  | VSalesPurchase v =>
      if SalesPurchaseType_eqb (SalesPurchaseVoucher.type v) ty
      then filter (fun it => String.eqb (VoucherItem.name it) name)
             (SalesPurchaseVoucher.items v)
      else []
  | _ => []
  end.

(** The quantity of [name] moved by the vouchers of kind [ty]. *)
Definition movedQty (ty : SalesPurchaseType) (name : string) (vouchers : list Voucher)
  : number :=
  Qsum (List.map VoucherItem.qty (flat_map (itemsNamed ty name) vouchers)).


(** [if (o[item.name]) o[item.name] = u(o[item.name], item)]: the shape
    shared by the four item callbacks of the stock reports. *)
Definition bump {V} (u : V -> VoucherItem.t -> V) (o : Obj V) (item : VoucherItem.t)
  : Obj V :=
  match get (VoucherItem.name item) o with
  | Some d => set (VoucherItem.name item) (u d item) o
  | None => o
  end.

Definition uInward (d : Movement.t) (item : VoucherItem.t) : Movement.t :=
  Movement.mk (Movement.inward d + VoucherItem.qty item) (Movement.outward d).

Definition uOutward (d : Movement.t) (item : VoucherItem.t) : Movement.t :=
  Movement.mk (Movement.inward d) (Movement.outward d + VoucherItem.qty item).



(** The [vouchers.forEach] callback shared by the two stock reports. *)
Definition stockStep {V} (uP uS : V -> VoucherItem.t -> V) (o : Obj V) (v : Voucher)
  : Obj V :=
  match v with
  | VSalesPurchase v =>
      match SalesPurchaseVoucher.type v with
      | Purchase => fold_left (bump uP) (SalesPurchaseVoucher.items v) o
      | Sales => fold_left (bump uS) (SalesPurchaseVoucher.items v) o
      end
  | _ => o
  end.

(** What a voucher does to the record kept under the key [k]. *)
Definition applyVoucher {V} (uP uS : V -> VoucherItem.t -> V) (k : string)
  (d : V) (v : Voucher) : V :=
  fold_left uS (itemsNamed Sales k v) (fold_left uP (itemsNamed Purchase k v) d).

(** The stock-item callback: [o[i.name] = z]. *)
Definition initStock {V} (z : V) (stockItems : list StockItem.t) (o : Obj V) : Obj V :=
  fold_left (fun s i => set (StockItem.name i) z s) stockItems o.

(** ** Batch extraction *)

(** The two [setFiles] updates of [startProcessing] for the pending file
    [f], applied to the entry [g] of the state. *)
Definition finishWith (host : GeminiService.Host) (f g : MassUploadFile.t)
  : MassUploadFile.t :=
  match snd (GeminiService.extractInvoiceDataWithRetry host (MassUploadFile.file f)
               GeminiService.maxRetriesDefault GeminiService.initialDelayDefault) with
  | Ok data => withExtractedData data (withStatus success (withStatus processing g))
  | Throw e => withError (MassUploadModal.errorMessage e)
                 (withStatus error (withStatus processing g))
  end.

(** What [startProcessing] makes of a file: a pending file gets the
    outcome of its own extraction, whatever happened to the files before
    it; any other file is left alone. *)
Definition settle (host : GeminiService.Host) (f : MassUploadFile.t) : MassUploadFile.t :=
  if FileStatus_eqb (MassUploadFile.status f) pending then finishWith host f f else f.

(** What the snapshot file [f] makes of the entry [g] of the state, and
    what the whole snapshot [fs] makes of it, file after file. *)
Definition settleStep (host : GeminiService.Host) (g f : MassUploadFile.t)
  : MassUploadFile.t :=
  if andb (String.eqb (MassUploadFile.id g) (MassUploadFile.id f))
       (FileStatus_eqb (MassUploadFile.status f) pending)
  then finishWith host f g else g.

Definition settleAll (host : GeminiService.Host) (fs : list MassUploadFile.t)
  (g : MassUploadFile.t) : MassUploadFile.t :=
  fold_left (settleStep host) fs g.

(** Every attempt on [file] fails. *)
Definition alwaysFails (host : GeminiService.Host) (file : File.t) : Prop :=
  forall attempt, exists e, GeminiService.tryExtract host file attempt = Throw e.

(** ** Recalculation on edit *)

Definition lineAmount (item : ExtractedLineItem.t) : number :=
  ExtractedLineItem.quantity item * ExtractedLineItem.rate item.

(** Half the tax of a line at the rate the edit path resolves. *)
Definition halfTaxOnEdit (stockItems : list StockItem.t) (item : ExtractedLineItem.t)
  : number :=
  lineAmount item
  * (MassUploadModal.gstRateOnEdit stockItems (ExtractedLineItem.itemDescription item) / 100)
  / 2.

(** ** Postings per ledger *)

(** [x] when the posting goes to the ledger [L], 0 otherwise. *)
Definition onLedger (L k : string) (x : number) : number :=
  if String.eqb L k then x else 0.

Definition entryPosting (L : string) (e : JournalEntry.t) : number :=
  if truthyStr (JournalEntry.ledger e)
  then onLedger L (JournalEntry.ledger e) (JournalEntry.debit e - JournalEntry.credit e)
  else 0.

(** What the voucher [v] debits, less what it credits, on the ledger [L]. *)
Definition posting (L : string) (v : Voucher) : number :=
  match v with
  | VSalesPurchase v =>
      let taxes :=
        if SalesPurchaseVoucher.isInterState v
        then onLedger L "IGST" (SalesPurchaseVoucher.totalIgst v)
        else onLedger L "CGST" (SalesPurchaseVoucher.totalCgst v)
             + onLedger L "SGST" (SalesPurchaseVoucher.totalSgst v) in
      match SalesPurchaseVoucher.type v with
      | Purchase =>
          onLedger L "Purchases" (SalesPurchaseVoucher.totalTaxableAmount v) + taxes
          - onLedger L (SalesPurchaseVoucher.party v) (SalesPurchaseVoucher.total v)
      | Sales =>
          onLedger L (SalesPurchaseVoucher.party v) (SalesPurchaseVoucher.total v)
          - onLedger L "Sales" (SalesPurchaseVoucher.totalTaxableAmount v) - taxes
      end
  | VPaymentReceipt v =>
      match PaymentReceiptVoucher.type v with
      | Payment =>
          onLedger L (PaymentReceiptVoucher.party v) (PaymentReceiptVoucher.amount v)
          - onLedger L (PaymentReceiptVoucher.account v) (PaymentReceiptVoucher.amount v)
      | Receipt =>
          onLedger L (PaymentReceiptVoucher.account v) (PaymentReceiptVoucher.amount v)
          - onLedger L (PaymentReceiptVoucher.party v) (PaymentReceiptVoucher.amount v)
      end
  | VContra v =>
      onLedger L (ContraVoucher.toAccount v) (ContraVoucher.amount v)
      - onLedger L (ContraVoucher.fromAccount v) (ContraVoucher.amount v)
  | VJournal v => Qsum (List.map (entryPosting L) (JournalVoucher.entries v))
  end.

(** The net of all the postings of the vouchers to the ledger [L]. *)
Definition postings (L : string) (vouchers : list Voucher) : number :=
  Qsum (List.map (posting L) vouchers).

(** The net kept under [L], 0 when there is no such key. *)
Definition netOf (L : string) (o : Obj Balance.t) : number :=
  match get L o with Some b => net b | None => 0 end.


(** The empty string is not a key: [ensureLedger] never makes it one. *)
Definition noEmptyKey (o : Obj Balance.t) : Prop := get "" o = None.

(** ** Sums over invoices *)

Definition sumOf (f : SalesPurchaseVoucher.t -> number)
  (vs : list SalesPurchaseVoucher.t) : number :=
  Qsum (List.map f vs).

(** The tax of an invoice as the GSTR-1 tables show it. *)
Definition totalTax (v : SalesPurchaseVoucher.t) : number :=
  SalesPurchaseVoucher.totalCgst v + SalesPurchaseVoucher.totalSgst v
  + SalesPurchaseVoucher.totalIgst v.

(** Invariant I3 of a Purchase or Sales voucher. *)
Definition totalCloses (v : SalesPurchaseVoucher.t) : Prop :=
  SalesPurchaseVoucher.total v
  == SalesPurchaseVoucher.totalTaxableAmount v + SalesPurchaseVoucher.totalCgst v
     + SalesPurchaseVoucher.totalSgst v + SalesPurchaseVoucher.totalIgst v.

(** The Day Book amount of a Sales voucher. *)
Definition getVoucherAmountOfSale (v : SalesPurchaseVoucher.t) : number :=
  ReportsPage.getVoucherAmount (VSalesPurchase v).

(** ** The state of the upload modal *)

(** A file marked 'success' carries its extracted data (which a
    falsy reply of the service, stored as it is, would not be). *)
Definition successHasData (f : MassUploadFile.t) : Prop :=
  MassUploadFile.status f = success -> MassUploadFile.extractedData f <> None.

Definition settled (f : MassUploadFile.t) : Prop :=
  MassUploadFile.status f = success \/ MassUploadFile.status f = error.

(** The pending entry that [handleFileSelect] makes of a selected file. *)
Definition entryOf (file : File.t) : MassUploadFile.t :=
  MassUploadFile.mk (MassUploadModal.fileId file) file pending None None.

(** The extracted data without its advisory totals. *)
Definition eraseTotals (d : ExtractedInvoiceData.t) : ExtractedInvoiceData.t :=
  ExtractedInvoiceData.mk (ExtractedInvoiceData.sellerName d)
    (ExtractedInvoiceData.invoiceNumber d) (ExtractedInvoiceData.invoiceDate d)
    0 0 0 0 (ExtractedInvoiceData.lineItems d).

(** Two uploaded files that differ at most in the advisory totals
    (subtotal, cgstAmount, sgstAmount, totalAmount) of their data. *)
Definition sameButTotals (f g : MassUploadFile.t) : Prop :=
  MassUploadFile.id f = MassUploadFile.id g /\
  MassUploadFile.file f = MassUploadFile.file g /\
  MassUploadFile.status f = MassUploadFile.status g /\
  option_map eraseTotals (MassUploadFile.extractedData f)
  = option_map eraseTotals (MassUploadFile.extractedData g).

(** The file with its invoice recalculated for its own seller. *)
Definition recalculated (ledgers : list Ledger.t) (stockItems : list StockItem.t)
  (companyDetails : CompanyDetails.t) (f : MassUploadFile.t) : MassUploadFile.t :=
  match MassUploadFile.extractedData f with
  | Some data =>
      withExtractedData
        (MassUploadModal.recalculateInvoiceData ledgers stockItems companyDetails data
           (ExtractedInvoiceData.sellerName data)) f
  | None => f
  end.

(** The number of lines of the invoice of a file, if it has one. *)
Definition lineCount (f : MassUploadFile.t) : option nat :=
  option_map (fun d => List.length (MassUploadModal.orEmpty (ExtractedInvoiceData.lineItems d)))
    (MassUploadFile.extractedData f).

(** What a line-item edit leaves alone. *)
Definition sameFileAndLines (f f' : MassUploadFile.t) : Prop :=
  MassUploadFile.id f' = MassUploadFile.id f /\
  MassUploadFile.file f' = MassUploadFile.file f /\
  MassUploadFile.status f' = MassUploadFile.status f /\
  MassUploadFile.error f' = MassUploadFile.error f /\
  lineCount f' = lineCount f.

(** The edited index is that of a line, in every file of the id. *)
Definition indexOfALine (fileId : string) (itemIndex : nat)
  (files : list MassUploadFile.t) : Prop :=
  forall f d ls,
    In f files -> MassUploadFile.id f = fileId ->
    MassUploadFile.extractedData f = Some d ->
    ExtractedInvoiceData.lineItems d = Some ls ->
    (itemIndex < List.length ls)%nat.

Fixpoint contains (c : ascii) (s : string) : bool :=
  match s with
  | EmptyString => false
  | String x r => orb (Ascii.eqb x c) (contains c r)
  end.

(** ** Names that are keys of their own *)

(** A name that is not the name of an inherited member. *)
Definition ownName (name : string) : Prop := ~ In name inheritedNames.

(** The ledger names a voucher posts to, besides the fixed ones. *)
Definition ledgersOf (v : Voucher) : list string :=
  match v with
  | VSalesPurchase v => [SalesPurchaseVoucher.party v]
  | VPaymentReceipt v => [PaymentReceiptVoucher.party v; PaymentReceiptVoucher.account v]
  | VContra v => [ContraVoucher.fromAccount v; ContraVoucher.toAccount v]
  | VJournal v => List.map JournalEntry.ledger (JournalVoucher.entries v)
  end.

Definition ownLedgers (v : Voucher) : Prop := Forall ownName (ledgersOf v).

Definition digit (c : ascii) : bool :=
  let n := nat_of_ascii c in andb (Nat.leb 48 n) (Nat.leb n 57).

Fixpoint digits (s : string) : bool :=
  match s with
  | EmptyString => true
  | String c r => andb (digit c) (digits r)
  end.

(** A canonical decimal numeral ("0", "7", "10", not "07"): among such
    keys are the array indices, which [Object.entries] lists first and in
    ascending order whatever the order of insertion. *)
Definition numeral (s : string) : bool :=
  match s with
  | EmptyString => false
  | String c r => andb (digits s) (orb (negb (Ascii.eqb c "0")) (String.eqb r ""))
  end.

(** Keys that [Object.entries] lists in the order of their insertion:
    no numeral, and not "__proto__", which an assignment does not make
    a key. *)
Definition insertionOrdered (names : list string) : Prop :=
  Forall (fun n => numeral n = false /\ n <> "__proto__") names.

(** ** Sums without rounding *)

(** [x] is an integer: its reduced fraction has the denominator 1. *)
Definition whole (x : number) : Prop := Qden (Qred x) = 1%positive.

(** Numbers that binary64 adds and subtracts without rounding, in any
    order and grouping: whole numbers whose magnitudes add up to at most
    2^53. *)
Definition exactlySummable (l : list number) : Prop :=
  Forall whole l /\ Qsum (List.map Qabs l) <= 9007199254740992.

Definition entryAmounts (e : JournalEntry.t) : list number :=
  if truthyStr (JournalEntry.ledger e)
  then [JournalEntry.debit e; JournalEntry.credit e] else [].

(** The amounts a voucher adds to the balances of the trial balance. *)
Definition amountsOf (v : Voucher) : list number :=
  match v with
  | VSalesPurchase v =>
      SalesPurchaseVoucher.total v :: SalesPurchaseVoucher.totalTaxableAmount v
      :: (if SalesPurchaseVoucher.isInterState v
          then [SalesPurchaseVoucher.totalIgst v]
          else [SalesPurchaseVoucher.totalCgst v; SalesPurchaseVoucher.totalSgst v])
  | VPaymentReceipt v => [PaymentReceiptVoucher.amount v; PaymentReceiptVoucher.amount v]
  | VContra v => [ContraVoucher.amount v; ContraVoucher.amount v]
  | VJournal v => flat_map entryAmounts (JournalVoucher.entries v)
  end.

(** The five totals of a Purchase or Sales voucher. *)
Definition totalsOf (v : SalesPurchaseVoucher.t) : list number :=
  [SalesPurchaseVoucher.totalTaxableAmount v; SalesPurchaseVoucher.totalCgst v;
   SalesPurchaseVoucher.totalSgst v; SalesPurchaseVoucher.totalIgst v;
   SalesPurchaseVoucher.total v].

(** ** Running sums *)

(** [l.reduce((acc, x) => acc + x, 0)]: the sum as the code adds it up. *)
Definition runningSum (l : list number) : number := fold_left Qplus l 0.



(** ** The amounts of a saved voucher *)

Definition amountsOfItem (it : VoucherItem.t) : MassUploadModal.Amounts number :=
  MassUploadModal.mkAmounts (VoucherItem.taxableAmount it) (VoucherItem.cgstAmount it)
    (VoucherItem.sgstAmount it) (VoucherItem.igstAmount it) (VoucherItem.totalAmount it).

Definition amountsOfVoucher (v : SalesPurchaseVoucher.t) : MassUploadModal.Amounts number :=
  MassUploadModal.mkAmounts (SalesPurchaseVoucher.totalTaxableAmount v)
    (SalesPurchaseVoucher.totalCgst v) (SalesPurchaseVoucher.totalSgst v)
    (SalesPurchaseVoucher.totalIgst v) (SalesPurchaseVoucher.total v).

(** The tax of an item at the rate the save path resolves for its name. *)
Definition taxOnSave (stockItems : list StockItem.t) (it : VoucherItem.t) : number :=
  VoucherItem.taxableAmount it
  * (MassUploadModal.gstRateOnSave stockItems (VoucherItem.name it) / 100).

End Spec.

(* ===================================================================== *)
(** * Sample data                                                         *)
(* ===================================================================== *)

Module Sample.

Definition cashEntry : JournalEntry.t := JournalEntry.mk "Cash" 100 0.

(** A Journal voucher with a single debit entry. *)
Definition oneSidedJournal : Voucher :=
  VJournal (JournalVoucher.mk "j1" "2025-01-01" [cashEntry]).

(** Scenario C of the specification. *)
Definition purchaseX : Voucher :=
  VSalesPurchase
    (SalesPurchaseVoucher.mk "p1" Purchase "2025-01-01" "INV-1" "X" false []
       100 9 9 0 118 "").

(** A payment of 5 from Cash to a party called "toString". *)
Definition paymentToString : Voucher :=
  VPaymentReceipt
    (PaymentReceiptVoucher.mk "pay2" Payment "2025-01-03" "toString" "Cash" 5).

Definition paymentX : Voucher :=
  VPaymentReceipt (PaymentReceiptVoucher.mk "pay1" Payment "2025-01-02" "X" "Cash" 118).

(** A stand-in for the host's [Date]: it accepts the strings of the form
    YYYY-MM-DD and nothing else, and prints a date as it was read. *)
Definition isDigit (c : ascii) : bool :=
  let n := nat_of_ascii c in andb (Nat.leb 48 n) (Nat.leb n 57).

Definition isDash (c : ascii) : bool := Nat.eqb (nat_of_ascii c) 45.

Definition isIsoDay (s : string) : bool :=
  match list_ascii_of_string s with
  | [y1; y2; y3; y4; d1; m1; m2; d2; a1; a2] =>
      forallb isDigit [y1; y2; y3; y4; m1; m2; a1; a2] && isDash d1 && isDash d2
  | _ => false
  end.

Definition isoDates : DateHost.t :=
  DateHost.mk (fun s => if isIsoDay s then Some s else None) (fun t => t) "2026-11-02".

Definition acme : Ledger.t := Ledger.mk "Acme" (Some "Karnataka") "Registered" (Some "29ABCDE1234F1Z5").

Definition company : CompanyDetails.t := CompanyDetails.mk (Some "Karnataka").

Definition companyElsewhere : CompanyDetails.t := CompanyDetails.mk (Some "Kerala").

Definition widget : StockItem.t := StockItem.mk "Widget" 18.

(** A zero-rated stock item. *)
Definition rice : StockItem.t := StockItem.mk "Rice" 0.

Definition png (name : string) : File.t := File.mk name 1%Z "image/png".

Definition extracted (invoiceDate : string) (lineItems : list ExtractedLineItem.t)
  : ExtractedInvoiceData.t :=
  ExtractedInvoiceData.mk "acme" "INV-7" invoiceDate 0 0 0 0 (Some lineItems).

Definition uploaded (name : string) (data : ExtractedInvoiceData.t) : MassUploadFile.t :=
  MassUploadFile.mk (String.append name "-1") (png name) success (Some data) None.

(** Scenario A of the specification: two widgets at 100. *)
Definition twoWidgets : ExtractedLineItem.t := ExtractedLineItem.mk "widget" "8471" 2 100.

(** A line whose quantity was unreadable and defaulted to 0. *)
Definition noWidgets : ExtractedLineItem.t := ExtractedLineItem.mk "Widget" "8471" 0 100.

Definition oneRice : ExtractedLineItem.t := ExtractedLineItem.mk "rice" "1006" 1 100.

Definition fileA : MassUploadFile.t := uploaded "a.png" (extracted "2025-03-01" [twoWidgets]).

Definition fileZeroQty : MassUploadFile.t :=
  uploaded "b.png" (extracted "2025-03-01" [noWidgets]).

(** An invoice whose date was unreadable and defaulted to the empty string. *)
Definition fileNoDate : MassUploadFile.t := uploaded "c.png" (extracted "" [twoWidgets]).

Definition fileRice : MassUploadFile.t := uploaded "d.png" (extracted "2025-03-01" [oneRice]).

(** A sale to "acme", spelt in lower case. *)
Definition saleToLowerAcme : SalesPurchaseVoucher.t :=
  SalesPurchaseVoucher.mk "s1" Sales "2025-04-01" "S-1" "acme" false [] 100 9 9 0 118 "".

Definition widgetItem (name : string) (qty : number) : VoucherItem.t :=
  VoucherItem.mk name qty 100 (qty * 100) 0 0 0 (qty * 100).

(** A purchase of 5 "Widget" and 3 "widget". *)
Definition purchaseWidgets : Voucher :=
  VSalesPurchase
    (SalesPurchaseVoucher.mk "p2" Purchase "2025-04-02" "P-2" "Acme" false
       [widgetItem "Widget" 5; widgetItem "widget" 3] 800 0 0 0 800 "").

Definition saleWidgets : Voucher :=
  VSalesPurchase
    (SalesPurchaseVoucher.mk "s2" Sales "2025-04-03" "S-2" "Acme" false
       [widgetItem "Widget" 2] 200 0 0 0 200 "").

(** A service that is down: the attempts fail with a timeout and then
    twice with an overload. *)
Definition serviceDown : GeminiService.Host :=
  GeminiService.mkHost (fun _ => Ok "aGVsbG8=")
    (fun _ attempt =>
       match attempt with
       | O => Throw (ErrorObj PlainError "deadline exceeded")
       | _ => Throw (ErrorObj PlainError "503 overloaded")
       end).

(** A service that fails on "bad.png" only. *)
Definition serviceBadFile : GeminiService.Host :=
  GeminiService.mkHost (fun _ => Ok "aGVsbG8=")
    (fun file attempt =>
       if String.eqb (File.name file) "bad.png"
       then Throw (ErrorObj SyntaxError "Unexpected end of JSON input")
       else Ok (extracted "2025-03-01" [twoWidgets])).

Definition selected (name : string) : MassUploadFile.t :=
  MassUploadFile.mk (String.append name "-1") (png name) pending None None.

Definition batch : list MassUploadFile.t :=
  [selected "good.png"; selected "bad.png"; selected "late.png"].

(** An invoice as extracted, with the totals printed on it. *)
Definition printed : ExtractedInvoiceData.t :=
  ExtractedInvoiceData.mk "acme" "INV-7" "2025-03-01" 200 18 18 236 (Some [twoWidgets]).

Definition fileToEdit : MassUploadFile.t := uploaded "e.png" printed.

(** A sale to "Acme" that closes: 100 + 9 + 9 + 0 = 118. *)
Definition saleToAcme : SalesPurchaseVoucher.t :=
  SalesPurchaseVoucher.mk "s3" Sales "2025-04-05" "S-3" "Acme" false [] 100 9 9 0 118 "".

(** A service that answers at the second attempt. *)
Definition serviceSlow : GeminiService.Host :=
  GeminiService.mkHost (fun _ => Ok "aGVsbG8=")
    (fun _ attempt =>
       match attempt with
       | O => Throw (ErrorObj PlainError "deadline exceeded")
       | _ => Ok (extracted "2025-03-01" [twoWidgets])
       end).

(** A browser that cannot read the files. *)
Definition unreadable : GeminiService.Host :=
  GeminiService.mkHost (fun _ => Throw NonError)
    (fun _ _ => Ok (extracted "2025-03-01" [twoWidgets])).

(** A response of the service without the lineItems field. *)
Definition fileNoLines : MassUploadFile.t :=
  uploaded "n.png" (ExtractedInvoiceData.mk "acme" "INV-8" "2025-03-02" 0 0 0 0 None).

End Sample.

Unset Implicit Arguments.

(* ===================================================================== *)
(** * Lemmas on the JavaScript primitives                                 *)
(* ===================================================================== *)

Lemma gtb_true (a b : number) : gtb a b = true <-> b < a.
Proof.
  unfold gtb. rewrite negb_true_iff.
  destruct (Qle_bool a b) eqn:E.
  - apply Qle_bool_iff in E. split; [discriminate | intro H; lra].
  - split; [intros _ | reflexivity].
    destruct (Qlt_le_dec b a) as [L | L]; [exact L |].
    apply Qle_bool_iff in L. congruence.
Qed.

Lemma gtb_false (a b : number) : gtb a b = false <-> a <= b.
Proof.
  unfold gtb. rewrite negb_false_iff. apply Qle_bool_iff.
Qed.

Lemma truthyNum_true (x : number) : truthyNum x = true <-> ~ x == 0.
Proof.
  unfold truthyNum. rewrite negb_true_iff.
  destruct (Qeq_bool x 0) eqn:E.
  - apply Qeq_bool_iff in E. split; [discriminate | tauto].
  - split; [| reflexivity]. intros _ H. apply Qeq_bool_iff in H. congruence.
Qed.

Lemma get_set_same {V} (k : string) (v : V) (o : Obj V) : get k (set k v o) = Some v.
Proof.
  induction o as [| [k' v'] r IH]; simpl.
  - now rewrite String.eqb_refl.
  - destruct (String.eqb k k') eqn:E; simpl; rewrite ?String.eqb_refl, ?E; auto.
Qed.

Lemma get_set_other {V} (k k' : string) (v : V) (o : Obj V) :
  k <> k' -> get k (set k' v o) = get k o.
Proof.
  intros N. induction o as [| [k0 v0] r IH]; simpl.
  - apply String.eqb_neq in N. now rewrite N.
  - destruct (String.eqb k' k0) eqn:E; simpl.
    + apply String.eqb_eq in E. subst k0.
      apply String.eqb_neq in N. now rewrite N.
    + now rewrite IH.
Qed.

Lemma keys_set_some {V} (k : string) (v x : V) (o : Obj V) :
  get k o = Some x -> keys (set k v o) = keys o.
Proof.
  unfold keys. induction o as [| [k' v'] r IH]; simpl; [discriminate |].
  destruct (String.eqb k k') eqn:E; simpl.
  - apply String.eqb_eq in E. now subst.
  - intros H. now rewrite IH.
Qed.

Lemma keys_set_none {V} (k : string) (v : V) (o : Obj V) :
  get k o = None -> keys (set k v o) = keys o ++ [k].
Proof.
  unfold keys. induction o as [| [k' v'] r IH]; simpl; [reflexivity |].
  destruct (String.eqb k k') eqn:E; simpl; [discriminate |].
  intros H. now rewrite IH.
Qed.

Lemma get_none_keys {V} (k : string) (o : Obj V) : get k o = None <-> ~ In k (keys o).
Proof.
  unfold keys. induction o as [| [k' v'] r IH]; simpl; [tauto |].
  destruct (String.eqb k k') eqn:E.
  - apply String.eqb_eq in E. subst. split; [discriminate | tauto].
  - apply String.eqb_neq in E. rewrite IH. split; [intros H [A | A]; auto | tauto].
Qed.

Lemma has_set {V} (k k' : string) (v : V) (o : Obj V) :
  has k (set k' v o) = orb (String.eqb k k') (has k o).
Proof.
  unfold has. destruct (String.eqb k k') eqn:E.
  - apply String.eqb_eq in E. subst. now rewrite get_set_same.
  - apply String.eqb_neq in E. now rewrite get_set_other.
Qed.

Lemma Qsum_app (l1 l2 : list number) : Qsum (l1 ++ l2) == Qsum l1 + Qsum l2.
Proof.
  induction l1 as [| x r IH]; simpl; [lra | rewrite IH; lra].
Qed.

(* ===================================================================== *)
(** * Trial balance                                                       *)
(* ===================================================================== *)

Section TrialBalanceFacts.
Import Spec ReportsPage.

Lemma netSum_set_some (k : string) (b b' : Balance.t) (o : Obj Balance.t) :
  get k o = Some b -> netSum (set k b' o) == netSum o - net b + net b'.
Proof.
  unfold netSum. induction o as [| [k' v'] r IH]; simpl; [discriminate |].
  destruct (String.eqb k k') eqn:E; simpl.
  - intros H. injection H as ->. lra.
  - intros H. rewrite (IH H). lra.
Qed.

Lemma netSum_set_none (k : string) (b' : Balance.t) (o : Obj Balance.t) :
  get k o = None -> netSum (set k b' o) == netSum o + net b'.
Proof.
  unfold netSum. induction o as [| [k' v'] r IH]; simpl; [intros _; lra |].
  destruct (String.eqb k k') eqn:E; simpl; [discriminate |].
  intros H. rewrite (IH H). lra.
Qed.

Lemma posted_refl (o : Obj Balance.t) : posted o o 0.
Proof. split; [lra | auto]. Qed.

Lemma posted_trans (o1 o2 o3 : Obj Balance.t) (d1 d2 : number)
  (P1 : posted o1 o2 d1) (P2 : posted o2 o3 d2) : posted o1 o3 (d1 + d2).
Proof.
  destruct P1 as [E1 H1], P2 as [E2 H2]. split; [rewrite E2, E1; lra | auto].
Qed.

Arguments posted_trans {o1 o2 o3 d1 d2} P1 P2.


Lemma posted_eq (o o' : Obj Balance.t) (d d' : number) :
  d == d' -> posted o o' d -> posted o o' d'.
Proof. intros E [E1 H1]. split; [rewrite E1; lra | auto]. Qed.

Lemma inherited_false (k : string) : ownName k -> inherited k = false.
Proof.
  intros O. unfold inherited. destruct (existsb _ _) eqn:E; [| reflexivity].
  apply existsb_exists in E. destruct E as (x & Hx & E).
  apply String.eqb_eq in E. subst x. now destruct O.
Qed.

Lemma inherited_true (k : string) : inherited k = true -> ~ ownName k.
Proof.
  unfold inherited. intros E O. apply existsb_exists in E. destruct E as (x & Hx & E).
  apply String.eqb_eq in E. subst x. now apply O.
Qed.

Lemma ensureLedger_posted (name : string) (o : Obj Balance.t) :
  posted o (ensureLedger name o) 0.
Proof.
  unfold ensureLedger.
  destruct (truthyStr name); simpl; [| apply posted_refl].
  destruct (has name o) eqn:H; simpl; [apply posted_refl |].
  destruct (inherited name); simpl; [apply posted_refl |].
  split.
  - unfold has in H. destruct (get name o) eqn:G; [discriminate |].
    rewrite (netSum_set_none _ _ _ G). unfold net; simpl. lra.
  - intros k Hk. rewrite has_set, Hk. apply orb_true_r.
Qed.

Lemma ensureLedger_has (name : string) (o : Obj Balance.t)
  (T : truthyStr name = true) (I : inherited name = false) :
  has name (ensureLedger name o) = true.
Proof.
  unfold ensureLedger. rewrite T, I; simpl.
  destruct (has name o) eqn:H; simpl; [exact H |].
  rewrite has_set, String.eqb_refl. reflexivity.
Qed.


Lemma addDebit_posted (name : string) (x : number) (o : Obj Balance.t)
  (H : has name o = true) : exists o', addDebit name x o = Ok o' /\ posted o o' x.
Proof.
  revert H. unfold has, addDebit. destruct (get name o) as [b |] eqn:G; [| discriminate].
  intros _. eexists; split; [reflexivity |]. split.
  - rewrite (netSum_set_some _ _ _ _ G). unfold net; simpl. lra.
  - intros k Hk. rewrite has_set. fold (has k o). rewrite Hk. apply orb_true_r.
Qed.


Lemma addCredit_posted (name : string) (x : number) (o : Obj Balance.t)
  (H : has name o = true) : exists o', addCredit name x o = Ok o' /\ posted o o' (- x).
Proof.
  revert H. unfold has, addCredit. destruct (get name o) as [b |] eqn:G; [| discriminate].
  intros _. eexists; split; [reflexivity |]. split.
  - rewrite (netSum_set_some _ _ _ _ G). unfold net; simpl. lra.
  - intros k Hk. rewrite has_set. fold (has k o). rewrite Hk. apply orb_true_r.
Qed.


Lemma ensureLedger_keeps (name k : string) (o : Obj Balance.t) :
  has k o = true -> has k (ensureLedger name o) = true.
Proof. intros H. now apply (ensureLedger_posted name o). Qed.

Lemma ensureTaxLedgers_posted (o : Obj Balance.t) :
  posted o (ensureTaxLedgers o) 0 /\
  has "IGST" (ensureTaxLedgers o) = true /\
  has "CGST" (ensureTaxLedgers o) = true /\
  has "SGST" (ensureTaxLedgers o) = true.
Proof.
  unfold ensureTaxLedgers. split.
  - eapply posted_eq; [| eapply posted_trans; [apply ensureLedger_posted |
      eapply posted_trans; apply ensureLedger_posted]]. lra.
  - repeat split.
    + do 2 apply ensureLedger_keeps. now apply ensureLedger_has.
    + apply ensureLedger_keeps. now apply ensureLedger_has.
    + now apply ensureLedger_has.
Qed.

Lemma postEntry_posted (e : JournalEntry.t) (o : Obj Balance.t) :
  ownName (JournalEntry.ledger e) ->
  exists o', postEntry e o = Ok o' /\ posted o o' (entryImbalance e).
Proof.
  intros O. apply inherited_false in O.
  unfold postEntry, entryImbalance.
  destruct (truthyStr (JournalEntry.ledger e)) eqn:T.
  - pose proof (ensureLedger_has _ o T O) as H0.
    pose proof (ensureLedger_posted (JournalEntry.ledger e) o) as P0.
    destruct (addDebit_posted _ (JournalEntry.debit e) _ H0) as (o1 & E1 & P1).
    rewrite E1; cbn [bindExn].
    assert (H1 : has (JournalEntry.ledger e) o1 = true) by now apply P1.
    destruct (addCredit_posted _ (JournalEntry.credit e) _ H1) as (o2 & E2 & P2).
    exists o2. split; [exact E2 |].
    eapply posted_eq; [| exact (posted_trans P0 (posted_trans P1 P2))]. lra.
  - eexists; split; [reflexivity |]. apply ensureLedger_posted.
Qed.

Lemma postEntries_posted (es : list JournalEntry.t) (o : Obj Balance.t) :
  Forall ownName (List.map JournalEntry.ledger es) ->
  exists o', forEachExn postEntry es o = Ok o' /\
             posted o o' (Qsum (List.map entryImbalance es)).
Proof.
  revert o. induction es as [| e r IH]; intros o F; simpl.
  - eexists; split; [reflexivity | apply posted_refl].
  - simpl in F. inversion F as [| ? ? Oe Or]; subst.
    destruct (postEntry_posted e o Oe) as (o1 & E1 & P1). rewrite E1; cbn [bindExn].
    destruct (IH o1 Or) as (o2 & E2 & P2). exists o2. split; [exact E2 |].
    exact (posted_trans P1 P2).
Qed.

(** Posting a voucher whose ledger names are given, and are names of
    no inherited member, succeeds, and moves the net of all ledgers by
    the voucher's imbalance. *)
Lemma post_posted (v : Voucher) (o : Obj Balance.t) (N : namesGiven v)
  (O : ownLedgers v) :
  exists o', post v o = Ok o' /\ posted o o' (imbalance v).
Proof.
  revert N O. unfold ownLedgers. destruct v as [v | v | v | v]; simpl.
  - (* Purchase, Sales *)
    intros T O. inversion O as [| ? ? Op _]; subst. apply inherited_false in Op.
    set (oa := ensureLedger (SalesPurchaseVoucher.party v) o).
    assert (Pa : posted o oa 0) by apply ensureLedger_posted.
    assert (Ha : has (SalesPurchaseVoucher.party v) oa = true)
      by now apply ensureLedger_has.
    destruct (SalesPurchaseVoucher.type v).
    + set (ob := ensureLedger "Purchases" oa).
      assert (Pb : posted oa ob 0) by apply ensureLedger_posted.
      assert (Hb : has "Purchases" ob = true) by now apply ensureLedger_has.
      destruct (ensureTaxLedgers_posted ob) as (Pc & Hi & Hc & Hs).
      set (oc := ensureTaxLedgers ob) in *.
      assert (H0 : has (SalesPurchaseVoucher.party v) oc = true)
        by (apply Pc, Pb, Ha).
      destruct (addCredit_posted _ (SalesPurchaseVoucher.total v) _ H0) as (o1 & E1 & P1).
      rewrite E1; cbn [bindExn].
      assert (H1 : has "Purchases" o1 = true) by (apply P1, Pc, Hb).
      destruct (addDebit_posted _ (SalesPurchaseVoucher.totalTaxableAmount v) _ H1)
        as (o2 & E2 & P2).
      rewrite E2; cbn [bindExn].
      pose proof (posted_trans Pa (posted_trans Pb (posted_trans Pc
                    (posted_trans P1 P2)))) as P02.
      destruct (SalesPurchaseVoucher.isInterState v).
      * assert (H2 : has "IGST" o2 = true) by (apply P2, P1, Hi).
        destruct (addDebit_posted _ (SalesPurchaseVoucher.totalIgst v) _ H2)
          as (o3 & E3 & P3).
        exists o3. split; [exact E3 |].
        eapply posted_eq; [| exact (posted_trans P02 P3)]. lra.
      * assert (H2 : has "CGST" o2 = true) by (apply P2, P1, Hc).
        destruct (addDebit_posted _ (SalesPurchaseVoucher.totalCgst v) _ H2)
          as (o3 & E3 & P3).
        rewrite E3; cbn [bindExn].
        assert (H3 : has "SGST" o3 = true) by (apply P3, P2, P1, Hs).
        destruct (addDebit_posted _ (SalesPurchaseVoucher.totalSgst v) _ H3)
          as (o4 & E4 & P4).
        exists o4. split; [exact E4 |].
        eapply posted_eq; [| exact (posted_trans P02 (posted_trans P3 P4))]. lra.
    + set (ob := ensureLedger "Sales" oa).
      assert (Pb : posted oa ob 0) by apply ensureLedger_posted.
      assert (Hb : has "Sales" ob = true) by now apply ensureLedger_has.
      destruct (ensureTaxLedgers_posted ob) as (Pc & Hi & Hc & Hs).
      set (oc := ensureTaxLedgers ob) in *.
      assert (H0 : has (SalesPurchaseVoucher.party v) oc = true)
        by (apply Pc, Pb, Ha).
      destruct (addDebit_posted _ (SalesPurchaseVoucher.total v) _ H0) as (o1 & E1 & P1).
      rewrite E1; cbn [bindExn].
      assert (H1 : has "Sales" o1 = true) by (apply P1, Pc, Hb).
      destruct (addCredit_posted _ (SalesPurchaseVoucher.totalTaxableAmount v) _ H1)
        as (o2 & E2 & P2).
      rewrite E2; cbn [bindExn].
      pose proof (posted_trans Pa (posted_trans Pb (posted_trans Pc
                    (posted_trans P1 P2)))) as P02.
      destruct (SalesPurchaseVoucher.isInterState v).
      * assert (H2 : has "IGST" o2 = true) by (apply P2, P1, Hi).
        destruct (addCredit_posted _ (SalesPurchaseVoucher.totalIgst v) _ H2)
          as (o3 & E3 & P3).
        exists o3. split; [exact E3 |].
        eapply posted_eq; [| exact (posted_trans P02 P3)]. lra.
      * assert (H2 : has "CGST" o2 = true) by (apply P2, P1, Hc).
        destruct (addCredit_posted _ (SalesPurchaseVoucher.totalCgst v) _ H2)
          as (o3 & E3 & P3).
        rewrite E3; cbn [bindExn].
        assert (H3 : has "SGST" o3 = true) by (apply P3, P2, P1, Hs).
        destruct (addCredit_posted _ (SalesPurchaseVoucher.totalSgst v) _ H3)
          as (o4 & E4 & P4).
        exists o4. split; [exact E4 |].
        eapply posted_eq; [| exact (posted_trans P02 (posted_trans P3 P4))]. lra.
  - (* Payment, Receipt *)
    intros [Tp Ta] O. inversion O as [| ? ? Op O']; subst.
    inversion O' as [| ? ? Oa _]; subst.
    apply inherited_false in Op. apply inherited_false in Oa.
    set (oa := ensureLedger (PaymentReceiptVoucher.party v) o).
    assert (Pa : posted o oa 0) by apply ensureLedger_posted.
    assert (Ha : has (PaymentReceiptVoucher.party v) oa = true)
      by now apply ensureLedger_has.
    set (ob := ensureLedger (PaymentReceiptVoucher.account v) oa).
    assert (Pb : posted oa ob 0) by apply ensureLedger_posted.
    assert (Hb : has (PaymentReceiptVoucher.account v) ob = true)
      by now apply ensureLedger_has.
    assert (H0 : has (PaymentReceiptVoucher.party v) ob = true) by (apply Pb, Ha).
    destruct (PaymentReceiptVoucher.type v).
    + destruct (addDebit_posted _ (PaymentReceiptVoucher.amount v) _ H0) as (o1 & E1 & P1).
      rewrite E1; cbn [bindExn].
      assert (H1 : has (PaymentReceiptVoucher.account v) o1 = true) by (apply P1, Hb).
      destruct (addCredit_posted _ (PaymentReceiptVoucher.amount v) _ H1) as (o2 & E2 & P2).
      exists o2. split; [exact E2 |].
      eapply posted_eq;
        [| exact (posted_trans Pa (posted_trans Pb (posted_trans P1 P2)))]. lra.
    + destruct (addCredit_posted _ (PaymentReceiptVoucher.amount v) _ H0) as (o1 & E1 & P1).
      rewrite E1; cbn [bindExn].
      assert (H1 : has (PaymentReceiptVoucher.account v) o1 = true) by (apply P1, Hb).
      destruct (addDebit_posted _ (PaymentReceiptVoucher.amount v) _ H1) as (o2 & E2 & P2).
      exists o2. split; [exact E2 |].
      eapply posted_eq;
        [| exact (posted_trans Pa (posted_trans Pb (posted_trans P1 P2)))]. lra.
  - (* Contra *)
    intros [Tf Tt] O. inversion O as [| ? ? Of O']; subst.
    inversion O' as [| ? ? Ot _]; subst.
    apply inherited_false in Of. apply inherited_false in Ot.
    set (oa := ensureLedger (ContraVoucher.fromAccount v) o).
    assert (Pa : posted o oa 0) by apply ensureLedger_posted.
    assert (Ha : has (ContraVoucher.fromAccount v) oa = true)
      by now apply ensureLedger_has.
    set (ob := ensureLedger (ContraVoucher.toAccount v) oa).
    assert (Pb : posted oa ob 0) by apply ensureLedger_posted.
    assert (Hb : has (ContraVoucher.toAccount v) ob = true)
      by now apply ensureLedger_has.
    assert (H0 : has (ContraVoucher.fromAccount v) ob = true) by (apply Pb, Ha).
    destruct (addCredit_posted _ (ContraVoucher.amount v) _ H0) as (o1 & E1 & P1).
    rewrite E1; cbn [bindExn].
    assert (H1 : has (ContraVoucher.toAccount v) o1 = true) by (apply P1, Hb).
    destruct (addDebit_posted _ (ContraVoucher.amount v) _ H1) as (o2 & E2 & P2).
    exists o2. split; [exact E2 |].
    eapply posted_eq;
      [| exact (posted_trans Pa (posted_trans Pb (posted_trans P1 P2)))]. lra.
  - (* Journal *)
    intros _ O. now apply postEntries_posted.
Qed.

Lemma forEach_post_posted (vs : list Voucher) (o : Obj Balance.t) :
  Forall namesGiven vs ->
  Forall ownLedgers vs ->
  exists o', forEachExn post vs o = Ok o' /\
             posted o o' (Qsum (List.map imbalance vs)).
Proof.
  intros F. revert o. induction F as [| v r Hv Hr IH]; intros o G; simpl.
  - eexists; split; [reflexivity | apply posted_refl].
  - inversion G as [| ? ? Ov Or]; subst.
    destruct (post_posted v o Hv Ov) as (o1 & E1 & P1). rewrite E1; cbn [bindExn].
    destruct (IH o1 Or) as (o2 & E2 & P2). exists o2. split; [exact E2 |].
    exact (posted_trans P1 P2).
Qed.

(** ** From the balances to the emitted rows *)

Lemma netRow_net (e : string * Balance.t) : rowNet (netRow e) == net (snd e).
Proof.
  destruct e as [k b]. unfold netRow, rowNet, net; simpl.
  destruct (gtb (Balance.debit b) (Balance.credit b)) eqn:G1; simpl; [lra |].
  destruct (gtb (Balance.credit b) (Balance.debit b)) eqn:G2; simpl; [lra |].
  apply gtb_false in G1, G2. lra.
Qed.

Lemma netRow_dropped (e : string * Balance.t) :
  emitted (netRow e) = false -> rowNet (netRow e) == 0.
Proof.
  destruct e as [k b]. unfold netRow, rowNet, emitted.
  destruct (gtb (Balance.debit b) (Balance.credit b)) eqn:G1;
    [| destruct (gtb (Balance.credit b) (Balance.debit b)) eqn:G2];
    cbn [TrialBalanceRow.debit TrialBalanceRow.credit]; intros H;
    apply orb_false_iff in H; destruct H as [D C];
    apply gtb_false in D, C.
  - apply gtb_true in G1. lra.
  - apply gtb_true in G2. lra.
  - lra.
Qed.

Lemma emitted_columns (o : Obj Balance.t) :
  debitColumn (filter emitted (List.map netRow o))
  - creditColumn (filter emitted (List.map netRow o)) == netSum o.
Proof.
  unfold debitColumn, creditColumn, netSum.
  induction o as [| e r IH]; simpl; [lra |].
  pose proof (netRow_net e) as N.
  destruct (emitted (netRow e)) eqn:E; simpl.
  - unfold rowNet in N. lra.
  - apply netRow_dropped in E. rewrite E in N. lra.
Qed.

Lemma fold_addRow (rows : list TrialBalanceRow.t) (acc : Balance.t) :
  Balance.debit (fold_left addRow rows acc) == Balance.debit acc + debitColumn rows /\
  Balance.credit (fold_left addRow rows acc) == Balance.credit acc + creditColumn rows.
Proof.
  unfold debitColumn, creditColumn. revert acc.
  induction rows as [| r rs IH]; intros acc; simpl; [split; lra |].
  destruct (IH (addRow acc r)) as [D C]. rewrite D, C. unfold addRow; simpl. split; lra.
Qed.

Lemma netSum_initial (ledgers : list Ledger.t) (o : Obj Balance.t) :
  netSum (fold_left (fun b l => ensureLedger (Ledger.name l) b) ledgers o) == netSum o.
Proof.
  revert o. induction ledgers as [| l r IH]; intros o; simpl; [lra |].
  rewrite IH. destruct (ensureLedger_posted (Ledger.name l) o) as [E _]. lra.
Qed.

(** The trial balance of any vouchers with named ledgers, none under
    the name of an inherited member, exists, and its two totals differ by
    the sum of the vouchers' imbalances. *)
Lemma trialBalance_totals (vouchers : list Voucher) (ledgers : list Ledger.t) :
  Forall namesGiven vouchers ->
  Forall ownLedgers vouchers ->
  exists tb,
    trialBalanceData vouchers ledgers TrialBalance = Ok (Some tb) /\
    Balance.debit (TrialBalance.totals tb) == debitColumn (TrialBalance.result tb) /\
    Balance.credit (TrialBalance.totals tb) == creditColumn (TrialBalance.result tb) /\
    debitColumn (TrialBalance.result tb) - creditColumn (TrialBalance.result tb)
      == Qsum (List.map imbalance vouchers).
Proof.
  intros F G. unfold trialBalanceData; simpl.
  set (o0 := fold_left (fun b l => ensureLedger (Ledger.name l) b) ledgers []).
  destruct (forEach_post_posted vouchers o0 F G) as (o1 & E & [P _]).
  rewrite E; cbn [bindExn].
  eexists; split; [reflexivity |]. cbn [TrialBalance.totals TrialBalance.result].
  destruct (fold_addRow (filter emitted (List.map netRow o1)) (Balance.mk 0 0)) as [D C].
  simpl in D, C. repeat split; [lra | lra |].
  rewrite emitted_columns, P. unfold o0. rewrite netSum_initial.
  unfold netSum; simpl. lra.
Qed.

End TrialBalanceFacts.

Section TrialBalanceClaims.
Import Spec ReportsPage.

Lemma netRow_shape (e : string * Balance.t) :
  emitted (netRow e) = true ->
  (0 < TrialBalanceRow.debit (netRow e) /\ TrialBalanceRow.credit (netRow e) == 0 /\
   TrialBalanceRow.debit (netRow e) == Balance.debit (snd e) - Balance.credit (snd e)) \/
  (0 < TrialBalanceRow.credit (netRow e) /\ TrialBalanceRow.debit (netRow e) == 0 /\
   TrialBalanceRow.credit (netRow e) == Balance.credit (snd e) - Balance.debit (snd e)).
Proof.
  destruct e as [k b]. unfold netRow, emitted.
  destruct (gtb (Balance.debit b) (Balance.credit b)) eqn:G1;
    [| destruct (gtb (Balance.credit b) (Balance.debit b)) eqn:G2];
    cbn [TrialBalanceRow.debit TrialBalanceRow.credit snd]; intros H.
  - apply gtb_true in G1. left. repeat split; lra.
  - apply gtb_true in G2. right. repeat split; lra.
  - apply orb_true_iff in H. destruct H as [H | H]; apply gtb_true in H; lra.
Qed.

(** Every emitted row carries the net of its ledger on one side only. *)
Lemma trial_balance_rows_one_sided (vouchers : list Voucher) (ledgers : list Ledger.t)
  (tb : TrialBalance.t) :
  trialBalanceData vouchers ledgers TrialBalance = Ok (Some tb) ->
  Forall (fun r => (0 < TrialBalanceRow.debit r /\ TrialBalanceRow.credit r == 0) \/
                   (0 < TrialBalanceRow.credit r /\ TrialBalanceRow.debit r == 0))
    (TrialBalance.result tb).
Proof.
  unfold trialBalanceData; simpl.
  destruct (forEachExn post vouchers _) as [o |]; cbn [bindExn]; [| discriminate].
  intros H. injection H as <-. cbn [TrialBalance.result].
  apply Forall_forall. intros r Hr. apply filter_In in Hr. destruct Hr as [Hin He].
  apply in_map_iff in Hin. destruct Hin as (e & <- & _).
  destruct (netRow_shape e He) as [(A & B & _) | (A & B & _)]; auto.
Qed.

(** C1, as stated, fails: a Journal voucher with the single entry
    (Cash, debit 100, credit 0) gives a trial balance whose debit total is
    100 and whose credit total is 0. *)
Lemma trial_balance_open_for_one_sided_journal :
  exists tb,
    trialBalanceData [Sample.oneSidedJournal] [] TrialBalance = Ok (Some tb) /\
    Balance.debit (TrialBalance.totals tb) == 100 /\
    Balance.credit (TrialBalance.totals tb) == 0 /\
    ~ debitColumn (TrialBalance.result tb) == creditColumn (TrialBalance.result tb) /\
    ~ Balance.debit (TrialBalance.totals tb) == Balance.credit (TrialBalance.totals tb).
Proof.
  eexists. split; [vm_compute; reflexivity |].
  repeat split; try (vm_compute; reflexivity); vm_compute; discriminate.
Qed.

(** C1 (amended): for any voucher set in which every voucher names the
    ledgers it posts to, with names that are not members of
    [Object.prototype], and is balanced (a Purchase or Sales total is the
    taxable amount plus the tax of the voucher's own regime, a Journal's
    named entries debit as much as they credit), and whose amounts are
    whole numbers with magnitudes adding up to at most 2^53, so that
    binary64 adds them without rounding, [trialBalanceData] returns a
    trial balance; every emitted row carries a positive net on one side
    and 0 on the other; the totals are the sums of the emitted debit and
    credit columns; and the two sums are equal. *)
Theorem trial_balance_closure (vouchers : list Voucher) (ledgers : list Ledger.t) :
  Forall namesGiven vouchers ->
  Forall ownLedgers vouchers ->
  exactlySummable (flat_map amountsOf vouchers) ->
  Forall balanced vouchers ->
  exists tb,
    trialBalanceData vouchers ledgers TrialBalance = Ok (Some tb) /\
    Forall (fun r => (0 < TrialBalanceRow.debit r /\ TrialBalanceRow.credit r == 0) \/
                     (0 < TrialBalanceRow.credit r /\ TrialBalanceRow.debit r == 0))
      (TrialBalance.result tb) /\
    Balance.debit (TrialBalance.totals tb) == debitColumn (TrialBalance.result tb) /\
    Balance.credit (TrialBalance.totals tb) == creditColumn (TrialBalance.result tb) /\
    debitColumn (TrialBalance.result tb) == creditColumn (TrialBalance.result tb) /\
    Balance.debit (TrialBalance.totals tb) == Balance.credit (TrialBalance.totals tb).
Proof.
  intros N O _ B.
  destruct (trialBalance_totals vouchers ledgers N O) as (tb & E & D & C & S).
  assert (Z : Qsum (List.map imbalance vouchers) == 0).
  { clear - B. induction B as [| v r Hv Hr IH]; simpl; [lra |].
    unfold balanced in Hv. rewrite Hv, IH. lra. }
  exists tb. split; [exact E |].
  split; [exact (trial_balance_rows_one_sided vouchers ledgers tb E) |].
  repeat split; try assumption; lra.
Qed.

(** Scenario C of the specification: a purchase from X for 118
    (100 + 9 + 9) and its payment from Cash. *)
Lemma trial_balance_closure_scenario_C :
  exists tb,
    trialBalanceData [Sample.purchaseX; Sample.paymentX] [] TrialBalance = Ok (Some tb) /\
    debitColumn (TrialBalance.result tb) == creditColumn (TrialBalance.result tb) /\
    Balance.debit (TrialBalance.totals tb) == Balance.credit (TrialBalance.totals tb).
Proof.
  destruct (trial_balance_closure [Sample.purchaseX; Sample.paymentX] [])
    as (tb & E & _ & _ & _ & S & T).
  - repeat constructor.
  - repeat constructor; intros H; simpl in H; intuition discriminate.
  - split; [repeat constructor; vm_compute; reflexivity | vm_compute; discriminate].
  - repeat constructor; vm_compute; reflexivity.
  - exists tb. auto.
Defined.

(** A payment to a party whose name is that of an inherited member: the
    party gets no row, and the totals are 0 and 5. *)
Example trial_balance_open_for_inherited_name :
  exists tb,
    trialBalanceData [Sample.paymentToString] [] TrialBalance = Ok (Some tb) /\
    List.map TrialBalanceRow.ledger (TrialBalance.result tb) = ["Cash"] /\
    Balance.debit (TrialBalance.totals tb) == 0 /\
    Balance.credit (TrialBalance.totals tb) == 5.
Proof.
  eexists. split; [vm_compute; reflexivity |].
  repeat split; vm_compute; reflexivity.
Qed.

(** Scenario C of the specification: the totals are 118 and 118. *)
Example trial_balance_scenario_C_totals :
  exists tb,
    trialBalanceData [Sample.purchaseX; Sample.paymentX] [] TrialBalance = Ok (Some tb) /\
    List.map TrialBalanceRow.ledger (TrialBalance.result tb)
      = ["Purchases"; "CGST"; "SGST"; "Cash"] /\
    Balance.debit (TrialBalance.totals tb) == 118 /\
    Balance.credit (TrialBalance.totals tb) == 118.
Proof.
  eexists. split; [vm_compute; reflexivity |].
  repeat split; vm_compute; reflexivity.
Qed.

End TrialBalanceClaims.

(* ===================================================================== *)
(** * Saving the extracted invoices                                       *)
(* ===================================================================== *)

Lemma mapExn_ok_In {A B} (f : A -> Exn B) (l : list A) (bs : list B) :
  mapExn f l = Ok bs -> forall b, In b bs -> exists a, In a l /\ f a = Ok b.
Proof.
  revert bs. induction l as [| a r IH]; intros bs; simpl.
  - intros H. injection H as <-. intros b [].
  - destruct (f a) as [b0 |] eqn:Fa; cbn [bindExn]; [| discriminate].
    destruct (mapExn f r) as [bs0 |]; cbn [bindExn]; [| discriminate].
    intros H. injection H as <-. intros b [-> | Hb].
    + exists a. auto.
    + destruct (IH bs0 eq_refl b Hb) as (a' & Ha & E). exists a'. auto.
Qed.

Lemma mapExn_ok_length {A B} (f : A -> Exn B) (l : list A) (bs : list B) :
  mapExn f l = Ok bs -> List.length bs = List.length l.
Proof.
  revert bs. induction l as [| a r IH]; intros bs; simpl.
  - intros H. now injection H as <-.
  - destruct (f a) as [b0 |]; cbn [bindExn]; [| discriminate].
    destruct (mapExn f r) as [bs0 |]; cbn [bindExn]; [| discriminate].
    intros H. injection H as <-. simpl. now rewrite (IH bs0 eq_refl).
Qed.

Lemma mapExn_total {A B} (f : A -> Exn B) (l : list A) :
  (forall a, In a l -> exists b, f a = Ok b) -> exists bs, mapExn f l = Ok bs.
Proof.
  induction l as [| a r IH]; intros H; simpl.
  - now exists [].
  - destruct (H a (or_introl eq_refl)) as (b & ->). cbn [bindExn].
    destruct IH as (bs & ->); [intros a' Ha'; apply H; now right |].
    cbn [bindExn]. now eexists.
Qed.

(** When the callback can only throw [e], and throws on some element,
    the map throws [e]. *)
Lemma mapExn_throws {A B} (f : A -> Exn B) (e : Thrown) (l : list A) :
  (forall a e', In a l -> f a = Throw e' -> e' = e) ->
  (exists a, In a l /\ f a = Throw e) ->
  mapExn f l = Throw e.
Proof.
  induction l as [| a r IH]; intros Only (a0 & Hin & Ha0); [destruct Hin |].
  simpl. destruct (f a) as [b |] eqn:Fa; cbn [bindExn].
  - destruct Hin as [-> | Hin]; [congruence |].
    rewrite IH; [reflexivity | | exists a0; auto].
    intros a' e' Ha'. apply Only. now right.
  - f_equal. apply (Only a); [now left | exact Fa].
Qed.

Lemma half_zero (x : Q) : x / 2 == 0 -> x == 0.
Proof.
  intros H. assert (E : x == (x / 2) * 2) by field. rewrite E, H. reflexivity.
Qed.




Section SaveFacts.
Import Spec MassUploadModal.
Variable ledgers : list Ledger.t.
Variable stockItems : list StockItem.t.
Variable companyDetails : CompanyDetails.t.
Variable dateHost : DateHost.t.

Lemma toVoucher_ok (f : MassUploadFile.t) (data : ExtractedInvoiceData.t)
  (v : SalesPurchaseVoucher.t) :
  toVoucher ledgers stockItems companyDetails dateHost f data = Ok v ->
  SalesPurchaseVoucher.type v = Purchase /\
  SalesPurchaseVoucher.party v = ExtractedInvoiceData.sellerName data /\
  SalesPurchaseVoucher.isInterState v
    = interStateOf companyDetails
        (findPartyLedger ledgers (ExtractedInvoiceData.sellerName data)) /\
  SalesPurchaseVoucher.items v
    = List.map (toVoucherItem stockItems (SalesPurchaseVoucher.isInterState v))
        (orEmpty (ExtractedInvoiceData.lineItems data)) /\
  (let acc := fold_left addItem (SalesPurchaseVoucher.items v) (mkTotals 0 0 0 0 0) in
   SalesPurchaseVoucher.totalTaxableAmount v = totalTaxableAmount acc /\
   SalesPurchaseVoucher.totalCgst v = totalCgst acc /\
   SalesPurchaseVoucher.totalSgst v = totalSgst acc /\
   SalesPurchaseVoucher.totalIgst v = totalIgst acc /\
   SalesPurchaseVoucher.total v = grandTotal acc).
Proof.
  unfold toVoucher.
  destruct (voucherDate dateHost (ExtractedInvoiceData.invoiceDate data)) as [d |];
    cbn [bindExn]; [| discriminate].
  intros H. injection H as <-. simpl. repeat split; reflexivity.
Qed.

Lemma toVoucher_throw (f : MassUploadFile.t) (data : ExtractedInvoiceData.t) (e : Thrown) :
  toVoucher ledgers stockItems companyDetails dateHost f data = Throw e ->
  e = invalidTime /\
  DateHost.parse dateHost (ExtractedInvoiceData.invoiceDate data) = None.
Proof.
  unfold toVoucher, voucherDate.
  destruct (DateHost.parse dateHost (ExtractedInvoiceData.invoiceDate data));
    cbn [bindExn]; [discriminate |].
  intros H. injection H as <-. auto.
Qed.

Lemma toVoucher_invalid_date (f : MassUploadFile.t) (data : ExtractedInvoiceData.t) :
  DateHost.parse dateHost (ExtractedInvoiceData.invoiceDate data) = None ->
  toVoucher ledgers stockItems companyDetails dateHost f data = Throw invalidTime.
Proof.
  intros H. unfold toVoucher, voucherDate. now rewrite H.
Qed.

Lemma toVoucher_valid_date (f : MassUploadFile.t) (data : ExtractedInvoiceData.t) :
  DateHost.parse dateHost (ExtractedInvoiceData.invoiceDate data) <> None ->
  exists v, toVoucher ledgers stockItems companyDetails dateHost f data = Ok v.
Proof.
  intros H. unfold toVoucher, voucherDate.
  destruct (DateHost.parse dateHost (ExtractedInvoiceData.invoiceDate data));
    [| congruence].
  cbn [bindExn]. now eexists.
Qed.

(** Every voucher of a successful save comes from a file that was
    extracted successfully. *)
Lemma handleSave_origin (files : list MassUploadFile.t)
  (vs : list SalesPurchaseVoucher.t) (v : SalesPurchaseVoucher.t) :
  handleSave ledgers stockItems companyDetails dateHost files = Ok vs ->
  In v vs ->
  exists f data,
    In f files /\ MassUploadFile.status f = success /\
    MassUploadFile.extractedData f = Some data /\
    toVoucher ledgers stockItems companyDetails dateHost f data = Ok v.
Proof.
  unfold handleSave. intros H Hv.
  destruct (mapExn_ok_In _ _ _ H v Hv) as (f & Hf & E).
  apply filter_In in Hf. destruct Hf as [Hf S].
  destruct (MassUploadFile.extractedData f) as [data |] eqn:D; [| discriminate].
  exists f, data. repeat split; auto.
  unfold savable in S. apply andb_true_iff in S. destruct S as [S _].
  destruct (MassUploadFile.status f); try discriminate. reflexivity.
Qed.


Lemma fold_addItem (items : list VoucherItem.t) (acc : Totals) :
  let r := fold_left addItem items acc in
  totalTaxableAmount r == totalTaxableAmount acc
                          + Qsum (List.map VoucherItem.taxableAmount items) /\
  totalCgst r == totalCgst acc + Qsum (List.map VoucherItem.cgstAmount items) /\
  totalSgst r == totalSgst acc + Qsum (List.map VoucherItem.sgstAmount items) /\
  totalIgst r == totalIgst acc + Qsum (List.map VoucherItem.igstAmount items) /\
  grandTotal r == grandTotal acc + Qsum (List.map VoucherItem.totalAmount items).
Proof.
  revert acc. induction items as [| it r IH]; intros acc; simpl.
  - repeat split; lra.
  - destruct (IH (addItem acc it)) as (A & B & C & D & E).
    rewrite A, B, C, D, E. unfold addItem; simpl. repeat split; lra.
Qed.

(** C3 (amended): every item of every voucher produced by the save path
    has taxableAmount = qty * rate and, with
    tax = taxableAmount * (gstRate / 100) for the rate the save path
    resolves, carries igst = tax and cgst = sgst = 0 on an inter-state
    voucher, and cgst = sgst = tax / 2 and igst = 0 otherwise; the two
    halves are equal, the two tax groups are never both non-zero, and
    exactly one of them is non-zero if and only if the amount charged
    under the voucher's regime (tax when inter-state, tax / 2 otherwise)
    is non-zero. *)
Theorem save_tax_split (files : list MassUploadFile.t)
  (vs : list SalesPurchaseVoucher.t) (v : SalesPurchaseVoucher.t) (it : VoucherItem.t) :
  handleSave ledgers stockItems companyDetails dateHost files = Ok vs ->
  In v vs ->
  In it (SalesPurchaseVoucher.items v) ->
  let gstRate := gstRateOnSave stockItems (VoucherItem.name it) in
  let tax := VoucherItem.taxableAmount it * (gstRate / 100) in
  VoucherItem.taxableAmount it = VoucherItem.qty it * VoucherItem.rate it /\
  (if SalesPurchaseVoucher.isInterState v
   then VoucherItem.igstAmount it = tax /\
        VoucherItem.cgstAmount it = 0 /\ VoucherItem.sgstAmount it = 0
   else VoucherItem.cgstAmount it = tax / 2 /\
        VoucherItem.sgstAmount it = tax / 2 /\ VoucherItem.igstAmount it = 0) /\
  VoucherItem.cgstAmount it = VoucherItem.sgstAmount it /\
  ~ (centralStateTaxed it /\ integratedTaxed it) /\
  (exactlyOneTaxGroup it <->
   ~ (if SalesPurchaseVoucher.isInterState v then tax else tax / 2) == 0).
Proof.
  intros H Hv Hit.
  destruct (handleSave_origin _ _ _ H Hv) as (f & data & _ & _ & _ & E).
  apply toVoucher_ok in E. destruct E as (_ & _ & _ & Items & _).
  rewrite Items in Hit. apply in_map_iff in Hit. destruct Hit as (li & <- & _).
  unfold exactlyOneTaxGroup, centralStateTaxed, integratedTaxed, toVoucherItem.
  destruct (SalesPurchaseVoucher.isInterState v); cbn -[Qmult Qdiv Qeq].
  - repeat split; try reflexivity.
    + intros [[C | C] _]; apply C; reflexivity.
    + intros [[[C | C] _] | [_ I]]; [exfalso; apply C; reflexivity
                                    | exfalso; apply C; reflexivity | exact I].
    + intros T. right. split; [| exact T].
      intros [C | C]; apply C; reflexivity.
  - repeat split; try reflexivity.
    + intros [_ I]. apply I. reflexivity.
    + intros [[[C | C] _] | [_ I]]; [exact C | exact C | exfalso; apply I; reflexivity].
    + intros T. left. split; [left; exact T |].
      intros I. apply I. reflexivity.
Qed.

Lemma fold_addItem_running (items : list VoucherItem.t) (acc : Totals) :
  let r := fold_left addItem items acc in
  totalTaxableAmount r
  = fold_left Qplus (List.map VoucherItem.taxableAmount items) (totalTaxableAmount acc) /\
  totalCgst r = fold_left Qplus (List.map VoucherItem.cgstAmount items) (totalCgst acc) /\
  totalSgst r = fold_left Qplus (List.map VoucherItem.sgstAmount items) (totalSgst acc) /\
  totalIgst r = fold_left Qplus (List.map VoucherItem.igstAmount items) (totalIgst acc) /\
  grandTotal r = fold_left Qplus (List.map VoucherItem.totalAmount items) (grandTotal acc).
Proof.
  revert acc. induction items as [| it r IH]; intros acc; simpl.
  - repeat split; reflexivity.
  - destruct (IH (addItem acc it)) as (A & B & C & D & E).
    simpl in A, B, C, D, E. rewrite A, B, C, D, E. repeat split; reflexivity.
Qed.

Lemma fold_addItem_amounts (items : list VoucherItem.t) (acc : Totals) :
  let r := fold_left addItem items acc in
  mkAmounts (totalTaxableAmount r) (totalCgst r) (totalSgst r) (totalIgst r) (grandTotal r)
  = fold_left (addAmounts Qplus) (List.map amountsOfItem items)
      (mkAmounts (totalTaxableAmount acc) (totalCgst acc) (totalSgst acc)
         (totalIgst acc) (grandTotal acc)).
Proof.
  revert acc. induction items as [| it r IH]; intros acc; simpl; [reflexivity |].
  exact (IH (addItem acc it)).
Qed.

(** C4 (amended): every voucher produced by the save path is a Purchase
    voucher whose totalTaxableAmount, totalCgst, totalSgst, totalIgst and
    total are each the running sum, from 0 and in the order of the items,
    of the corresponding field of its items, the totalAmount of an item
    being its taxableAmount plus its tax; these are the expressions of
    [itemAmounts] and [sumAmounts] over the rationals.  That total is
    totalTaxableAmount + totalCgst + totalSgst + totalIgst is not part
    of it: in binary64 the two can differ in the last place. *)
Theorem save_voucher_totals (files : list MassUploadFile.t)
  (vs : list SalesPurchaseVoucher.t) (v : SalesPurchaseVoucher.t) :
  handleSave ledgers stockItems companyDetails dateHost files = Ok vs ->
  In v vs ->
  SalesPurchaseVoucher.type v = Purchase /\
  SalesPurchaseVoucher.totalTaxableAmount v
  = runningSum (List.map VoucherItem.taxableAmount (SalesPurchaseVoucher.items v)) /\
  SalesPurchaseVoucher.totalCgst v
  = runningSum (List.map VoucherItem.cgstAmount (SalesPurchaseVoucher.items v)) /\
  SalesPurchaseVoucher.totalSgst v
  = runningSum (List.map VoucherItem.sgstAmount (SalesPurchaseVoucher.items v)) /\
  SalesPurchaseVoucher.totalIgst v
  = runningSum (List.map VoucherItem.igstAmount (SalesPurchaseVoucher.items v)) /\
  SalesPurchaseVoucher.total v
  = runningSum (List.map VoucherItem.totalAmount (SalesPurchaseVoucher.items v)) /\
  Forall (fun it =>
            VoucherItem.totalAmount it
            = VoucherItem.taxableAmount it + taxOnSave stockItems it /\
            amountsOfItem it
            = itemAmounts Qplus Qmult Qdiv 0 2 100 (SalesPurchaseVoucher.isInterState v)
                (VoucherItem.qty it) (VoucherItem.rate it)
                (gstRateOnSave stockItems (VoucherItem.name it)))
    (SalesPurchaseVoucher.items v) /\
  amountsOfVoucher v
  = sumAmounts Qplus 0 (List.map amountsOfItem (SalesPurchaseVoucher.items v)).
Proof.
  intros H Hv.
  destruct (handleSave_origin _ _ _ H Hv) as (f & data & _ & _ & _ & E).
  apply toVoucher_ok in E. destruct E as (Ty & _ & _ & Items & Tt & Tc & Ts & Ti & Tg).
  destruct (fold_addItem_running (SalesPurchaseVoucher.items v) (mkTotals 0 0 0 0 0))
    as (A & B & C & D & G).
  pose proof (fold_addItem_amounts (SalesPurchaseVoucher.items v) (mkTotals 0 0 0 0 0)) as S.
  cbn zeta in A, B, C, D, G, S.
  rewrite <- Tt in A, S. rewrite <- Tc in B, S. rewrite <- Ts in C, S.
  rewrite <- Ti in D, S. rewrite <- Tg in G, S.
  split; [exact Ty |]. unfold runningSum.
  repeat (split; [assumption |]).
  split; [| exact S].
  rewrite Items. apply Forall_forall. intros it Hit.
  apply in_map_iff in Hit. destruct Hit as (li & <- & _).
  split; reflexivity.
Qed.

(** C2 fails on the code: when the invoice date of a successfully
    extracted file does not parse, [handleSave] throws the [RangeError]
    of [toISOString] instead of falling back to the current date. *)
Theorem save_throws_on_invalid_date (files : list MassUploadFile.t)
  (f : MassUploadFile.t) (data : ExtractedInvoiceData.t) :
  In f files ->
  MassUploadFile.status f = success ->
  MassUploadFile.extractedData f = Some data ->
  DateHost.parse dateHost (ExtractedInvoiceData.invoiceDate data) = None ->
  handleSave ledgers stockItems companyDetails dateHost files = Throw invalidTime.
Proof.
  intros Hin St Da Pa. unfold handleSave.
  assert (Sv : savable f = true) by (unfold savable; now rewrite St, Da).
  apply mapExn_throws.
  - intros a e' Ha. apply filter_In in Ha. destruct Ha as [_ Sa].
    unfold savable in Sa. apply andb_true_iff in Sa. destruct Sa as [_ Sa].
    destruct (MassUploadFile.extractedData a) as [d |]; [| discriminate].
    intros T. apply toVoucher_throw in T. tauto.
  - exists f. split; [apply filter_In; auto |].
    rewrite Da. now apply toVoucher_invalid_date.
Qed.

(** Apart from the date, nothing in the save path throws: when every
    saved file's date parses, [handleSave] returns one voucher per
    successfully extracted file. *)
Lemma save_total_on_valid_dates (files : list MassUploadFile.t) :
  (forall f data, In f files -> MassUploadFile.status f = success ->
                  MassUploadFile.extractedData f = Some data ->
                  DateHost.parse dateHost (ExtractedInvoiceData.invoiceDate data) <> None) ->
  exists vs,
    handleSave ledgers stockItems companyDetails dateHost files = Ok vs /\
    List.length vs = List.length (filter (savable) files).
Proof.
  intros V. unfold handleSave.
  match goal with |- exists vs, mapExn ?f ?l = _ /\ _ =>
    destruct (mapExn_total f l) as (vs & E) end.
  - intros a Ha. apply filter_In in Ha. destruct Ha as [Ha Sa].
    unfold savable in Sa. apply andb_true_iff in Sa. destruct Sa as [St Sa].
    destruct (MassUploadFile.extractedData a) as [d |] eqn:Da; [| discriminate].
    apply toVoucher_valid_date. apply (V a d); auto.
    destruct (MassUploadFile.status a); try discriminate. reflexivity.
  - exists vs. split; [exact E |]. now apply mapExn_ok_length in E.
Qed.

(** ** The GST rate of a line item *)

Lemma findStockItem_spec (d : string) (si : StockItem.t) :
  findStockItem stockItems d = Some si ->
  In si stockItems /\ toLowerCase (StockItem.name si) = toLowerCase d.
Proof.
  unfold findStockItem. intros H. apply find_some in H.
  destruct H as [Hin E]. apply String.eqb_eq in E. auto.
Qed.

Lemma gstRate_unmatched (d : string) :
  findStockItem stockItems d = None ->
  gstRateOnSave stockItems d = 18 /\ gstRateOnEdit stockItems d = 0.
Proof.
  unfold gstRateOnSave, gstRateOnEdit. intros ->. simpl. auto.
Qed.

Lemma gstRate_matched_nonzero (d : string) (si : StockItem.t) :
  findStockItem stockItems d = Some si ->
  ~ StockItem.gstRate si == 0 ->
  gstRateOnSave stockItems d = StockItem.gstRate si /\
  gstRateOnEdit stockItems d = StockItem.gstRate si.
Proof.
  unfold gstRateOnSave, gstRateOnEdit. intros -> N. simpl.
  apply truthyNum_true in N. rewrite N. auto.
Qed.

(** A matched stock item whose recorded rate is 0 is given the fallback
    18 by the save path, and keeps 0 on the edit path. *)
Lemma gstRate_matched_zero (d : string) (si : StockItem.t) :
  findStockItem stockItems d = Some si ->
  StockItem.gstRate si == 0 ->
  gstRateOnSave stockItems d = 18 /\ gstRateOnEdit stockItems d = 0.
Proof.
  unfold gstRateOnSave, gstRateOnEdit. intros -> Z. simpl.
  destruct (truthyNum (StockItem.gstRate si)) eqn:T; [| auto].
  apply truthyNum_true in T. contradiction.
Qed.

End SaveFacts.

Section SaveExamples.
Import Spec MassUploadModal Sample.

(** Scenario A of the specification, saved as a purchase: two widgets at
    100, 18 per cent, intra-state. *)
Lemma save_tax_split_scenario_A :
  exists v it,
    handleSave [acme] [widget] company isoDates [fileA] = Ok [v] /\
    SalesPurchaseVoucher.items v = [it] /\
    VoucherItem.taxableAmount it == 200 /\
    VoucherItem.cgstAmount it == 18 /\ VoucherItem.sgstAmount it == 18 /\
    VoucherItem.igstAmount it == 0 /\ VoucherItem.totalAmount it == 236 /\
    exactlyOneTaxGroup it.
Proof.
  eexists. eexists. split; [vm_compute; reflexivity |].
  split; [reflexivity |].
  repeat split; try (vm_compute; reflexivity).
  eapply (@save_tax_split [acme] [widget] company isoDates [fileA]).
  - vm_compute. reflexivity.
  - left. reflexivity.
  - left. reflexivity.
  - vm_compute. discriminate.
Defined.

(** C3, as stated, fails: a line whose quantity is 0 gives an item with
    a positive GST rate and a positive unit rate and no tax in either
    group. *)
Lemma save_zero_quantity_item_untaxed :
  exists v it,
    handleSave [acme] [widget] company isoDates [fileZeroQty] = Ok [v] /\
    SalesPurchaseVoucher.items v = [it] /\
    0 < gstRateOnSave [widget] (VoucherItem.name it) /\
    0 < VoucherItem.rate it /\
    ~ exactlyOneTaxGroup it.
Proof.
  eexists. eexists. split; [vm_compute; reflexivity |].
  split; [reflexivity |].
  split; [vm_compute; reflexivity |].
  split; [vm_compute; reflexivity |].
  intros [[[C | C] _] | [_ I]]; [apply C | apply C | apply I]; vm_compute; reflexivity.
Qed.

(** The voucher of Scenario A: its total is the total of its one item. *)
Lemma save_voucher_totals_scenario_A :
  exists v it,
    handleSave [acme] [widget] company isoDates [fileA] = Ok [v] /\
    SalesPurchaseVoucher.items v = [it] /\
    SalesPurchaseVoucher.total v = 0 + VoucherItem.totalAmount it /\
    SalesPurchaseVoucher.total v == 236.
Proof.
  eexists. eexists. split; [vm_compute; reflexivity |].
  split; [reflexivity |]. split.
  - eapply (@save_voucher_totals [acme] [widget] company isoDates [fileA]).
    + vm_compute. reflexivity.
    + left. reflexivity.
  - vm_compute. reflexivity.
Defined.

(** C4, as stated, fails: for the single line 1 x 1 at 18 per cent,
    intra-state, the numbers that the save path computes in binary64 are
    total = 1.18 and
    totalTaxableAmount + totalCgst + totalSgst + totalIgst
    = 1.1800000000000002. *)
Lemma save_total_open_in_binary64 :
  let saved := Binary64.sumAmounts [Binary64.itemAmounts false 1%float 1%float 18%float] in
  totalPart saved = 0x1.2e147ae147ae1p+0%float /\
  Binary64.partsTotal saved = 0x1.2e147ae147ae2p+0%float /\
  Binary64.strictEquals (totalPart saved) (Binary64.partsTotal saved) = false.
Proof. vm_compute. repeat split; reflexivity. Qed.

(** A batch of two invoices, the second with the empty string for its
    date: nothing is saved. *)
Lemma save_throws_on_empty_date :
  handleSave [acme] [widget] company isoDates [fileA; fileNoDate] = Throw invalidTime.
Proof.
  apply (@save_throws_on_invalid_date [acme] [widget] company isoDates
           [fileA; fileNoDate] fileNoDate (extracted "" [twoWidgets])).
  - right. left. reflexivity.
  - reflexivity.
  - reflexivity.
  - reflexivity.
Defined.

(** C5 fails on the code: a line item matched, case-insensitively, to a
    stock item whose recorded rate is 0 is saved at the fallback rate 18
    (tax 18 on a taxable amount of 100), while the edit path keeps 0. *)
Theorem save_taxes_zero_rated_item_at_18 :
  findStockItem [rice] "rice" = Some rice /\
  StockItem.gstRate rice == 0 /\
  gstRateOnSave [rice] "rice" == 18 /\
  gstRateOnEdit [rice] "rice" == 0 /\
  exists v,
    handleSave [acme] [rice] company isoDates [fileRice] = Ok [v] /\
    SalesPurchaseVoucher.totalTaxableAmount v == 100 /\
    SalesPurchaseVoucher.totalCgst v == 9 /\
    SalesPurchaseVoucher.totalSgst v == 9 /\
    SalesPurchaseVoucher.total v == 118.
Proof.
  repeat split; try (vm_compute; reflexivity).
  eexists. split; [vm_compute; reflexivity |].
  repeat split; vm_compute; reflexivity.
Qed.

End SaveExamples.

(* ===================================================================== *)
(** * GSTR-1                                                              *)
(* ===================================================================== *)

Section Gstr1Facts.
Import Spec ReportsPage.

Lemma find_last {A} (p : A -> bool) (l : list A) (a : A) :
  find p (l ++ [a])
  = match find p l with Some x => Some x | None => if p a then Some a else None end.
Proof.
  induction l as [| x r IH]; simpl; [reflexivity |].
  destruct (p x); [reflexivity | exact IH].
Qed.

Lemma get_ledgersByName_from (ledgers : list Ledger.t) (o : Obj Ledger.t) (k : string) :
  get k (fold_left (fun acc ledger => set (Ledger.name ledger) ledger acc) ledgers o)
  = match ledgerNamed ledgers k with Some l => Some l | None => get k o end.
Proof.
  unfold ledgerNamed. revert o. induction ledgers as [| l r IH]; intros o; simpl.
  - reflexivity.
  - rewrite IH, find_last.
    destruct (find _ (rev r)); [reflexivity |].
    destruct (String.eqb (Ledger.name l) k) eqn:E.
    + apply String.eqb_eq in E. subst k. apply get_set_same.
    + apply String.eqb_neq in E. apply get_set_other. congruence.
Qed.

Lemma get_ledgersByName (ledgers : list Ledger.t) (k : string) :
  get k (ledgersByName ledgers) = ledgerNamed ledgers k.
Proof.
  unfold ledgersByName. rewrite get_ledgersByName_from.
  destruct (ledgerNamed ledgers k); reflexivity.
Qed.

Lemma truthyStr_true (s : string) : truthyStr s = true <-> s <> "".
Proof. destruct s; simpl; split; congruence. Qed.

Lemma isB2b_exact (ledgers : list Ledger.t) (v : SalesPurchaseVoucher.t) :
  isB2b ledgers v = true <-> b2bExact ledgers v.
Proof.
  unfold isB2b, b2bExact, registeredWithGstin. rewrite get_ledgersByName.
  destruct (ledgerNamed ledgers (SalesPurchaseVoucher.party v)) as [l |].
  - rewrite andb_true_iff, String.eqb_eq. split.
    + intros [R G]. exists l. repeat split; auto.
      destruct (Ledger.gstin l) as [g |]; simpl in G; [| discriminate].
      exists g. split; [reflexivity | now apply truthyStr_true].
    + intros (l' & E & R & g & G & N). injection E as <-.
      split; [exact R |]. rewrite G. simpl. now apply truthyStr_true.
  - split; [discriminate |]. intros (l & E & _). discriminate.
Qed.

Lemma isB2c_negb (ledgers : list Ledger.t) (v : SalesPurchaseVoucher.t) :
  isB2c ledgers v = negb (isB2b ledgers v).
Proof.
  unfold isB2c, isB2b.
  destruct (get (SalesPurchaseVoucher.party v) (ledgersByName ledgers)); [| reflexivity].
  now rewrite negb_andb.
Qed.

Lemma salesOf_In (vouchers : list Voucher) (v : SalesPurchaseVoucher.t) :
  In v (salesOf vouchers) <-> isSale vouchers v.
Proof.
  unfold isSale. induction vouchers as [| x r IH]; simpl; [tauto |].
  destruct x as [w | w | w | w];
    try (rewrite IH; split; [intros [A B]; auto | intros [[A | A] B]; [discriminate | auto]]).
  destruct (SalesPurchaseVoucher.type w) eqn:T; simpl; rewrite IH.
  - split; [intros [A B]; auto |].
    intros [[A | A] B]; [injection A as ->; congruence | auto].
  - split.
    + intros [-> | [A B]]; auto.
    + intros [[A | A] B]; [injection A as ->; auto | auto].
Qed.

Lemma filter_partition {A} (p q : A -> bool) (l : list A) :
  (forall a, q a = negb (p a)) -> Permutation (filter p l ++ filter q l) l.
Proof.
  intros N. induction l as [| a r IH]; simpl; [constructor |].
  rewrite N. destruct (p a); simpl.
  - now constructor.
  - apply Permutation_sym, Permutation_cons_app, Permutation_sym, IH.
Qed.

(** C6, as stated, fails: the ledger "Acme" is Registered with a GSTIN,
    the sale names its party "acme"; the party ledger exists under
    case-insensitive matching, yet the sale is classified b2c. *)
Lemma gstr1_lower_case_party_is_b2c :
  b2bCaseInsensitive [Sample.acme] Sample.saleToLowerAcme /\
  gstr1Data [VSalesPurchase Sample.saleToLowerAcme] [Sample.acme] GSTR1
  = Some (Gstr1.mk [] [Sample.saleToLowerAcme]).
Proof.
  split; [| reflexivity].
  exists Sample.acme. split; [now left |]. split; [reflexivity |].
  split; [reflexivity |]. eexists. split; [reflexivity | discriminate].
Qed.

(** C6 (amended): a sales voucher is classified b2b if and only if its
    party is exactly (case-sensitively) the name of a ledger of the master
    list and the last ledger of that name has registrationType
    "Registered" and a non-empty gstin; every other sales voucher is
    classified b2c. *)
Theorem gstr1_b2b_membership (vouchers : list Voucher) (ledgers : list Ledger.t) :
  exists g,
    gstr1Data vouchers ledgers GSTR1 = Some g /\
    forall v,
      (In v (Gstr1.b2b g) <-> isSale vouchers v /\ b2bExact ledgers v) /\
      (In v (Gstr1.b2c g) <-> isSale vouchers v /\ ~ b2bExact ledgers v).
Proof.
  eexists. split; [reflexivity |]. intros v. cbn [Gstr1.b2b Gstr1.b2c].
  rewrite !filter_In, salesOf_In, isB2c_negb, negb_true_iff, <- isB2b_exact.
  split; [tauto |].
  destruct (isB2b ledgers v); split; intros [A B]; split; auto; congruence.
Qed.

(** C7: the b2b and b2c buckets of [gstr1Data] partition the Sales
    vouchers: together they are a rearrangement of the Sales vouchers,
    their sizes add up to the number of Sales vouchers, every Sales
    voucher is in exactly one bucket, and a bucket holds Sales vouchers of
    the list only. *)
Theorem gstr1_partition (vouchers : list Voucher) (ledgers : list Ledger.t) :
  exists g,
    gstr1Data vouchers ledgers GSTR1 = Some g /\
    Permutation (Gstr1.b2b g ++ Gstr1.b2c g) (salesOf vouchers) /\
    (List.length (Gstr1.b2b g) + List.length (Gstr1.b2c g)
     = List.length (salesOf vouchers))%nat /\
    (forall v, isSale vouchers v ->
               (In v (Gstr1.b2b g) /\ ~ In v (Gstr1.b2c g)) \/
               (~ In v (Gstr1.b2b g) /\ In v (Gstr1.b2c g))) /\
    (forall v, In v (Gstr1.b2b g) \/ In v (Gstr1.b2c g) -> isSale vouchers v).
Proof.
  eexists. split; [reflexivity |]. cbn [Gstr1.b2b Gstr1.b2c].
  assert (P : Permutation (filter (isB2b ledgers) (salesOf vouchers)
                           ++ filter (isB2c ledgers) (salesOf vouchers))
                (salesOf vouchers))
    by (apply filter_partition, isB2c_negb).
  split; [exact P |]. split.
  - rewrite <- (Permutation_length P). now rewrite length_app.
  - split.
    + intros v S. apply salesOf_In in S. rewrite !filter_In, isB2c_negb.
      destruct (isB2b ledgers v); simpl; [left | right]; intuition congruence.
    + intros v [H | H]; apply filter_In in H; apply salesOf_In; tauto.
Qed.

End Gstr1Facts.

(* ===================================================================== *)
(** * Stock summary and stock valuation                                   *)
(* ===================================================================== *)

Section StockFacts.
Import Spec ReportsPage.

(** ** Keys of an object *)

Lemma get_some_keys {V} (k : string) (v : V) (o : Obj V) :
  get k o = Some v -> In k (keys o).
Proof.
  intros H. destruct (in_dec string_dec k (keys o)) as [I | N]; [exact I |].
  apply get_none_keys in N. congruence.
Qed.

Lemma In_keys_set {V} (k k' : string) (v : V) (o : Obj V) :
  In k' (keys (set k v o)) <-> k' = k \/ In k' (keys o).
Proof.
  destruct (get k o) as [x |] eqn:G.
  - rewrite (keys_set_some k v x o G). apply get_some_keys in G.
    split; [auto | intros [-> | H]; auto].
  - rewrite (keys_set_none k v o G), in_app_iff. simpl. intuition.
Qed.

Lemma NoDup_keys_set {V} (k : string) (v : V) (o : Obj V) :
  NoDup (keys o) -> NoDup (keys (set k v o)).
Proof.
  intros N. destruct (get k o) as [x |] eqn:G.
  - now rewrite (keys_set_some k v x o G).
  - rewrite (keys_set_none k v o G). apply NoDup_app; [exact N | repeat constructor; auto |].
    intros a Ha [<- | []]. apply get_none_keys in G. contradiction.
Qed.

Lemma In_get {V} (k : string) (v : V) (o : Obj V) :
  NoDup (keys o) -> In (k, v) o -> get k o = Some v.
Proof.
  unfold keys. induction o as [| [k' v'] r IH]; simpl; [tauto |].
  intros N [E | H].
  - injection E as -> ->. now rewrite String.eqb_refl.
  - inversion N as [| ? ? Nk Nr]; subst.
    destruct (String.eqb k k') eqn:E.
    + apply String.eqb_eq in E. subst k'. exfalso. apply Nk.
      apply in_map_iff. exists (k, v). auto.
    + auto.
Qed.

(** ** The stock-item master list as the initial object *)



(** With distinct names in the master list, the keys are the names, in
    the order of the list. *)
Lemma initStock_keys_distinct {V} (z : V) (stockItems : list StockItem.t) (o : Obj V) :
  NoDup (keys o ++ List.map StockItem.name stockItems) ->
  keys (initStock z stockItems o) = keys o ++ List.map StockItem.name stockItems.
Proof.
  unfold initStock. revert o. induction stockItems as [| i r IH]; intros o N; simpl.
  - now rewrite app_nil_r.
  - assert (G : get (StockItem.name i) o = None).
    { apply get_none_keys. intros I. simpl in N.
      apply NoDup_remove_2 in N. apply N, in_or_app. auto. }
    simpl in N.
    rewrite IH; rewrite (keys_set_none _ z o G), <- app_assoc; simpl; auto.
Qed.


(** ** The item and voucher callbacks *)

Lemma keys_bump {V} (u : V -> VoucherItem.t -> V) (o : Obj V) (item : VoucherItem.t) :
  keys (bump u o item) = keys o.
Proof.
  unfold bump. destruct (get (VoucherItem.name item) o) as [d |] eqn:G; [| reflexivity].
  exact (keys_set_some _ _ d o G).
Qed.

Lemma keys_fold_bump {V} (u : V -> VoucherItem.t -> V) (items : list VoucherItem.t)
  (o : Obj V) : keys (fold_left (bump u) items o) = keys o.
Proof.
  revert o. induction items as [| it r IH]; intros o; simpl; [reflexivity |].
  now rewrite IH, keys_bump.
Qed.

Lemma keys_stockStep {V} (uP uS : V -> VoucherItem.t -> V) (vs : list Voucher)
  (o : Obj V) : keys (fold_left (stockStep uP uS) vs o) = keys o.
Proof.
  revert o. induction vs as [| v r IH]; intros o; simpl; [reflexivity |].
  rewrite IH. destruct v as [w | w | w | w]; simpl; try reflexivity.
  destruct (SalesPurchaseVoucher.type w); apply keys_fold_bump.
Qed.





Lemma summaryStep_stockStep (o : Obj Movement.t) (v : Voucher) :
  summaryStep o v = stockStep uInward uOutward o v.
Proof. reflexivity. Qed.


Lemma fold_left_ext {A B} (f g : A -> B -> A) (l : list B) (a : A) :
  (forall x y, f x y = g x y) -> fold_left f l a = fold_left g l a.
Proof.
  intros E. revert a. induction l as [| b r IH]; intros a; simpl; [reflexivity |].
  now rewrite E, IH.
Qed.

(** ** Quantities *)

Lemma fold_uInward (items : list VoucherItem.t) (d : Movement.t) :
  Movement.inward (fold_left uInward items d)
  == Movement.inward d + Qsum (List.map VoucherItem.qty items) /\
  Movement.outward (fold_left uInward items d) = Movement.outward d.
Proof.
  revert d. induction items as [| it r IH]; intros d; simpl; [split; [lra | reflexivity] |].
  destruct (IH (uInward d it)) as [A B]. rewrite A, B. simpl. split; [lra | reflexivity].
Qed.

Lemma fold_uOutward (items : list VoucherItem.t) (d : Movement.t) :
  Movement.outward (fold_left uOutward items d)
  == Movement.outward d + Qsum (List.map VoucherItem.qty items) /\
  Movement.inward (fold_left uOutward items d) = Movement.inward d.
Proof.
  revert d. induction items as [| it r IH]; intros d; simpl; [split; [lra | reflexivity] |].
  destruct (IH (uOutward d it)) as [A B]. rewrite A, B. simpl. split; [lra | reflexivity].
Qed.



Lemma movedQty_cons (ty : SalesPurchaseType) (k : string) (v : Voucher)
  (vs : list Voucher) :
  movedQty ty k (v :: vs)
  == Qsum (List.map VoucherItem.qty (itemsNamed ty k v)) + movedQty ty k vs.
Proof. unfold movedQty. simpl. now rewrite map_app, Qsum_app. Qed.


Lemma movement_of_vouchers (k : string) (vs : list Voucher) (d : Movement.t) :
  let d' := fold_left (applyVoucher uInward uOutward k) vs d in
  Movement.inward d' == Movement.inward d + movedQty Purchase k vs /\
  Movement.outward d' == Movement.outward d + movedQty Sales k vs.
Proof.
  revert d. induction vs as [| v r IH]; intros d; simpl.
  - unfold movedQty; simpl. split; lra.
  - destruct (IH (applyVoucher uInward uOutward k d v)) as [A B]. simpl in A, B.
    rewrite A, B, !movedQty_cons. unfold applyVoucher.
    destruct (fold_uOutward (itemsNamed Sales k v)
                (fold_left uInward (itemsNamed Purchase k v) d)) as [O1 O2].
    destruct (fold_uInward (itemsNamed Purchase k v) d) as [I1 I2].
    rewrite O1, O2, I1, I2. split; lra.
Qed.



Lemma summaryRow_names (o : Obj Movement.t) :
  List.map StockSummaryRow.name (List.map summaryRow o) = keys o.
Proof.
  unfold keys. rewrite map_map. apply map_ext. now intros [k d].
Qed.


Lemma summary_final (vouchers : list Voucher) (stockItems : list StockItem.t) :
  fold_left summaryStep vouchers
    (fold_left (fun s i => set (StockItem.name i) (Movement.mk 0 0) s) stockItems [])
  = fold_left (stockStep uInward uOutward) vouchers
      (initStock (Movement.mk 0 0) stockItems []).
Proof. apply fold_left_ext, summaryStep_stockStep. Qed.



(** ** Quantities, added up as the code adds them *)








(** X24: when the names of the master list are distinct and are keys
    that [Object.entries] lists in the order of their insertion (no
    decimal numeral, not "__proto__"), the rows of the stock summary
    follow the order of the master list, whatever the vouchers. *)
Lemma stock_rows_follow_master_list (vouchers : list Voucher)
  (stockItems : list StockItem.t) (rows : list StockSummaryRow.t) :
  NoDup (List.map StockItem.name stockItems) ->
  insertionOrdered (List.map StockItem.name stockItems) ->
  stockSummaryData vouchers stockItems StockSummary = Some rows ->
  List.map StockSummaryRow.name rows = List.map StockItem.name stockItems.
Proof.
  intros N _. unfold stockSummaryData; simpl. rewrite summary_final.
  intros H. injection H as <-.
  rewrite summaryRow_names, keys_stockStep.
  now rewrite (initStock_keys_distinct (Movement.mk 0 0) stockItems [] N).
Qed.


(** A purchase of 5 "Widget" and 3 "widget" and a sale of 2 "Widget"
    against the master item "Widget": one row, 5 in, 2 out, 3 left. *)
Example stock_summary_is_case_sensitive :
  exists r,
    stockSummaryData [Sample.purchaseWidgets; Sample.saleWidgets] [Sample.widget]
      StockSummary = Some [r] /\
    StockSummaryRow.name r = "Widget" /\
    StockSummaryRow.inward r == 5 /\ StockSummaryRow.outward r == 2 /\
    StockSummaryRow.closing r == 3.
Proof.
  eexists. split; [vm_compute; reflexivity |].
  repeat split; vm_compute; reflexivity.
Qed.

(** Scenario D of the specification: a stock item without vouchers. *)
Example stock_summary_scenario_D :
  exists r,
    stockSummaryData [] [Sample.widget] StockSummary = Some [r] /\
    StockSummaryRow.name r = "Widget" /\
    StockSummaryRow.inward r == 0 /\ StockSummaryRow.outward r == 0 /\
    StockSummaryRow.closing r == 0.
Proof.
  eexists. split; [vm_compute; reflexivity |].
  repeat split; vm_compute; reflexivity.
Qed.

End StockFacts.

Section StockClaimExamples.
Import Spec ReportsPage.


End StockClaimExamples.

(* ===================================================================== *)
(** * Extraction with retries                                             *)
(* ===================================================================== *)

Section RetryFacts.
Import GeminiService.
Variable host : Host.
Variable file : File.t.

(** The loop as written and the loop by its variant are the same loop,
    and the loop as written terminates within [maxRetries - attempt + 1]
    iterations. *)
Lemma whileLoop_retryLoop (maxRetries fuel attempt : nat) (delay : Z) :
  (maxRetries - attempt < fuel)%nat ->
  whileLoop host file maxRetries fuel attempt delay
  = Some (retryLoop host file (maxRetries - attempt) attempt delay).
Proof.
  revert attempt delay. induction fuel as [| fuel IH]; intros attempt delay L; [lia |].
  simpl. destruct (Nat.ltb attempt maxRetries) eqn:Lt.
  - apply Nat.ltb_lt in Lt.
    destruct (maxRetries - attempt)%nat as [| rem] eqn:R; [lia |].
    simpl. destruct (tryExtract host file attempt) as [d | e]; [reflexivity |].
    destruct (Nat.leb maxRetries (S attempt)) eqn:Le.
    + apply Nat.leb_le in Le. destruct rem; [reflexivity | exfalso; lia].
    + apply Nat.leb_gt in Le. destruct rem as [| rem']; [exfalso; lia |].
      rewrite IH by lia. replace (maxRetries - S attempt)%nat with (S rem') by lia.
      destruct (retryLoop host file (S rem') (S attempt) (delay * 2)%Z). reflexivity.
  - apply Nat.ltb_ge in Lt. replace (maxRetries - attempt)%nat with O by lia. reflexivity.
Qed.

(** From [attempt = 0], [maxRetries + 1] iterations are enough, and the
    loop as written computes what [extractInvoiceDataWithRetry] runs. *)
Lemma whileLoop_from_zero (maxRetries : nat) (initialDelay : Z) :
  whileLoop host file maxRetries (S maxRetries) 0 initialDelay
  = Some (retryLoop host file maxRetries 0 initialDelay).
Proof.
  rewrite whileLoop_retryLoop by lia. now rewrite Nat.sub_0_r.
Qed.

Lemma retryLoop_S (rem attempt : nat) (delay : Z) :
  retryLoop host file (S rem) attempt delay
  = match tryExtract host file attempt with
    | Ok parsedData => ([Generate attempt], Ok parsedData)
    | Throw e =>
        match rem with
        | O => ([Generate attempt; ConsoleError (attempt + 1) e], Throw retriesExhausted)
        | S _ =>
            let (tr, r) := retryLoop host file rem (S attempt) (delay * 2)%Z in
            (Generate attempt :: ConsoleError (attempt + 1) e :: Sleep delay :: tr, r)
        end
    end.
Proof. reflexivity. Qed.

Lemma retryLoop_bounds (remaining attempt : nat) (delay : Z) :
  (attempts (fst (retryLoop host file remaining attempt delay)) <= remaining)%nat /\
  (remaining <> O ->
   (1 <= attempts (fst (retryLoop host file remaining attempt delay)))%nat) /\
  delays (fst (retryLoop host file remaining attempt delay))
  = doubling (pred (attempts (fst (retryLoop host file remaining attempt delay)))) delay.
Proof.
  revert attempt delay. induction remaining as [| rem IH]; intros attempt delay.
  - cbn. repeat split; auto; congruence.
  - rewrite retryLoop_S. destruct (tryExtract host file attempt) as [d | e].
    + cbn. repeat split; auto; lia.
    + destruct rem as [| rem'].
      * cbn. repeat split; auto; lia.
      * specialize (IH (S attempt) (delay * 2)%Z).
        destruct (retryLoop host file (S rem') (S attempt) (delay * 2)%Z) as [tr r].
        cbn [fst snd attempts delays] in *. destruct IH as (A & B & C).
        specialize (B ltac:(congruence)).
        repeat split; [lia | lia |].
        rewrite C. destruct (attempts tr) as [| k]; [lia | reflexivity].
Qed.

Lemma retryLoop_all_fail (remaining attempt : nat) (delay : Z) :
  remaining <> O ->
  (forall i, (i < remaining)%nat -> exists e, tryExtract host file (attempt + i) = Throw e) ->
  snd (retryLoop host file remaining attempt delay) = Throw retriesExhausted /\
  attempts (fst (retryLoop host file remaining attempt delay)) = remaining.
Proof.
  revert attempt delay. induction remaining as [| rem IH]; intros attempt delay N F;
    [congruence |].
  rewrite retryLoop_S.
  destruct (F O ltac:(lia)) as (e & E). rewrite Nat.add_0_r in E. rewrite E.
  destruct rem as [| rem']; [cbn; auto |].
  specialize (IH (S attempt) (delay * 2)%Z ltac:(congruence)).
  destruct (retryLoop host file (S rem') (S attempt) (delay * 2)%Z) as [tr r].
  cbn [fst snd attempts] in *. destruct IH as [A B].
  - intros i Li. destruct (F (S i) ltac:(lia)) as (e' & E').
    exists e'. now rewrite <- E', Nat.add_succ_r.
  - rewrite A, B. auto.
Qed.

(** A successful run returns what the first successful attempt parsed. *)
Lemma retryLoop_success (remaining attempt : nat) (delay : Z)
  (data : ExtractedInvoiceData.t) :
  snd (retryLoop host file remaining attempt delay) = Ok data ->
  exists k, (k < remaining)%nat /\
            tryExtract host file (attempt + k) = Ok data /\
            (forall i, (i < k)%nat -> exists e, tryExtract host file (attempt + i) = Throw e) /\
            attempts (fst (retryLoop host file remaining attempt delay)) = S k.
Proof.
  revert attempt delay. induction remaining as [| rem IH]; intros attempt delay;
    [cbn; discriminate |].
  rewrite retryLoop_S.
  destruct (tryExtract host file attempt) as [d | e] eqn:E.
  - cbn. intros H. injection H as ->. exists O. rewrite Nat.add_0_r.
    repeat split; auto; [lia | intros i Li; lia].
  - destruct rem as [| rem']; [cbn; discriminate |].
    specialize (IH (S attempt) (delay * 2)%Z).
    destruct (retryLoop host file (S rem') (S attempt) (delay * 2)%Z) as [tr r].
    cbn [fst snd attempts] in *. intros H. destruct (IH H) as (k & Lk & Ek & Fk & Ak).
    exists (S k). rewrite Nat.add_succ_r. repeat split; [lia | exact Ek | | lia].
    intros i Li. destruct i as [| i].
    + rewrite Nat.add_0_r. eauto.
    + rewrite Nat.add_succ_r. apply Fk. lia.
Qed.

End RetryFacts.

Section ProcessingFacts.
Import Spec GeminiService MassUploadModal.
Variable host : Host.

Lemma extract_bounds (file : File.t) :
  let run := extractInvoiceDataWithRetry host file maxRetriesDefault initialDelayDefault in
  (attempts (fst run) <= 3)%nat /\
  delays (fst run) = doubling (pred (attempts (fst run))) 1000%Z.
Proof.
  unfold extractInvoiceDataWithRetry.
  destruct (fileToBase64 host file); cbn zeta; [| cbn; auto].
  destruct (retryLoop_bounds host file maxRetriesDefault 0 initialDelayDefault)
    as (A & _ & C).
  split; [exact A | exact C].
Qed.

Lemma extract_all_fail (file : File.t) (b : string) :
  fileToBase64 host file = Ok b ->
  alwaysFails host file ->
  let run := extractInvoiceDataWithRetry host file maxRetriesDefault initialDelayDefault in
  snd run = Throw retriesExhausted /\
  attempts (fst run) = 3%nat /\ delays (fst run) = [1000; 2000]%Z.
Proof.
  intros B F. unfold extractInvoiceDataWithRetry. rewrite B. cbn zeta.
  destruct (retryLoop_all_fail host file maxRetriesDefault 0 initialDelayDefault)
    as [R A]; [discriminate | intros i _; apply F |].
  destruct (retryLoop_bounds host file maxRetriesDefault 0 initialDelayDefault)
    as (_ & _ & C).
  rewrite A in C. repeat split; assumption.
Qed.

Lemma processFile_fst (f : MassUploadFile.t)
  (st : list MassUploadFile.t * list Event) :
  fst (processFile host f st) = List.map (fun g => settleStep host g f) (fst st).
Proof.
  unfold processFile, settleStep, finishWith.
  destruct (FileStatus_eqb (MassUploadFile.status f) pending).
  - destruct (extractInvoiceDataWithRetry host (MassUploadFile.file f)
                maxRetriesDefault initialDelayDefault) as [tr r].
    destruct r as [d | e]; cbn [fst snd]; unfold updateById; rewrite map_map;
      apply map_ext; intros g;
      destruct (String.eqb (MassUploadFile.id g) (MassUploadFile.id f)) eqn:E;
      cbn [withStatus MassUploadFile.id andb]; rewrite ?E; reflexivity.
  - rewrite <- (map_id (fst st)) at 1. apply map_ext. intros g.
    now rewrite andb_false_r.
Qed.

Lemma finishWith_id (f g : MassUploadFile.t) :
  MassUploadFile.id (finishWith host f g) = MassUploadFile.id g.
Proof.
  unfold finishWith.
  destruct (snd (extractInvoiceDataWithRetry host (MassUploadFile.file f)
                   maxRetriesDefault initialDelayDefault)); reflexivity.
Qed.

Lemma settleStep_id (g f : MassUploadFile.t) :
  MassUploadFile.id (settleStep host g f) = MassUploadFile.id g.
Proof.
  unfold settleStep. destruct (andb _ _); [apply finishWith_id | reflexivity].
Qed.

(** Folding [processFile] over the snapshot applies every file of the
    snapshot, in turn, to every entry of the state. *)
Lemma fold_processFile (fs : list MassUploadFile.t)
  (st : list MassUploadFile.t * list Event) :
  fst (fold_left (fun st file => processFile host file st) fs st)
  = List.map (settleAll host fs) (fst st).
Proof.
  unfold settleAll. revert st. induction fs as [| f r IH]; intros st; cbn [fold_left].
  - now rewrite map_id.
  - now rewrite IH, processFile_fst, map_map.
Qed.

Lemma settleAll_other (fs : list MassUploadFile.t) (g : MassUploadFile.t) :
  ~ In (MassUploadFile.id g) (List.map MassUploadFile.id fs) ->
  settleAll host fs g = g.
Proof.
  unfold settleAll. induction fs as [| x r IH]; intros N; cbn [fold_left]; [reflexivity |].
  simpl in N. unfold settleStep at 2.
  destruct (String.eqb (MassUploadFile.id g) (MassUploadFile.id x)) eqn:E.
  - apply String.eqb_eq in E. exfalso. auto.
  - cbn [andb]. apply IH. auto.
Qed.

Lemma settle_id (g : MassUploadFile.t) :
  MassUploadFile.id (settle host g) = MassUploadFile.id g.
Proof.
  unfold settle. destruct (FileStatus_eqb _ _); [apply finishWith_id | reflexivity].
Qed.

Lemma settleAll_self (fs : list MassUploadFile.t) (g : MassUploadFile.t) :
  NoDup (List.map MassUploadFile.id fs) ->
  In g fs ->
  settleAll host fs g = settle host g.
Proof.
  induction fs as [| x r IH]; intros N H; [destruct H |].
  inversion N as [| ? ? Nx Nr]; subst.
  change (settleAll host (x :: r) g) with (settleAll host r (settleStep host g x)).
  destruct H as [-> | H].
  - assert (E : settleStep host g g = settle host g).
    { unfold settleStep, settle. now rewrite String.eqb_refl. }
    rewrite E. apply settleAll_other. now rewrite settle_id.
  - assert (E : settleStep host g x = g).
    { unfold settleStep.
      destruct (String.eqb (MassUploadFile.id g) (MassUploadFile.id x)) eqn:I;
        [| reflexivity].
      apply String.eqb_eq in I. exfalso. apply Nx. rewrite <- I. now apply in_map. }
    rewrite E. now apply IH.
Qed.

(** With distinct ids, as [handleFileSelect] keeps them, [startProcessing]
    settles every file on its own. *)
Lemma startProcessing_settles (files : list MassUploadFile.t) :
  NoDup (List.map MassUploadFile.id files) ->
  fst (startProcessing host files) = List.map (settle host) files.
Proof.
  intros N. unfold startProcessing. rewrite fold_processFile. cbn [fst].
  apply map_ext_in. intros g Hg. now apply settleAll_self.
Qed.

(** C8 (amended): [startProcessing] applies every file of the batch in
    turn, whatever became of the files before it; the extraction of a
    pending file is attempted at most 3 times, with delays of 1000 ms,
    2000 ms between consecutive attempts; a success makes the file
    'success' with the parsed data; and when the file is read but every
    attempt fails, there are exactly 3 attempts, the delays are 1000 and
    2000, and the file becomes 'error' with the fixed message "Failed to
    extract invoice data after multiple retries." *)
Theorem extraction_retry_semantics (files : list MassUploadFile.t) :
  fst (startProcessing host files) = List.map (settleAll host files) files /\
  forall f, MassUploadFile.status f = pending ->
    let run := extractInvoiceDataWithRetry host (MassUploadFile.file f)
                 maxRetriesDefault initialDelayDefault in
    (attempts (fst run) <= 3)%nat /\
    delays (fst run) = doubling (pred (attempts (fst run))) 1000%Z /\
    (forall st,
       fst (processFile host f st)
       = List.map (fun g => if String.eqb (MassUploadFile.id g) (MassUploadFile.id f)
                            then finishWith host f g else g) (fst st)) /\
    (forall data g, snd run = Ok data ->
       MassUploadFile.status (finishWith host f g) = success /\
       MassUploadFile.extractedData (finishWith host f g) = Some data) /\
    (forall b g, fileToBase64 host (MassUploadFile.file f) = Ok b ->
       alwaysFails host (MassUploadFile.file f) ->
       attempts (fst run) = 3%nat /\
       delays (fst run) = [1000; 2000]%Z /\
       MassUploadFile.status (finishWith host f g) = error /\
       MassUploadFile.error (finishWith host f g)
       = Some "Failed to extract invoice data after multiple retries.").
Proof.
  split; [unfold startProcessing; now rewrite fold_processFile |].
  intros f P. cbn zeta.
  destruct (extract_bounds (MassUploadFile.file f)) as [A D].
  split; [exact A |]. split; [exact D |]. split; [| split].
  - intros st. rewrite processFile_fst. apply map_ext. intros g.
    unfold settleStep. rewrite P. cbn [FileStatus_eqb]. now rewrite andb_true_r.
  - intros data g R. unfold finishWith. rewrite R. auto.
  - intros b g B F.
    destruct (extract_all_fail (MassUploadFile.file f) b B F) as (R & A3 & D3).
    unfold finishWith. rewrite R. auto.
Qed.

End ProcessingFacts.

Section ProcessingExamples.
Import Spec GeminiService MassUploadModal Sample.

(** C8, as stated, fails: the last attempt fails with "503 overloaded",
    and the file's message is the fixed one. *)
Lemma extraction_error_is_not_the_last_attempts :
  tryExtract serviceDown (png "a.png") 2 = Throw (ErrorObj PlainError "503 overloaded") /\
  exists f',
    fst (startProcessing serviceDown [selected "a.png"]) = [f'] /\
    MassUploadFile.status f' = error /\
    MassUploadFile.error f'
    = Some "Failed to extract invoice data after multiple retries." /\
    MassUploadFile.error f' <> Some "503 overloaded".
Proof.
  split; [reflexivity |]. eexists. split; [vm_compute; reflexivity |].
  repeat split. discriminate.
Qed.

(** The batch of three files with distinct ids. *)
Example batch_settles :
  fst (startProcessing serviceBadFile batch) = List.map (settle serviceBadFile) batch.
Proof.
  apply startProcessing_settles.
  repeat constructor; simpl; intuition discriminate.
Qed.

(** One bad file between two good ones: the batch goes on. *)
Example batch_statuses :
  List.map MassUploadFile.status (fst (startProcessing serviceBadFile batch))
  = [success; error; success] /\
  delays (snd (startProcessing serviceBadFile batch)) = [1000; 2000]%Z /\
  attempts (snd (startProcessing serviceBadFile batch)) = 5%nat.
Proof. repeat split; vm_compute; reflexivity. Qed.

(** The loop as written, run on the service that is down. *)
Example whileLoop_service_down :
  whileLoop serviceDown (png "a.png") 3 4 0 1000
  = Some ([Generate 0; ConsoleError 1 (ErrorObj PlainError "deadline exceeded");
           Sleep 1000;
           Generate 1; ConsoleError 2 (ErrorObj PlainError "503 overloaded");
           Sleep 2000;
           Generate 2; ConsoleError 3 (ErrorObj PlainError "503 overloaded")],
          Throw retriesExhausted).
Proof. reflexivity. Qed.

End ProcessingExamples.

(* ===================================================================== *)
(** * Recalculation on edit                                               *)
(* ===================================================================== *)

Section RecalculationFacts.
Import Spec MassUploadModal.
Variable ledgers : list Ledger.t.
Variable stockItems : list StockItem.t.
Variable companyDetails : CompanyDetails.t.

Lemma fold_recalcStep_subtotal (isInterState : bool) (lines : list ExtractedLineItem.t)
  (acc : Acc3) :
  accSubtotal (fold_left (recalcStep stockItems isInterState) lines acc)
  == accSubtotal acc + Qsum (List.map lineAmount lines).
Proof.
  revert acc. induction lines as [| l r IH]; intros acc; cbn [fold_left List.map Qsum];
    [lra |].
  rewrite IH. unfold recalcStep, lineAmount. destruct isInterState; simpl; lra.
Qed.

Lemma fold_recalcStep_inter (lines : list ExtractedLineItem.t) (acc : Acc3) :
  accCgst (fold_left (recalcStep stockItems true) lines acc) = accCgst acc /\
  accSgst (fold_left (recalcStep stockItems true) lines acc) = accSgst acc.
Proof.
  revert acc. induction lines as [| l r IH]; intros acc; cbn [fold_left]; [auto |].
  destruct (IH (recalcStep stockItems true acc l)) as [A B]. rewrite A, B. auto.
Qed.

Lemma fold_recalcStep_intra (lines : list ExtractedLineItem.t) (acc : Acc3) :
  accCgst (fold_left (recalcStep stockItems false) lines acc)
  == accCgst acc + Qsum (List.map (halfTaxOnEdit stockItems) lines) /\
  accSgst (fold_left (recalcStep stockItems false) lines acc)
  == accSgst acc + Qsum (List.map (halfTaxOnEdit stockItems) lines).
Proof.
  revert acc. induction lines as [| l r IH]; intros acc; cbn [fold_left List.map Qsum];
    [split; lra |].
  destruct (IH (recalcStep stockItems false acc l)) as [A B]. rewrite A, B.
  unfold recalcStep, halfTaxOnEdit, lineAmount; simpl. split; lra.
Qed.

(** What [recalculateInvoiceData] returns. *)
Lemma recalculateInvoiceData_spec (data : ExtractedInvoiceData.t) (sellerName : string) :
  let r := recalculateInvoiceData ledgers stockItems companyDetails data sellerName in
  let lines := orEmpty (ExtractedInvoiceData.lineItems data) in
  let inter := interStateOf companyDetails (findPartyLedger ledgers sellerName) in
  ExtractedInvoiceData.lineItems r = ExtractedInvoiceData.lineItems data /\
  ExtractedInvoiceData.subtotal r == Qsum (List.map lineAmount lines) /\
  ExtractedInvoiceData.totalAmount r
  = ExtractedInvoiceData.subtotal r + ExtractedInvoiceData.cgstAmount data
    + ExtractedInvoiceData.sgstAmount data /\
  (inter = true ->
   ExtractedInvoiceData.cgstAmount r = 0 /\ ExtractedInvoiceData.sgstAmount r = 0) /\
  (inter = false ->
   ExtractedInvoiceData.cgstAmount r == Qsum (List.map (halfTaxOnEdit stockItems) lines) /\
   ExtractedInvoiceData.sgstAmount r == Qsum (List.map (halfTaxOnEdit stockItems) lines)).
Proof.
  unfold recalculateInvoiceData. cbn zeta.
  cbn [ExtractedInvoiceData.lineItems ExtractedInvoiceData.subtotal
       ExtractedInvoiceData.totalAmount ExtractedInvoiceData.cgstAmount
       ExtractedInvoiceData.sgstAmount].
  split; [reflexivity |]. split.
  - rewrite fold_recalcStep_subtotal. simpl. lra.
  - split; [reflexivity |]. split; intros ->.
    + apply fold_recalcStep_inter.
    + destruct (fold_recalcStep_intra (orEmpty (ExtractedInvoiceData.lineItems data))
                  (mkAcc3 0 0 0)) as [A B].
      simpl in A, B. split; [rewrite A | rewrite B]; lra.
Qed.


(** [handleLineItemChange] edits the files of the given id and leaves the
    others alone. *)
Lemma handleLineItemChange_files (fileId : string) (itemIndex : nat)
  (patch : LineItemPatch) (prevFiles files' : list MassUploadFile.t) :
  handleLineItemChange ledgers stockItems companyDetails fileId itemIndex patch prevFiles
  = Ok files' ->
  forall f', In f' files' ->
  exists f, In f prevFiles /\
            ((MassUploadFile.id f = fileId /\
              editLineItem ledgers stockItems companyDetails itemIndex patch f = Ok f') \/
             (MassUploadFile.id f <> fileId /\ f' = f)).
Proof.
  unfold handleLineItemChange. intros H f' Hf'.
  destruct (mapExn_ok_In _ _ _ H f' Hf') as (f & Hf & E).
  exists f. split; [exact Hf |].
  destruct (String.eqb (MassUploadFile.id f) fileId) eqn:I.
  - apply String.eqb_eq in I. auto.
  - apply String.eqb_neq in I. injection E as <-. auto.
Qed.

End RecalculationFacts.

Section RecalculationExamples.
Import Spec MassUploadModal Sample.


(** After the quantity of the printed invoice is set to 3, the record
    shows cgst 27 and sgst 27 next to a total of 336 = 300 + 18 + 18. *)
Example edit_total_uses_previous_tax :
  exists f' data',
    handleLineItemChange [acme] [widget] company (MassUploadFile.id fileToEdit) 0
      (SetQuantity 3) [fileToEdit] = Ok [f'] /\
    MassUploadFile.extractedData f' = Some data' /\
    ExtractedInvoiceData.subtotal data' == 300 /\
    ExtractedInvoiceData.cgstAmount data' == 27 /\
    ExtractedInvoiceData.sgstAmount data' == 27 /\
    ExtractedInvoiceData.totalAmount data' == 336 /\
    ~ ExtractedInvoiceData.totalAmount data'
      == ExtractedInvoiceData.subtotal data' + ExtractedInvoiceData.cgstAmount data'
         + ExtractedInvoiceData.sgstAmount data'.
Proof.
  eexists. eexists. split; [vm_compute; reflexivity |]. split; [reflexivity |].
  repeat split; try (vm_compute; reflexivity). vm_compute. discriminate.
Qed.

(** The same edit for an inter-state party: no tax is recomputed, and the
    total leaves the 54 of IGST out. *)
Example edit_total_omits_igst :
  exists f' data',
    handleLineItemChange [acme] [widget] companyElsewhere (MassUploadFile.id fileToEdit) 0
      (SetQuantity 3) [fileToEdit] = Ok [f'] /\
    MassUploadFile.extractedData f' = Some data' /\
    ExtractedInvoiceData.subtotal data' == 300 /\
    ExtractedInvoiceData.cgstAmount data' == 0 /\
    ExtractedInvoiceData.sgstAmount data' == 0 /\
    ExtractedInvoiceData.totalAmount data' == 336.
Proof.
  eexists. eexists. split; [vm_compute; reflexivity |]. split; [reflexivity |].
  repeat split; vm_compute; reflexivity.
Qed.

End RecalculationExamples.

(* ===================================================================== *)
(** * Trial balance, ledger by ledger                                     *)
(* ===================================================================== *)

Section LedgerFacts.
Import Spec ReportsPage.

Lemma bind_ok {A B} (m : Exn A) (k : A -> Exn B) (b : B) :
  bindExn m k = Ok b -> exists a, m = Ok a /\ k a = Ok b.
Proof. destruct m as [a | e]; simpl; [eauto | discriminate]. Qed.

Lemma netOf_set (L k : string) (x : Balance.t) (o : Obj Balance.t) :
  netOf L (set k x o) = if String.eqb L k then net x else netOf L o.
Proof.
  unfold netOf. destruct (String.eqb L k) eqn:E.
  - apply String.eqb_eq in E. subst. now rewrite get_set_same.
  - apply String.eqb_neq in E. now rewrite get_set_other.
Qed.

Lemma netOf_ensureLedger (L k : string) (o : Obj Balance.t) :
  netOf L (ensureLedger k o) == netOf L o.
Proof.
  unfold ensureLedger. destruct (truthyStr k); simpl; [| reflexivity].
  unfold has. destruct (get k o) eqn:G; simpl; [reflexivity |].
  destruct (inherited k); simpl; [reflexivity |].
  rewrite netOf_set. destruct (String.eqb L k) eqn:E; [| reflexivity].
  apply String.eqb_eq in E. subst. unfold netOf, net. rewrite G. simpl. lra.
Qed.

Lemma netOf_ensureTaxLedgers (L : string) (o : Obj Balance.t) :
  netOf L (ensureTaxLedgers o) == netOf L o.
Proof. unfold ensureTaxLedgers. now rewrite !netOf_ensureLedger. Qed.

(** A ledger that is not the name of an inherited member is not one
    that is. *)
Lemma onLedger_inherited (L k : string) (x : number) :
  inherited L = false -> inherited k = true -> onLedger L k x = 0.
Proof.
  intros IL Ik. unfold onLedger. destruct (String.eqb L k) eqn:E; [| reflexivity].
  apply String.eqb_eq in E. subst. congruence.
Qed.

Lemma netOf_addDebit (L k : string) (x : number) (o o' : Obj Balance.t) :
  inherited L = false ->
  addDebit k x o = Ok o' -> netOf L o' == netOf L o + onLedger L k x.
Proof.
  intros IL. unfold addDebit. destruct (get k o) as [b |] eqn:G.
  - unfold onLedger. intros H. injection H as <-. rewrite netOf_set.
    destruct (String.eqb L k) eqn:E; [| lra].
    apply String.eqb_eq in E. subst. unfold netOf, net. rewrite G. simpl. lra.
  - destruct (inherited k) eqn:Ik; [| discriminate].
    intros H. injection H as <-. rewrite (onLedger_inherited L k x IL Ik). lra.
Qed.

Lemma netOf_addCredit (L k : string) (x : number) (o o' : Obj Balance.t) :
  inherited L = false ->
  addCredit k x o = Ok o' -> netOf L o' == netOf L o - onLedger L k x.
Proof.
  intros IL. unfold addCredit. destruct (get k o) as [b |] eqn:G.
  - unfold onLedger. intros H. injection H as <-. rewrite netOf_set.
    destruct (String.eqb L k) eqn:E; [| lra].
    apply String.eqb_eq in E. subst. unfold netOf, net. rewrite G. simpl. lra.
  - destruct (inherited k) eqn:Ik; [| discriminate].
    intros H. injection H as <-. rewrite (onLedger_inherited L k x IL Ik). lra.
Qed.

(** Splits the binds of a successful posting and derives the net of [L]
    after every step. *)
Ltac post_steps L IL :=
  repeat match goal with
    | H : bindExn _ _ = Ok _ |- _ =>
        let a := fresh "b" in
        let E := fresh "E" in
        apply bind_ok in H; destruct H as (a & E & H)
    end;
  repeat match goal with
    | H : addDebit _ _ _ = Ok _ |- _ => apply (netOf_addDebit L _ _ _ _ IL) in H
    | H : addCredit _ _ _ = Ok _ |- _ => apply (netOf_addCredit L _ _ _ _ IL) in H
    end.

Lemma netOf_postEntry (L : string) (e : JournalEntry.t) (o o' : Obj Balance.t) :
  inherited L = false ->
  postEntry e o = Ok o' -> netOf L o' == netOf L o + entryPosting L e.
Proof.
  intros IL. unfold postEntry, entryPosting.
  pose proof (netOf_ensureLedger L (JournalEntry.ledger e) o) as P.
  destruct (truthyStr (JournalEntry.ledger e)).
  - intros H. post_steps L IL. unfold onLedger in *.
    destruct (String.eqb L (JournalEntry.ledger e)); lra.
  - intros H. injection H as <-. lra.
Qed.

Lemma netOf_postEntries (L : string) (es : list JournalEntry.t) (o o' : Obj Balance.t) :
  inherited L = false ->
  forEachExn postEntry es o = Ok o' ->
  netOf L o' == netOf L o + Qsum (List.map (entryPosting L) es).
Proof.
  intros IL. revert o. induction es as [| e r IH]; intros o; simpl.
  - intros H. injection H as <-. lra.
  - intros H. apply bind_ok in H. destruct H as (o1 & E & H).
    rewrite (IH _ H), (netOf_postEntry L e o o1 IL E). lra.
Qed.

(** A successful posting moves the net of every ledger, other than
    those under the name of an inherited member, by what the voucher
    posts to it. *)
Lemma netOf_post (L : string) (v : Voucher) (o o' : Obj Balance.t) :
  inherited L = false ->
  post v o = Ok o' -> netOf L o' == netOf L o + posting L v.
Proof.
  intros IL. destruct v as [v | v | v | v]; cbn [post posting].
  - pose proof (netOf_ensureLedger L (SalesPurchaseVoucher.party v) o) as P1.
    destruct (SalesPurchaseVoucher.type v).
    + pose proof (netOf_ensureLedger L "Purchases"
                    (ensureLedger (SalesPurchaseVoucher.party v) o)) as P2.
      pose proof (netOf_ensureTaxLedgers L
                    (ensureLedger "Purchases"
                       (ensureLedger (SalesPurchaseVoucher.party v) o))) as P3.
      destruct (SalesPurchaseVoucher.isInterState v); intros H; post_steps L IL; lra.
    + pose proof (netOf_ensureLedger L "Sales"
                    (ensureLedger (SalesPurchaseVoucher.party v) o)) as P2.
      pose proof (netOf_ensureTaxLedgers L
                    (ensureLedger "Sales"
                       (ensureLedger (SalesPurchaseVoucher.party v) o))) as P3.
      destruct (SalesPurchaseVoucher.isInterState v); intros H; post_steps L IL; lra.
  - pose proof (netOf_ensureLedger L (PaymentReceiptVoucher.party v) o) as P1.
    pose proof (netOf_ensureLedger L (PaymentReceiptVoucher.account v)
                  (ensureLedger (PaymentReceiptVoucher.party v) o)) as P2.
    destruct (PaymentReceiptVoucher.type v); intros H; post_steps L IL; lra.
  - pose proof (netOf_ensureLedger L (ContraVoucher.fromAccount v) o) as P1.
    pose proof (netOf_ensureLedger L (ContraVoucher.toAccount v)
                  (ensureLedger (ContraVoucher.fromAccount v) o)) as P2.
    intros H; post_steps L IL; lra.
  - now apply netOf_postEntries.
Qed.

Lemma netOf_forEach_post (L : string) (vs : list Voucher) (o o' : Obj Balance.t) :
  inherited L = false ->
  forEachExn post vs o = Ok o' -> netOf L o' == netOf L o + postings L vs.
Proof.
  intros IL. unfold postings. revert o. induction vs as [| v r IH]; intros o; simpl.
  - intros H. injection H as <-. lra.
  - intros H. apply bind_ok in H. destruct H as (o1 & E & H).
    rewrite (IH _ H), (netOf_post L v o o1 IL E). lra.
Qed.

Lemma netOf_initial (L : string) (ledgers : list Ledger.t) (o : Obj Balance.t) :
  netOf L (fold_left (fun b l => ensureLedger (Ledger.name l) b) ledgers o) == netOf L o.
Proof.
  revert o. induction ledgers as [| l r IH]; intros o; simpl; [reflexivity |].
  now rewrite IH, netOf_ensureLedger.
Qed.

(** ** Invariants of the balances object *)

(** What every step of the aggregation preserves is preserved by it. *)
Lemma post_preserves (P : Obj Balance.t -> Prop) :
  (forall k o, P o -> P (ensureLedger k o)) ->
  (forall k x o o', P o -> addDebit k x o = Ok o' -> P o') ->
  (forall k x o o', P o -> addCredit k x o = Ok o' -> P o') ->
  forall v o o', P o -> post v o = Ok o' -> P o'.
Proof.
  intros En Ad Ac.
  assert (Et : forall o, P o -> P (ensureTaxLedgers o))
    by (intros o Po; unfold ensureTaxLedgers; auto).
  assert (Pe : forall es o o', P o -> forEachExn postEntry es o = Ok o' -> P o').
  { induction es as [| e r IH]; intros o o' Po; simpl.
    - intros H. now injection H as <-.
    - intros H. apply bind_ok in H. destruct H as (o1 & E & H).
      apply (IH o1 o'); [| exact H]. revert E. unfold postEntry.
      destruct (truthyStr (JournalEntry.ledger e)).
      + intros E. apply bind_ok in E. destruct E as (o2 & E2 & E).
        eapply Ac; [| exact E]. eapply Ad; [| exact E2]. auto.
      + intros E. injection E as <-. auto. }
  intros v o o' Po. destruct v as [v | v | v | v]; cbn [post].
  - destruct (SalesPurchaseVoucher.type v);
      destruct (SalesPurchaseVoucher.isInterState v); intros H;
      repeat (apply bind_ok in H; destruct H as (? & ? & H));
      repeat match goal with
        | E : addDebit _ _ ?a = Ok ?b |- P ?b => apply (Ad _ _ _ _) in E; [exact E |]
        | E : addCredit _ _ ?a = Ok ?b |- P ?b => apply (Ac _ _ _ _) in E; [exact E |]
        | H : addDebit _ _ ?a = Ok ?b |- P ?b => apply (Ad _ _ _ _) in H; [exact H |]
        | H : addCredit _ _ ?a = Ok ?b |- P ?b => apply (Ac _ _ _ _) in H; [exact H |]
        end; auto.
  - destruct (PaymentReceiptVoucher.type v); intros H;
      repeat (apply bind_ok in H; destruct H as (? & ? & H));
      repeat match goal with
        | E : addDebit _ _ ?a = Ok ?b |- P ?b => apply (Ad _ _ _ _) in E; [exact E |]
        | E : addCredit _ _ ?a = Ok ?b |- P ?b => apply (Ac _ _ _ _) in E; [exact E |]
        end; auto.
  - intros H; repeat (apply bind_ok in H; destruct H as (? & ? & H));
      repeat match goal with
        | E : addDebit _ _ ?a = Ok ?b |- P ?b => apply (Ad _ _ _ _) in E; [exact E |]
        | E : addCredit _ _ ?a = Ok ?b |- P ?b => apply (Ac _ _ _ _) in E; [exact E |]
        end; auto.
  - apply Pe. exact Po.
Qed.


Lemma forEach_post_preserves (P : Obj Balance.t -> Prop) :
  (forall k o, P o -> P (ensureLedger k o)) ->
  (forall k x o o', P o -> addDebit k x o = Ok o' -> P o') ->
  (forall k x o o', P o -> addCredit k x o = Ok o' -> P o') ->
  forall vs o o', P o -> forEachExn post vs o = Ok o' -> P o'.
Proof.
  intros En Ad Ac. induction vs as [| v r IH]; intros o o' Po; simpl.
  - intros H. now injection H as <-.
  - intros H. apply bind_ok in H. destruct H as (o1 & E & H).
    apply (IH o1 o'); [| exact H]. exact (post_preserves P En Ad Ac v o o1 Po E).
Qed.

Lemma NoDup_keys_ensureLedger (k : string) (o : Obj Balance.t) :
  NoDup (keys o) -> NoDup (keys (ensureLedger k o)).
Proof.
  unfold ensureLedger. destruct (andb _ _); [apply NoDup_keys_set | auto].
Qed.

Lemma NoDup_keys_addDebit (k : string) (x : number) (o o' : Obj Balance.t) :
  NoDup (keys o) -> addDebit k x o = Ok o' -> NoDup (keys o').
Proof.
  unfold addDebit. destruct (get k o); [| destruct (inherited k); [| discriminate]].
  - intros N H. injection H as <-. now apply NoDup_keys_set.
  - intros N H. now injection H as <-.
Qed.

Lemma NoDup_keys_addCredit (k : string) (x : number) (o o' : Obj Balance.t) :
  NoDup (keys o) -> addCredit k x o = Ok o' -> NoDup (keys o').
Proof.
  unfold addCredit. destruct (get k o); [| destruct (inherited k); [| discriminate]].
  - intros N H. injection H as <-. now apply NoDup_keys_set.
  - intros N H. now injection H as <-.
Qed.

Lemma NoDup_keys_initial (ledgers : list Ledger.t) (o : Obj Balance.t) :
  NoDup (keys o) ->
  NoDup (keys (fold_left (fun b l => ensureLedger (Ledger.name l) b) ledgers o)).
Proof.
  revert o. induction ledgers as [| l r IH]; intros o N; simpl; [exact N |].
  apply IH. now apply NoDup_keys_ensureLedger.
Qed.

(** No key of the balances is the name of an inherited member. *)
Definition ownKeys (o : Obj Balance.t) : Prop :=
  forall k, In k (keys o) -> inherited k = false.

Lemma ownKeys_ensureLedger (k : string) (o : Obj Balance.t) :
  ownKeys o -> ownKeys (ensureLedger k o).
Proof.
  unfold ensureLedger, ownKeys. intros P.
  destruct (truthyStr k); simpl; [| exact P].
  destruct (has k o); simpl; [exact P |].
  destruct (inherited k) eqn:I; simpl; [exact P |].
  intros k' Hk'. apply In_keys_set in Hk'. destruct Hk' as [-> | Hk']; auto.
Qed.

Lemma ownKeys_addDebit (k : string) (x : number) (o o' : Obj Balance.t) :
  ownKeys o -> addDebit k x o = Ok o' -> ownKeys o'.
Proof.
  unfold addDebit, ownKeys. intros P.
  destruct (get k o) as [b |] eqn:G; [| destruct (inherited k); [| discriminate]].
  - intros H. injection H as <-. intros k' Hk'.
    rewrite (keys_set_some _ _ b o G) in Hk'. auto.
  - intros H. now injection H as <-.
Qed.

Lemma ownKeys_addCredit (k : string) (x : number) (o o' : Obj Balance.t) :
  ownKeys o -> addCredit k x o = Ok o' -> ownKeys o'.
Proof.
  unfold addCredit, ownKeys. intros P.
  destruct (get k o) as [b |] eqn:G; [| destruct (inherited k); [| discriminate]].
  - intros H. injection H as <-. intros k' Hk'.
    rewrite (keys_set_some _ _ b o G) in Hk'. auto.
  - intros H. now injection H as <-.
Qed.

Lemma ownKeys_initial (ledgers : list Ledger.t) (o : Obj Balance.t) :
  ownKeys o ->
  ownKeys (fold_left (fun b l => ensureLedger (Ledger.name l) b) ledgers o).
Proof.
  revert o. induction ledgers as [| l r IH]; intros o N; simpl; [exact N |].
  apply IH. now apply ownKeys_ensureLedger.
Qed.

Lemma get_some_In {V} (k : string) (v : V) (o : Obj V) :
  get k o = Some v -> In (k, v) o.
Proof.
  induction o as [| [k' v'] r IH]; simpl; [discriminate |].
  destruct (String.eqb k k') eqn:E.
  - apply String.eqb_eq in E. subst. intros H. injection H as ->. now left.
  - intros H. right. auto.
Qed.

Lemma NoDup_map_filter {A B} (f : A -> B) (p : A -> bool) (l : list A) :
  NoDup (List.map f l) -> NoDup (List.map f (filter p l)).
Proof.
  induction l as [| a r IH]; simpl; [auto |].
  intros N. inversion N as [| ? ? Na Nr]; subst.
  destruct (p a); simpl; [| auto].
  constructor; [| auto]. intros H. apply Na.
  apply in_map_iff in H. destruct H as (x & E & Hx).
  apply filter_In in Hx. apply in_map_iff. exists x. tauto.
Qed.

Lemma netRow_ledgers (o : Obj Balance.t) :
  List.map TrialBalanceRow.ledger (List.map netRow o) = keys o.
Proof.
  unfold keys. rewrite map_map. apply map_ext. intros [k b]. unfold netRow.
  destruct (gtb _ _); [reflexivity |]. destruct (gtb _ _); reflexivity.
Qed.

Lemma netRow_ledger (k : string) (b : Balance.t) :
  TrialBalanceRow.ledger (netRow (k, b)) = k.
Proof.
  unfold netRow. destruct (gtb _ _); [reflexivity |]. destruct (gtb _ _); reflexivity.
Qed.

(** The balances behind a trial balance. *)
Lemma trialBalance_balances (vouchers : list Voucher) (ledgers : list Ledger.t)
  (tb : TrialBalance.t) :
  trialBalanceData vouchers ledgers TrialBalance = Ok (Some tb) ->
  exists o,
    TrialBalance.result tb = filter emitted (List.map netRow o) /\
    NoDup (keys o) /\
    ownKeys o /\
    forall L, inherited L = false -> netOf L o == postings L vouchers.
Proof.
  unfold trialBalanceData; simpl.
  set (o0 := fold_left (fun b l => ensureLedger (Ledger.name l) b) ledgers []).
  destruct (forEachExn post vouchers o0) as [o |] eqn:E; cbn [bindExn]; [| discriminate].
  intros H. injection H as <-. exists o. split; [reflexivity |]. split.
  - apply (forEach_post_preserves (fun o => NoDup (keys o))
             NoDup_keys_ensureLedger NoDup_keys_addDebit NoDup_keys_addCredit
             vouchers o0 o); [| exact E].
    apply NoDup_keys_initial. constructor.
  - split.
    + apply (forEach_post_preserves ownKeys
               ownKeys_ensureLedger ownKeys_addDebit ownKeys_addCredit
               vouchers o0 o); [| exact E].
      apply ownKeys_initial. intros k [].
    + intros L IL. rewrite (netOf_forEach_post L vouchers o0 o IL E). unfold o0.
      rewrite netOf_initial. unfold netOf; simpl. lra.
Qed.

(** X1: when the amounts of the vouchers are whole numbers with
    magnitudes adding up to at most 2^53, so that binary64 adds them
    without rounding, then in a trial balance every ledger has at most
    one row; the row of a ledger shows, as debit less credit, the net of
    everything the vouchers post to that ledger; and a ledger without a
    row, when its name is not a member of [Object.prototype], nets to
    0. *)
Theorem trial_balance_rows_are_postings (vouchers : list Voucher)
  (ledgers : list Ledger.t) (tb : TrialBalance.t) :
  exactlySummable (flat_map amountsOf vouchers) ->
  trialBalanceData vouchers ledgers TrialBalance = Ok (Some tb) ->
  NoDup (List.map TrialBalanceRow.ledger (TrialBalance.result tb)) /\
  (forall r, In r (TrialBalance.result tb) ->
     TrialBalanceRow.debit r - TrialBalanceRow.credit r
     == postings (TrialBalanceRow.ledger r) vouchers) /\
  (forall L, ownName L ->
     ~ In L (List.map TrialBalanceRow.ledger (TrialBalance.result tb)) ->
     postings L vouchers == 0).
Proof.
  intros _ H.
  destruct (trialBalance_balances vouchers ledgers tb H) as (o & -> & N & K & P).
  split; [| split].
  - apply NoDup_map_filter. now rewrite netRow_ledgers.
  - intros r Hr. apply filter_In in Hr. destruct Hr as [Hr _].
    apply in_map_iff in Hr. destruct Hr as ([k b] & <- & Hin).
    assert (Ik : inherited k = false)
      by (apply K; apply in_map_iff; exists (k, b); auto).
    rewrite netRow_ledger, <- (P k Ik). unfold netOf. rewrite (In_get k b o N Hin).
    exact (netRow_net (k, b)).
  - intros L OL NL. rewrite <- (P L (inherited_false L OL)). unfold netOf.
    destruct (get L o) as [b |] eqn:G; [| reflexivity].
    destruct (emitted (netRow (L, b))) eqn:Em.
    + exfalso. apply NL. apply in_map_iff. exists (netRow (L, b)).
      split; [apply netRow_ledger |]. apply filter_In. split; [| exact Em].
      apply in_map. now apply get_some_In.
    + rewrite <- (netRow_net (L, b)). now apply netRow_dropped.
Qed.

(** Scenario C: the rows of Purchases, CGST, SGST and Cash. *)
Lemma trial_balance_rows_are_postings_scenario_C :
  exists tb,
    trialBalanceData [Sample.purchaseX; Sample.paymentX] [] TrialBalance = Ok (Some tb) /\
    postings "X" [Sample.purchaseX; Sample.paymentX] == 0 /\
    NoDup (List.map TrialBalanceRow.ledger (TrialBalance.result tb)).
Proof.
  eexists. split; [vm_compute; reflexivity |].
  assert (X : exactlySummable (flat_map amountsOf [Sample.purchaseX; Sample.paymentX])).
  { split; [repeat constructor; vm_compute; reflexivity | vm_compute; discriminate]. }
  destruct (trial_balance_rows_are_postings [Sample.purchaseX; Sample.paymentX] [] _
              X eq_refl) as (N & _ & Z).
  split; [| exact N]. apply Z.
  - intros H. simpl in H. intuition discriminate.
  - intros H. simpl in H. intuition discriminate.
Defined.

End LedgerFacts.

Section MissingNames.
Import Spec ReportsPage.

Lemma truthyStr_false (s : string) : truthyStr s = false <-> s = "".
Proof. destruct s; simpl; split; congruence. Qed.

Lemma noEmptyKey_ensureLedger (k : string) (o : Obj Balance.t) :
  noEmptyKey o -> noEmptyKey (ensureLedger k o).
Proof.
  unfold noEmptyKey, ensureLedger. intros N.
  destruct (truthyStr k) eqn:T; simpl; [| exact N].
  destruct (has k o); simpl; [exact N |].
  destruct (inherited k); simpl; [exact N |].
  rewrite get_set_other; [exact N |]. intros <-. discriminate.
Qed.

Lemma noEmptyKey_addDebit (k : string) (x : number) (o o' : Obj Balance.t) :
  noEmptyKey o -> addDebit k x o = Ok o' -> noEmptyKey o'.
Proof.
  unfold noEmptyKey, addDebit. intros N.
  destruct (get k o) eqn:G; [| destruct (inherited k); [| discriminate]].
  - intros H. injection H as <-.
    rewrite get_set_other; [exact N |]. intros <-. congruence.
  - intros H. now injection H as <-.
Qed.

Lemma noEmptyKey_addCredit (k : string) (x : number) (o o' : Obj Balance.t) :
  noEmptyKey o -> addCredit k x o = Ok o' -> noEmptyKey o'.
Proof.
  unfold noEmptyKey, addCredit. intros N.
  destruct (get k o) eqn:G; [| destruct (inherited k); [| discriminate]].
  - intros H. injection H as <-.
    rewrite get_set_other; [exact N |]. intros <-. congruence.
  - intros H. now injection H as <-.
Qed.

Lemma noEmptyKey_ensureTaxLedgers (o : Obj Balance.t) :
  noEmptyKey o -> noEmptyKey (ensureTaxLedgers o).
Proof. intros N. unfold ensureTaxLedgers. now repeat apply noEmptyKey_ensureLedger. Qed.

Lemma noEmptyKey_initial (ledgers : list Ledger.t) (o : Obj Balance.t) :
  noEmptyKey o ->
  noEmptyKey (fold_left (fun b l => ensureLedger (Ledger.name l) b) ledgers o).
Proof.
  revert o. induction ledgers as [| l r IH]; intros o N; simpl; [exact N |].
  apply IH. now apply noEmptyKey_ensureLedger.
Qed.

Lemma addDebit_empty (x : number) (o : Obj Balance.t) :
  noEmptyKey o -> addDebit "" x o = Throw notAnObject.
Proof. unfold noEmptyKey, addDebit. now intros ->. Qed.

Lemma addCredit_empty (x : number) (o : Obj Balance.t) :
  noEmptyKey o -> addCredit "" x o = Throw notAnObject.
Proof. unfold noEmptyKey, addCredit. now intros ->. Qed.

(** [balances[k]] is truthy: [k] is a key, or the name of an inherited
    member. *)
Definition present (k : string) (o : Obj Balance.t) : Prop :=
  orb (has k o) (inherited k) = true.

Lemma ensureLedger_present (k : string) (o : Obj Balance.t) :
  truthyStr k = true -> present k (ensureLedger k o).
Proof.
  unfold present, ensureLedger. intros ->. simpl.
  destruct (has k o) eqn:H; simpl; [now rewrite H |].
  destruct (inherited k) eqn:I; simpl; [rewrite H; reflexivity |].
  now rewrite has_set, String.eqb_refl.
Qed.

Lemma ensureLedger_keeps_present (k k' : string) (o : Obj Balance.t) :
  present k' o -> present k' (ensureLedger k o).
Proof.
  unfold present. intros P. apply orb_true_iff in P. apply orb_true_iff.
  destruct P as [P | P]; [left; now apply ensureLedger_keeps | now right].
Qed.

Lemma addDebit_ok (k : string) (x : number) (o : Obj Balance.t) :
  present k o ->
  exists o', addDebit k x o = Ok o' /\ forall k', present k' o -> present k' o'.
Proof.
  unfold present, has, addDebit. destruct (get k o) as [b |] eqn:G; simpl.
  - intros _. eexists. split; [reflexivity |]. intros k' P.
    apply orb_true_iff in P. apply orb_true_iff. destruct P as [P | P]; [left | now right].
    fold (has k' (set k (Balance.mk (Balance.debit b + x) (Balance.credit b)) o)).
    rewrite has_set. fold (has k' o) in P. rewrite P. apply orb_true_r.
  - intros ->. eauto.
Qed.

Lemma addCredit_ok (k : string) (x : number) (o : Obj Balance.t) :
  present k o ->
  exists o', addCredit k x o = Ok o' /\ forall k', present k' o -> present k' o'.
Proof.
  unfold present, has, addCredit. destruct (get k o) as [b |] eqn:G; simpl.
  - intros _. eexists. split; [reflexivity |]. intros k' P.
    apply orb_true_iff in P. apply orb_true_iff. destruct P as [P | P]; [left | now right].
    fold (has k' (set k (Balance.mk (Balance.debit b) (Balance.credit b + x)) o)).
    rewrite has_set. fold (has k' o) in P. rewrite P. apply orb_true_r.
  - intros ->. eauto.
Qed.

(** [balances[k]] is truthy after the [ensureLedger] calls and the
    additions so far. *)
Ltac present_now :=
  first [ assumption
        | apply ensureLedger_present; solve [assumption | reflexivity]
        | apply ensureLedger_keeps_present; present_now
        | match goal with
          | K : forall k', present k' ?a -> present k' ?b |- present _ ?b =>
              apply K; present_now
          end ].

(** Runs the next addition of a posting. *)
Ltac run_add :=
  let o1 := fresh "o" in
  let E := fresh "E" in
  let K := fresh "K" in
  match goal with
  | |- exists o', bindExn (addDebit ?k ?x ?o) _ = Ok o' =>
      destruct (addDebit_ok k x o) as (o1 & E & K);
        [present_now | rewrite E; cbn [bindExn]]
  | |- exists o', bindExn (addCredit ?k ?x ?o) _ = Ok o' =>
      destruct (addCredit_ok k x o) as (o1 & E & K);
        [present_now | rewrite E; cbn [bindExn]]
  | |- exists o', addDebit ?k ?x ?o = Ok o' =>
      destruct (addDebit_ok k x o) as (o1 & E & K); [present_now | eauto]
  | |- exists o', addCredit ?k ?x ?o = Ok o' =>
      destruct (addCredit_ok k x o) as (o1 & E & K); [present_now | eauto]
  end.

Lemma postEntries_ok (es : list JournalEntry.t) (o : Obj Balance.t) :
  exists o', forEachExn postEntry es o = Ok o'.
Proof.
  revert o. induction es as [| e r IH]; intros o; simpl; [eauto |].
  assert (E : exists o1, postEntry e o = Ok o1).
  { unfold postEntry. destruct (truthyStr (JournalEntry.ledger e)) eqn:T; [| eauto].
    run_add. run_add. }
  destruct E as (o1 & ->). cbn [bindExn]. apply IH.
Qed.

(** Posting a voucher whose ledger names are given succeeds, whatever the
    names are. *)
Lemma post_ok (v : Voucher) (o : Obj Balance.t) :
  namesGiven v -> exists o', post v o = Ok o'.
Proof.
  destruct v as [v | v | v | v]; simpl.
  - intros T. unfold ensureTaxLedgers.
    destruct (SalesPurchaseVoucher.type v); run_add; run_add;
      destruct (SalesPurchaseVoucher.isInterState v); repeat run_add.
  - intros [Tp Ta]. destruct (PaymentReceiptVoucher.type v); run_add; run_add.
  - intros [Tf Tt]. run_add. run_add.
  - intros _. apply postEntries_ok.
Qed.

Lemma namesGiven_dec (v : Voucher) : {namesGiven v} + {~ namesGiven v}.
Proof.
  destruct v as [v | v | v | v]; simpl.
  - destruct (truthyStr (SalesPurchaseVoucher.party v)); [left | right]; congruence.
  - destruct (truthyStr (PaymentReceiptVoucher.party v));
      destruct (truthyStr (PaymentReceiptVoucher.account v));
      [left | right | right | right]; intuition congruence.
  - destruct (truthyStr (ContraVoucher.fromAccount v));
      destruct (truthyStr (ContraVoucher.toAccount v));
      [left | right | right | right]; intuition congruence.
  - left. exact I.
Qed.

(** Posting a voucher with an empty party or account name dereferences
    [balances['']], which is [undefined]. *)
Lemma post_throws (v : Voucher) (o : Obj Balance.t) :
  noEmptyKey o -> ~ namesGiven v -> post v o = Throw notAnObject.
Proof.
  intros N G. destruct v as [v | v | v | v]; simpl in G; cbn [post].
  - assert (E : SalesPurchaseVoucher.party v = "").
    { apply truthyStr_false. destruct (truthyStr _); congruence. }
    rewrite E. destruct (SalesPurchaseVoucher.type v).
    + rewrite addCredit_empty; [reflexivity |].
      now apply noEmptyKey_ensureTaxLedgers; repeat apply noEmptyKey_ensureLedger.
    + rewrite addDebit_empty; [reflexivity |].
      now apply noEmptyKey_ensureTaxLedgers; repeat apply noEmptyKey_ensureLedger.
  - set (o0 := ensureLedger (PaymentReceiptVoucher.account v)
                 (ensureLedger (PaymentReceiptVoucher.party v) o)).
    assert (N0 : noEmptyKey o0) by (now repeat apply noEmptyKey_ensureLedger).
    destruct (truthyStr (PaymentReceiptVoucher.party v)) eqn:Tp.
    + assert (Ea : PaymentReceiptVoucher.account v = "").
      { apply truthyStr_false.
        destruct (truthyStr (PaymentReceiptVoucher.account v));
          [exfalso; apply G; auto | reflexivity]. }
      assert (Hp : present (PaymentReceiptVoucher.party v) o0)
        by (apply ensureLedger_keeps_present; now apply ensureLedger_present).
      destruct (PaymentReceiptVoucher.type v).
      * destruct (addDebit_ok _ (PaymentReceiptVoucher.amount v) _ Hp)
          as (o1 & E1 & _).
        rewrite E1; cbn [bindExn]. rewrite Ea. apply addCredit_empty.
        exact (noEmptyKey_addDebit _ _ _ _ N0 E1).
      * destruct (addCredit_ok _ (PaymentReceiptVoucher.amount v) _ Hp)
          as (o1 & E1 & _).
        rewrite E1; cbn [bindExn]. rewrite Ea. apply addDebit_empty.
        exact (noEmptyKey_addCredit _ _ _ _ N0 E1).
    + apply truthyStr_false in Tp. fold o0. rewrite Tp.
      destruct (PaymentReceiptVoucher.type v);
        [rewrite addDebit_empty | rewrite addCredit_empty]; auto.
  - set (o0 := ensureLedger (ContraVoucher.toAccount v)
                 (ensureLedger (ContraVoucher.fromAccount v) o)).
    assert (N0 : noEmptyKey o0) by (now repeat apply noEmptyKey_ensureLedger).
    destruct (truthyStr (ContraVoucher.fromAccount v)) eqn:Tf.
    + assert (Et : ContraVoucher.toAccount v = "").
      { apply truthyStr_false.
        destruct (truthyStr (ContraVoucher.toAccount v));
          [exfalso; apply G; auto | reflexivity]. }
      assert (Hf : present (ContraVoucher.fromAccount v) o0)
        by (apply ensureLedger_keeps_present; now apply ensureLedger_present).
      destruct (addCredit_ok _ (ContraVoucher.amount v) _ Hf) as (o1 & E1 & _).
      rewrite E1; cbn [bindExn]. rewrite Et. apply addDebit_empty.
      exact (noEmptyKey_addCredit _ _ _ _ N0 E1).
    + apply truthyStr_false in Tf. fold o0. rewrite Tf.
      now rewrite addCredit_empty.
  - tauto.
Qed.

Lemma forEach_post_outcome (vs : list Voucher) (o : Obj Balance.t) :
  noEmptyKey o ->
  (Forall namesGiven vs /\ exists o', forEachExn post vs o = Ok o') \/
  (~ Forall namesGiven vs /\ forEachExn post vs o = Throw notAnObject).
Proof.
  revert o. induction vs as [| v r IH]; intros o N; simpl.
  - left. split; [constructor | eauto].
  - destruct (namesGiven_dec v) as [G | G].
    + destruct (post_ok v o G) as (o1 & E). rewrite E; cbn [bindExn].
      assert (N1 : noEmptyKey o1).
      { exact (post_preserves noEmptyKey noEmptyKey_ensureLedger noEmptyKey_addDebit
                 noEmptyKey_addCredit v o o1 N E). }
      destruct (IH o1 N1) as [[F Ok1] | [F Th]].
      * left. split; [now constructor | exact Ok1].
      * right. split; [| exact Th]. intros F'. inversion F'; auto.
    + right. split; [intros F'; inversion F'; auto |].
      now rewrite (post_throws v o N G).
Qed.

(** X2: [trialBalanceData] returns a trial balance exactly when every
    voucher names the ledgers it posts to; as soon as one Purchase, Sales,
    Payment, Receipt or Contra voucher has an empty party or account name
    it throws the TypeError of reading a property of [undefined], whatever
    the master ledgers are. *)
Theorem trial_balance_throws_on_missing_name (vouchers : list Voucher)
  (ledgers : list Ledger.t) :
  (Forall namesGiven vouchers <->
   exists tb, trialBalanceData vouchers ledgers TrialBalance = Ok (Some tb)) /\
  (~ Forall namesGiven vouchers <->
   trialBalanceData vouchers ledgers TrialBalance = Throw notAnObject).
Proof.
  unfold trialBalanceData; simpl.
  set (o0 := fold_left (fun b l => ensureLedger (Ledger.name l) b) ledgers []).
  assert (N0 : noEmptyKey o0) by (apply noEmptyKey_initial; reflexivity).
  destruct (forEach_post_outcome vouchers o0 N0) as [[F (o' & E)] | [F E]];
    rewrite E; cbn [bindExn].
  - split; split; try tauto; try discriminate. intros _. eauto.
  - split; split; try tauto; try discriminate.
    intros (tb & H). discriminate.
Qed.

(** X27: without vouchers the trial balance has no row and zero totals,
    whatever the master ledgers: a ledger that nothing was posted to is
    never shown. *)
Theorem trial_balance_of_no_vouchers (ledgers : list Ledger.t) :
  trialBalanceData [] ledgers TrialBalance
  = Ok (Some (TrialBalance.mk [] (Balance.mk 0 0))).
Proof.
  unfold trialBalanceData; simpl.
  assert (Z : forall o : Obj Balance.t,
             Forall (fun e => snd e = Balance.mk 0 0) o ->
             Forall (fun e => snd e = Balance.mk 0 0)
               (fold_left (fun b l => ensureLedger (Ledger.name l) b) ledgers o)).
  { induction ledgers as [| l r IH]; intros o F; simpl; [exact F |].
    apply IH. unfold ensureLedger. destruct (andb _ _); [| exact F].
    clear - F. induction o as [| [k b] t IHo]; simpl.
    - repeat constructor.
    - inversion F; subst. destruct (String.eqb _ k); constructor; auto. }
  specialize (Z [] (Forall_nil _)).
  set (o := fold_left (fun b l => ensureLedger (Ledger.name l) b) ledgers []) in *.
  assert (R : filter emitted (List.map netRow o) = []).
  { clearbody o. induction Z as [| [k b] t Hb Ht IHt]; simpl; [reflexivity |].
    simpl in Hb. subst b. exact IHt. }
  now rewrite R.
Qed.

End MissingNames.

(* ===================================================================== *)
(** * The ledger report, the day book and the sales tax report            *)
(* ===================================================================== *)

Section ReportFacts.
Import Spec ReportsPage.








(** ** filteredVouchers *)

Lemma filter_filter {A} (p : A -> bool) (l : list A) :
  filter p (filter p l) = filter p l.
Proof.
  induction l as [| a r IH]; simpl; [reflexivity |].
  destruct (p a) eqn:E; simpl; [rewrite E; f_equal |]; exact IH.
Qed.

(** X4: whatever the report and the filters, [filteredVouchers] returns
    the vouchers that pass some test, in their order: it adds, repeats and
    reorders nothing; and filtering its result again with the same
    settings changes nothing. *)
Theorem filteredVouchers_selects (vouchers : list Voucher) (reportType : ReportType)
  (selectedLedger filterDate filterMonth : string) :
  (exists p, filteredVouchers vouchers reportType selectedLedger filterDate filterMonth
             = filter p vouchers) /\
  filteredVouchers
    (filteredVouchers vouchers reportType selectedLedger filterDate filterMonth)
    reportType selectedLedger filterDate filterMonth
  = filteredVouchers vouchers reportType selectedLedger filterDate filterMonth.
Proof.
  unfold filteredVouchers.
  assert (T : vouchers = filter (fun _ => true) vouchers).
  { induction vouchers as [| v r IH]; simpl; [reflexivity | now f_equal]. }
  destruct (andb _ _).
  - split; [eauto | apply filter_filter].
  - destruct (ReportType_eqb reportType DayBook); [| split; [eauto | reflexivity]].
    destruct (truthyStr filterDate); [split; [eauto | apply filter_filter] |].
    destruct (truthyStr filterMonth); [split; [eauto | apply filter_filter] |].
    split; [eauto | reflexivity].
Qed.

Lemma prefix_trans_eq (m d : string) :
  String.prefix m d = true -> forall s, String.eqb s d = true -> String.prefix m s = true.
Proof. intros P s E. apply String.eqb_eq in E. now subst. Qed.

(** X5: in the Day Book the date filter wins over the month filter, and a
    day of a month shows a part of what the month shows: when the date
    string starts with the month string, every voucher listed for the
    date is listed for the month. *)
Theorem day_book_date_within_month (vouchers : list Voucher)
  (selectedLedger filterDate filterMonth other : string) (v : Voucher) :
  truthyStr filterDate = true ->
  truthyStr filterMonth = true ->
  String.prefix filterMonth filterDate = true ->
  filteredVouchers vouchers DayBook selectedLedger filterDate other
  = filteredVouchers vouchers DayBook selectedLedger filterDate "" /\
  (In v (filteredVouchers vouchers DayBook selectedLedger filterDate "") ->
   In v (filteredVouchers vouchers DayBook selectedLedger "" filterMonth)).
Proof.
  intros Td Tm P. unfold filteredVouchers. cbn [ReportType_eqb andb truthyStr].
  rewrite Td, Tm. split; [reflexivity |].
  rewrite !filter_In. intros [Hin E]. split; [exact Hin |].
  exact (prefix_trans_eq filterMonth filterDate P _ E).
Qed.

(** The sale of 3 April is listed for the month of April. *)
Lemma day_book_april_third :
  In Sample.saleWidgets
    (filteredVouchers [Sample.purchaseWidgets; Sample.saleWidgets] DayBook ""
       "" "2025-04").
Proof.
  apply (day_book_date_within_month [Sample.purchaseWidgets; Sample.saleWidgets]
           "" "2025-04-03" "2025-04" "" Sample.saleWidgets); try reflexivity.
  left. reflexivity.
Defined.

(** ** salesTaxData *)

Lemma fold_addSale5 (vs : list SalesPurchaseVoucher.t) (acc : SalesTax.t) :
  SalesTax.taxable (fold_left addSale5 vs acc)
  == SalesTax.taxable acc + sumOf SalesPurchaseVoucher.totalTaxableAmount vs /\
  SalesTax.cgst (fold_left addSale5 vs acc)
  == SalesTax.cgst acc + sumOf SalesPurchaseVoucher.totalCgst vs /\
  SalesTax.sgst (fold_left addSale5 vs acc)
  == SalesTax.sgst acc + sumOf SalesPurchaseVoucher.totalSgst vs /\
  SalesTax.igst (fold_left addSale5 vs acc)
  == SalesTax.igst acc + sumOf SalesPurchaseVoucher.totalIgst vs /\
  SalesTax.total (fold_left addSale5 vs acc)
  == SalesTax.total acc + sumOf SalesPurchaseVoucher.total vs.
Proof.
  unfold sumOf. revert acc.
  induction vs as [| v r IH]; intros acc; cbn [fold_left List.map Qsum].
  - repeat split; lra.
  - destruct (IH (addSale5 acc v)) as (A & B & C & D & E).
    rewrite A, B, C, D, E. unfold addSale5; simpl. repeat split; lra.
Qed.

Lemma Qsum_Permutation (l l' : list number) : Permutation l l' -> Qsum l == Qsum l'.
Proof.
  induction 1; simpl; lra.
Qed.

Lemma sumOf_partition (f : SalesPurchaseVoucher.t -> number)
  (p q : SalesPurchaseVoucher.t -> bool) (vs : list SalesPurchaseVoucher.t) :
  (forall v, q v = negb (p v)) ->
  sumOf f (filter p vs) + sumOf f (filter q vs) == sumOf f vs.
Proof.
  intros N. unfold sumOf. rewrite <- Qsum_app, <- map_app.
  apply Qsum_Permutation, Permutation_map, filter_partition, N.
Qed.

(** X6: when the totals of the Sales vouchers are whole numbers with
    magnitudes adding up to at most 2^53, so that binary64 adds them
    without rounding in any order, the Sales Tax report and the GSTR-1
    report of the same vouchers reconcile: the taxable value, the total
    tax (CGST + SGST + IGST) and the invoice value of the B2B invoices
    and of the B2C invoices add up to the figures of the Sales Tax
    report. *)
Theorem sales_tax_reconciles_with_gstr1 (vouchers : list Voucher)
  (ledgers : list Ledger.t) :
  exactlySummable (flat_map totalsOf (salesOf vouchers)) ->
  exists st g,
    salesTaxData vouchers SalesTaxReport = Some st /\
    gstr1Data vouchers ledgers GSTR1 = Some g /\
    SalesTax.taxable st
    == sumOf SalesPurchaseVoucher.totalTaxableAmount (Gstr1.b2b g)
       + sumOf SalesPurchaseVoucher.totalTaxableAmount (Gstr1.b2c g) /\
    SalesTax.cgst st + SalesTax.sgst st + SalesTax.igst st
    == sumOf totalTax (Gstr1.b2b g) + sumOf totalTax (Gstr1.b2c g) /\
    SalesTax.total st
    == sumOf SalesPurchaseVoucher.total (Gstr1.b2b g)
       + sumOf SalesPurchaseVoucher.total (Gstr1.b2c g).
Proof.
  intros _. eexists. eexists. split; [reflexivity |]. split; [reflexivity |].
  cbn [Gstr1.b2b Gstr1.b2c].
  destruct (fold_addSale5 (salesOf vouchers) (SalesTax.mk 0 0 0 0 0))
    as (A & B & C & D & E). simpl in A, B, C, D, E.
  rewrite !(sumOf_partition _ (isB2b ledgers) (isB2c ledgers) (salesOf vouchers)
              (isB2c_negb ledgers)).
  rewrite A, B, C, D, E. repeat split; try lra.
  unfold sumOf, totalTax. clear. induction (salesOf vouchers) as [| v r IH]; simpl; lra.
Qed.

(** One sale to Acme, next to a purchase: 100 + 18 = 118. *)
Lemma sales_tax_reconciles_with_gstr1_one_sale :
  exists st g,
    salesTaxData [VSalesPurchase Sample.saleToAcme; Sample.purchaseX] SalesTaxReport
    = Some st /\
    gstr1Data [VSalesPurchase Sample.saleToAcme; Sample.purchaseX] [Sample.acme] GSTR1
    = Some g /\
    SalesTax.total st
    == sumOf SalesPurchaseVoucher.total (Gstr1.b2b g)
       + sumOf SalesPurchaseVoucher.total (Gstr1.b2c g).
Proof.
  destruct (sales_tax_reconciles_with_gstr1
              [VSalesPurchase Sample.saleToAcme; Sample.purchaseX] [Sample.acme])
    as (st & g & E & G & _ & _ & T).
  - split; [repeat constructor; vm_compute; reflexivity | vm_compute; discriminate].
  - exists st, g. auto.
Defined.

(** X7: when the totals of the Sales vouchers are whole numbers with
    magnitudes adding up to at most 2^53, so that binary64 adds them
    without rounding, the Sales Tax report counts the Sales vouchers
    only, each figure being the sum of the corresponding voucher-level
    total; and when, besides, the total of every Sales voucher closes
    (total = taxable + cgst + sgst + igst), so does the report. *)
Theorem sales_tax_total_closes (vouchers : list Voucher) :
  exactlySummable (flat_map totalsOf (salesOf vouchers)) ->
  (forall v, In (VSalesPurchase v) vouchers -> SalesPurchaseVoucher.type v = Sales ->
             totalCloses v) ->
  exists st,
    salesTaxData vouchers SalesTaxReport = Some st /\
    SalesTax.taxable st == sumOf SalesPurchaseVoucher.totalTaxableAmount (salesOf vouchers) /\
    SalesTax.total st == sumOf getVoucherAmountOfSale (salesOf vouchers) /\
    SalesTax.total st
    == SalesTax.taxable st + SalesTax.cgst st + SalesTax.sgst st + SalesTax.igst st.
Proof.
  intros _ Cl. eexists. split; [reflexivity |].
  destruct (fold_addSale5 (salesOf vouchers) (SalesTax.mk 0 0 0 0 0))
    as (A & B & C & D & E). simpl in A, B, C, D, E.
  assert (X : sumOf getVoucherAmountOfSale (salesOf vouchers)
              = sumOf SalesPurchaseVoucher.total (salesOf vouchers)) by reflexivity.
  split; [lra |]. split; [rewrite X, E; unfold sumOf; lra |].
  rewrite A, B, C, D, E.
  assert (F : Forall totalCloses (salesOf vouchers)).
  { apply Forall_forall. intros v Hv. apply salesOf_In in Hv. destruct Hv. auto. }
  clear - F. unfold sumOf. induction F as [| v r Hv Hr IH]; simpl; [lra |].
  unfold totalCloses in Hv. lra.
Qed.

(** One sale that closes, next to a purchase. *)
Lemma sales_tax_total_closes_one_sale :
  exists st,
    salesTaxData [VSalesPurchase Sample.saleToAcme; Sample.purchaseX] SalesTaxReport
    = Some st /\
    SalesTax.total st == 118.
Proof.
  destruct (sales_tax_total_closes [VSalesPurchase Sample.saleToAcme; Sample.purchaseX])
    as (st & E & _ & _ & T).
  - split; [repeat constructor; vm_compute; reflexivity | vm_compute; discriminate].
  - intros v [H | [H | []]] Ty.
    + injection H as <-. vm_compute. reflexivity.
    + injection H as <-. discriminate.
  - exists st. split; [exact E |].
    injection E as <-. vm_compute. reflexivity.
Defined.

End ReportFacts.

(* ===================================================================== *)
(** * The list of uploaded files                                          *)
(* ===================================================================== *)

Section FileListFacts.
Import Spec MassUploadModal.

Lemma known_app (files more : list MassUploadFile.t) (id : string) :
  known (files ++ more) id = orb (known files id) (known more id).
Proof. unfold known. apply existsb_app. Qed.

Lemma known_In (files : list MassUploadFile.t) (id : string) :
  known files id = true <-> In id (List.map MassUploadFile.id files).
Proof.
  unfold known. rewrite existsb_exists, in_map_iff. split.
  - intros (f & Hf & E). apply String.eqb_eq in E. eauto.
  - intros (f & E & Hf). exists f. split; [exact Hf | now apply String.eqb_eq].
Qed.

Lemma filter_none {A} (p : A -> bool) (l : list A) :
  (forall a, In a l -> p a = false) -> filter p l = [].
Proof.
  induction l as [| x r IH]; intros H; simpl; [reflexivity |].
  rewrite (H x (or_introl eq_refl)). apply IH. intros a Ha. apply H. now right.
Qed.

Lemma filter_map_length {A} (p : A -> bool) (g : A -> A) (l : list A) :
  (forall a, p (g a) = p a) ->
  List.length (filter p (List.map g l)) = List.length (filter p l).
Proof.
  intros H. induction l as [| x r IH]; cbn [List.map filter]; [reflexivity |].
  rewrite H. destruct (p x); cbn [List.length]; now rewrite IH.
Qed.

Lemma handleFileSelect_new (selectedFiles : list File.t) (files : list MassUploadFile.t) :
  handleFileSelect selectedFiles files
  = files ++ List.map entryOf
               (filter (fun file => negb (known files (fileId file))) selectedFiles).
Proof. reflexivity. Qed.

(** X8: [handleFileSelect] keeps the list and appends, as pending entries
    without data, the selected files whose id is not in the list yet;
    afterwards every selected file is in the list under its id, and
    selecting the same files again adds nothing. *)
Theorem select_adds_new_pending_files (selectedFiles : list File.t)
  (files : list MassUploadFile.t) :
  exists added,
    handleFileSelect selectedFiles files = files ++ List.map entryOf added /\
    (forall file, In file added <->
                  In file selectedFiles /\ known files (fileId file) = false) /\
    (forall file, In file selectedFiles ->
                  known (handleFileSelect selectedFiles files) (fileId file) = true) /\
    handleFileSelect selectedFiles (handleFileSelect selectedFiles files)
    = handleFileSelect selectedFiles files.
Proof.
  exists (filter (fun file => negb (known files (fileId file))) selectedFiles).
  split; [reflexivity |].
  assert (K : forall file, In file selectedFiles ->
                known (handleFileSelect selectedFiles files) (fileId file) = true).
  { intros file Hin. rewrite handleFileSelect_new, known_app.
    destruct (known files (fileId file)) eqn:E; [reflexivity |]. simpl.
    apply known_In. rewrite map_map. apply in_map_iff. exists file.
    split; [reflexivity |]. apply filter_In. now rewrite E. }
  split; [| split; [exact K |]].
  - intros file. rewrite filter_In, negb_true_iff. tauto.
  - rewrite (handleFileSelect_new selectedFiles (handleFileSelect selectedFiles files)).
    replace (filter _ selectedFiles) with (@nil File.t); [simpl; apply app_nil_r |].
    symmetry. apply filter_none. intros file Hin. now rewrite (K file Hin).
Qed.

(** X9: when the ids of the list are distinct and so are the ids of the
    selected files, the ids stay distinct. *)
Theorem select_keeps_ids_distinct (selectedFiles : list File.t)
  (files : list MassUploadFile.t) :
  NoDup (List.map MassUploadFile.id files) ->
  NoDup (List.map fileId selectedFiles) ->
  NoDup (List.map MassUploadFile.id (handleFileSelect selectedFiles files)).
Proof.
  intros Nf Ns. rewrite handleFileSelect_new, map_app, map_map.
  apply NoDup_app; [exact Nf | |].
  - change (fun x => MassUploadFile.id (entryOf x)) with fileId.
    now apply NoDup_map_filter.
  - intros id Hf Hn. apply in_map_iff in Hn. destruct Hn as (file & E & Hin).
    apply filter_In in Hin. destruct Hin as [_ Kn]. apply negb_true_iff in Kn.
    simpl in E. subst id. apply known_In in Hf. congruence.
Qed.

Lemma select_keeps_ids_distinct_twice :
  NoDup (List.map MassUploadFile.id
           (handleFileSelect [Sample.png "b.png"; Sample.png "a.png"]
              (handleFileSelect [Sample.png "a.png"] []))).
Proof.
  apply select_keeps_ids_distinct.
  - repeat constructor; simpl; intuition discriminate.
  - repeat constructor; simpl; intuition discriminate.
Defined.



(** ** handleDataChange *)

Lemma handleDataChange_In (fileId' : string) (patch : DataPatch)
  (prevFiles : list MassUploadFile.t) (f' : MassUploadFile.t) :
  In f' (handleDataChange fileId' patch prevFiles) ->
  exists f, In f prevFiles /\
            MassUploadFile.id f' = MassUploadFile.id f /\
            MassUploadFile.status f' = MassUploadFile.status f /\
            MassUploadFile.file f' = MassUploadFile.file f /\
            ((MassUploadFile.id f = fileId' /\
              exists data, MassUploadFile.extractedData f = Some data /\
                           MassUploadFile.extractedData f'
                           = Some (applyDataPatch patch data)) \/
             ((MassUploadFile.id f <> fileId' \/ MassUploadFile.extractedData f = None) /\
              f' = f)).
Proof.
  unfold handleDataChange. intros H. apply in_map_iff in H. destruct H as (f & E & Hf).
  exists f. split; [exact Hf |].
  destruct (String.eqb (MassUploadFile.id f) fileId') eqn:I.
  - apply String.eqb_eq in I.
    destruct (MassUploadFile.extractedData f) as [data |] eqn:D; subst f'.
    + repeat split. left. split; [exact I |]. exists data. auto.
    + repeat split. right. auto.
  - apply String.eqb_neq in I. subst f'. repeat split. right. auto.
Qed.

(** X11: setting the invoice date of a file with [handleDataChange]
    changes neither the ids nor the statuses of the files, so the
    'ready to import' counter stays as it is; and when the new date
    parses and so do the dates of the other files to save, [handleSave]
    then returns one voucher per successfully extracted file. *)
Theorem date_edit_lets_save (ledgers : list Ledger.t) (stockItems : list StockItem.t)
  (companyDetails : CompanyDetails.t) (dateHost : DateHost.t)
  (fileId' date : string) (files : list MassUploadFile.t) :
  DateHost.parse dateHost date <> None ->
  (forall f data, In f files -> MassUploadFile.status f = success ->
                  MassUploadFile.extractedData f = Some data ->
                  MassUploadFile.id f <> fileId' ->
                  DateHost.parse dateHost (ExtractedInvoiceData.invoiceDate data) <> None) ->
  let files' := handleDataChange fileId' (SetInvoiceDate date) files in
  List.map MassUploadFile.id files' = List.map MassUploadFile.id files /\
  List.map MassUploadFile.status files' = List.map MassUploadFile.status files /\
  successCount files' = successCount files /\
  exists vs,
    handleSave ledgers stockItems companyDetails dateHost files' = Ok vs /\
    List.length vs = List.length (filter savable files).
Proof.
  intros Pd Po files'.
  assert (Step : forall f,
            let g := if String.eqb (MassUploadFile.id f) fileId'
                     then match MassUploadFile.extractedData f with
                          | Some data => withExtractedData
                                           (applyDataPatch (SetInvoiceDate date) data) f
                          | None => f
                          end
                     else f in
            MassUploadFile.id g = MassUploadFile.id f /\
            MassUploadFile.status g = MassUploadFile.status f /\
            savable g = savable f).
  { intros f. cbn zeta. destruct (String.eqb _ _); [| auto].
    destruct (MassUploadFile.extractedData f) eqn:D; [| auto].
    unfold savable. simpl. rewrite D. auto. }
  assert (Ids : List.map MassUploadFile.id files' = List.map MassUploadFile.id files).
  { unfold files', handleDataChange. rewrite map_map. apply map_ext.
    intros f. apply (Step f). }
  assert (Sts : List.map MassUploadFile.status files'
                = List.map MassUploadFile.status files).
  { unfold files', handleDataChange. rewrite map_map. apply map_ext.
    intros f. apply (Step f). }
  assert (Sav : List.length (filter savable files') = List.length (filter savable files)).
  { unfold files', handleDataChange. apply filter_map_length.
    intros f. apply (Step f). }
  split; [exact Ids |]. split; [exact Sts |]. split.
  - unfold successCount.
    assert (G : forall l : list MassUploadFile.t,
              List.length (filter (fun f => FileStatus_eqb (MassUploadFile.status f) success) l)
              = List.length (filter (fun s => FileStatus_eqb s success)
                               (List.map MassUploadFile.status l))).
    { induction l as [| x r IH]; simpl; [reflexivity |].
      destruct (FileStatus_eqb _ _); simpl; now rewrite IH. }
    now rewrite !G, Sts.
  - destruct (save_total_on_valid_dates ledgers stockItems companyDetails dateHost files')
      as (vs & E & L).
    + intros f' data' Hin St Da.
      apply handleDataChange_In in Hin.
      destruct Hin as (f & Hf & _ & Es & _ & [(I & data & D & D') | ([I | D] & ->)]).
      * rewrite D' in Da. injection Da as <-. exact Pd.
      * exact (Po f data' Hf St Da I).
      * congruence.
    + exists vs. split; [exact E |]. now rewrite L.
Qed.

(** The batch of [save_throws_on_empty_date] after the date of its second
    invoice is set. *)
Lemma date_edit_lets_save_the_batch :
  exists vs,
    handleSave [Sample.acme] [Sample.widget] Sample.company Sample.isoDates
      (handleDataChange (MassUploadFile.id Sample.fileNoDate) (SetInvoiceDate "2025-03-02")
         [Sample.fileA; Sample.fileNoDate]) = Ok vs /\
    List.length vs = 2%nat.
Proof.
  destruct (date_edit_lets_save [Sample.acme] [Sample.widget] Sample.company
              Sample.isoDates (MassUploadFile.id Sample.fileNoDate) "2025-03-02"
              [Sample.fileA; Sample.fileNoDate]) as (_ & _ & _ & vs & E & L).
  - discriminate.
  - intros f data [<- | [<- | []]] _ D I.
    + injection D as <-. discriminate.
    + exfalso. apply I. reflexivity.
  - exists vs. split; [exact E | exact L].
Defined.

End FileListFacts.

(* ===================================================================== *)
(** * The batch after processing                                          *)
(* ===================================================================== *)

Section BatchFacts.
Import Spec GeminiService MassUploadModal.
Variable host : Host.

Lemma finishWith_settled (f g : MassUploadFile.t) : settled (finishWith host f g).
Proof.
  unfold settled, finishWith.
  destruct (snd (extractInvoiceDataWithRetry host (MassUploadFile.file f)
                   maxRetriesDefault initialDelayDefault)); simpl; auto.
Qed.

Lemma finishWith_file (f g : MassUploadFile.t) :
  MassUploadFile.file (finishWith host f g) = MassUploadFile.file g.
Proof.
  unfold finishWith.
  destruct (snd (extractInvoiceDataWithRetry host (MassUploadFile.file f)
                   maxRetriesDefault initialDelayDefault)); reflexivity.
Qed.

(** What [settleStep] keeps is kept by [settleAll]. *)
Lemma settleAll_preserves (P : MassUploadFile.t -> Prop) :
  (forall f g, P (finishWith host f g)) ->
  forall fs g, P g -> P (settleAll host fs g).
Proof.
  intros Fin. unfold settleAll. induction fs as [| x r IH]; intros g Pg; simpl; [exact Pg |].
  apply IH. unfold settleStep. destruct (andb _ _); [apply Fin | exact Pg].
Qed.

Lemma settleAll_id (fs : list MassUploadFile.t) (g : MassUploadFile.t) :
  MassUploadFile.id (settleAll host fs g) = MassUploadFile.id g /\
  MassUploadFile.file (settleAll host fs g) = MassUploadFile.file g.
Proof.
  unfold settleAll. revert g. induction fs as [| x r IH]; intros g; simpl; [auto |].
  destruct (IH (settleStep host g x)) as [A B]. rewrite A, B. unfold settleStep.
  destruct (andb _ _); [| auto]. now rewrite finishWith_id, finishWith_file.
Qed.

Lemma settleAll_pending (fs : list MassUploadFile.t) (g : MassUploadFile.t) :
  In g fs -> MassUploadFile.status g = pending -> settled (settleAll host fs g).
Proof.
  induction fs as [| x r IH]; intros Hin P; [destruct Hin |].
  change (settleAll host (x :: r) g) with (settleAll host r (settleStep host g x)).
  destruct Hin as [-> | Hin].
  - apply (settleAll_preserves settled finishWith_settled).
    unfold settleStep. rewrite String.eqb_refl, P. simpl. apply finishWith_settled.
  - unfold settleStep. destruct (andb _ _).
    + apply (settleAll_preserves settled finishWith_settled), finishWith_settled.
    + now apply IH.
Qed.

Lemma count_all {A} (p : A -> bool) (l : list A) :
  (forall a, In a l -> p a = true) -> List.length (filter p l) = List.length l.
Proof.
  induction l as [| x r IH]; intros H; simpl; [reflexivity |].
  rewrite (H x (or_introl eq_refl)). simpl. f_equal. apply IH.
  intros a Ha. apply H. now right.
Qed.

(** X12: after [startProcessing] no file is pending any more, the files
    are the same files under the same ids in the same order; and when no
    file was 'processing' to begin with, every file is completed
    ('success' or 'error'). *)
Theorem processing_leaves_no_pending_file (files : list MassUploadFile.t) :
  let files' := fst (startProcessing host files) in
  hasPendingFiles files' = false /\
  List.map MassUploadFile.id files' = List.map MassUploadFile.id files /\
  List.map MassUploadFile.file files' = List.map MassUploadFile.file files /\
  ((forall f, In f files -> MassUploadFile.status f <> processing) ->
   completedCount files' = List.length files).
Proof.
  cbn zeta. unfold startProcessing. rewrite fold_processFile. cbn [fst].
  assert (S : forall g, In g files -> MassUploadFile.status g <> processing ->
                        settled (settleAll host files g)).
  { intros g Hg Np. destruct (MassUploadFile.status g) eqn:St.
    - now apply settleAll_pending.
    - congruence.
    - apply (settleAll_preserves settled finishWith_settled). left. exact St.
    - apply (settleAll_preserves settled finishWith_settled). right. exact St. }
  assert (NP : forall g, In g files ->
                         MassUploadFile.status (settleAll host files g) <> pending).
  { intros g Hg. destruct (MassUploadFile.status g) eqn:St.
    - destruct (settleAll_pending files g Hg St) as [E | E]; congruence.
    - apply (settleAll_preserves
               (fun f => MassUploadFile.status f <> pending)); [| congruence].
      intros f g'. destruct (finishWith_settled f g') as [E | E]; congruence.
    - apply (settleAll_preserves
               (fun f => MassUploadFile.status f <> pending)); [| congruence].
      intros f g'. destruct (finishWith_settled f g') as [E | E]; congruence.
    - apply (settleAll_preserves
               (fun f => MassUploadFile.status f <> pending)); [| congruence].
      intros f g'. destruct (finishWith_settled f g') as [E | E]; congruence. }
  split; [| split; [| split]].
  - unfold hasPendingFiles. destruct (existsb _ _) eqn:E; [| reflexivity].
    apply existsb_exists in E. destruct E as (g' & Hg' & P).
    apply in_map_iff in Hg'. destruct Hg' as (g & <- & Hg).
    specialize (NP g Hg). destruct (MassUploadFile.status (settleAll host files g));
      try discriminate. congruence.
  - rewrite map_map. apply map_ext. intros g. apply settleAll_id.
  - rewrite map_map. apply map_ext. intros g. apply settleAll_id.
  - intros Np. unfold completedCount. rewrite count_all; [apply length_map |].
    intros g' Hg'. apply in_map_iff in Hg'. destruct Hg' as (g & <- & Hg).
    destruct (S g Hg (Np g Hg)) as [E | E]; rewrite E; reflexivity.
Qed.

End BatchFacts.

Section BatchSaveFacts.
Import Spec GeminiService MassUploadModal.

(** X13: [handleSave] returns, when it returns, at most as many vouchers
    as the 'ready to import' count of the footer: one per file marked
    'success' that carries extracted data; the two numbers are equal
    when every file marked 'success' carries its data. *)
Theorem saved_vouchers_within_success_count (ledgers : list Ledger.t)
  (stockItems : list StockItem.t) (companyDetails : CompanyDetails.t)
  (dateHost : DateHost.t) (files : list MassUploadFile.t)
  (vs : list SalesPurchaseVoucher.t) :
  handleSave ledgers stockItems companyDetails dateHost files = Ok vs ->
  List.length vs = List.length (filter savable files) /\
  (List.length vs <= successCount files)%nat /\
  (Forall successHasData files -> List.length vs = successCount files).
Proof.
  intros H. unfold handleSave in H. apply mapExn_ok_length in H. rewrite H.
  split; [reflexivity |]. unfold successCount. split.
  - clear. induction files as [| f r IH]; simpl; [lia |].
    unfold savable at 1.
    destruct (FileStatus_eqb (MassUploadFile.status f) success); simpl;
      [destruct (MassUploadFile.extractedData f); simpl; lia | exact IH].
  - intros Inv. clear - Inv.
    induction Inv as [| f r Hf Hr IH]; simpl; [reflexivity |].
    unfold savable at 1. unfold successHasData in Hf.
    destruct (MassUploadFile.status f) eqn:St; simpl; try exact IH.
    destruct (MassUploadFile.extractedData f); [simpl; now rewrite IH |].
    exfalso. now apply Hf.
Qed.

(** The batch of three files, one of which fails: two vouchers. *)
Lemma saved_vouchers_within_success_count_batch :
  exists vs,
    handleSave [Sample.acme] [Sample.widget] Sample.company Sample.isoDates
      (fst (startProcessing Sample.serviceBadFile Sample.batch)) = Ok vs /\
    (List.length vs
     <= successCount (fst (startProcessing Sample.serviceBadFile Sample.batch)))%nat.
Proof.
  eexists. split; [vm_compute; reflexivity |].
  eapply (saved_vouchers_within_success_count [Sample.acme] [Sample.widget]
            Sample.company Sample.isoDates
            (fst (startProcessing Sample.serviceBadFile Sample.batch))).
  vm_compute. reflexivity.
Defined.

End BatchSaveFacts.

(* ===================================================================== *)
(** * Outcomes of an extraction                                           *)
(* ===================================================================== *)

Section OutcomeFacts.
Import Spec GeminiService MassUploadModal.
Variable host : Host.

Lemma doubling_length (n : nat) (d : Z) : List.length (doubling n d) = n.
Proof. revert d. induction n as [| k IH]; intros d; simpl; [reflexivity | now rewrite IH]. Qed.

Lemma retryLoop_first_success (file : File.t) (remaining attempt k : nat) (delay : Z)
  (data : ExtractedInvoiceData.t) :
  (k < remaining)%nat ->
  (forall i, (i < k)%nat -> exists e, tryExtract host file (attempt + i) = Throw e) ->
  tryExtract host file (attempt + k) = Ok data ->
  snd (retryLoop host file remaining attempt delay) = Ok data /\
  attempts (fst (retryLoop host file remaining attempt delay)) = S k.
Proof.
  revert remaining attempt delay.
  induction k as [| k IH]; intros remaining attempt delay L F Hk.
  - destruct remaining as [| rem]; [lia |]. rewrite retryLoop_S.
    rewrite Nat.add_0_r in Hk. rewrite Hk. cbn. auto.
  - destruct remaining as [| rem]; [lia |]. rewrite retryLoop_S.
    destruct (F O ltac:(lia)) as (e & E). rewrite Nat.add_0_r in E. rewrite E.
    destruct rem as [| rem']; [lia |].
    specialize (IH (S rem') (S attempt) (delay * 2)%Z ltac:(lia)).
    destruct (retryLoop host file (S rem') (S attempt) (delay * 2)%Z) as [tr r].
    cbn [fst snd attempts] in *. destruct IH as [A B].
    + intros i Li. destruct (F (S i) ltac:(lia)) as (e' & E').
      exists e'. now rewrite <- E', Nat.add_succ_r.
    + now rewrite <- Hk, Nat.add_succ_r.
    + rewrite A, B. auto.
Qed.

(** X14: when the file is read and the first attempt to succeed is the
    one after [k] failures, within the [maxRetries] allowed,
    [extractInvoiceDataWithRetry] returns the data of that attempt, after
    [k + 1] attempts and [k] delays, the first of [initialDelay] and each
    the double of the one before. *)
Theorem extraction_returns_first_success (file : File.t) (maxRetries k : nat)
  (initialDelay : Z) (b : string) (data : ExtractedInvoiceData.t) :
  fileToBase64 host file = Ok b ->
  (k < maxRetries)%nat ->
  (forall i, (i < k)%nat -> exists e, tryExtract host file i = Throw e) ->
  tryExtract host file k = Ok data ->
  let run := extractInvoiceDataWithRetry host file maxRetries initialDelay in
  snd run = Ok data /\
  attempts (fst run) = S k /\
  delays (fst run) = doubling k initialDelay /\
  List.length (delays (fst run)) = k.
Proof.
  intros B L F Hk. cbn zeta. unfold extractInvoiceDataWithRetry. rewrite B.
  destruct (retryLoop_first_success file maxRetries 0 k initialDelay data L F Hk) as [R A].
  destruct (retryLoop_bounds host file maxRetries 0 initialDelay) as (_ & _ & D).
  rewrite A in D. simpl in D.
  repeat split; try assumption. rewrite D. apply doubling_length.
Qed.

(** X15: the last [throw] of [extractInvoiceDataWithRetry] is reached
    exactly when [maxRetries] is 0: then the file is read, no attempt is
    made, and 'Should not be reached' is thrown; with a positive
    [maxRetries] at least one attempt is made and the outcome is the
    parsed data or the error of the exhausted retries. *)
Theorem extraction_with_no_retries (file : File.t) (maxRetries : nat)
  (initialDelay : Z) (b : string) :
  fileToBase64 host file = Ok b ->
  let run := extractInvoiceDataWithRetry host file maxRetries initialDelay in
  (maxRetries = O -> run = ([], Throw notReached)) /\
  (maxRetries <> O ->
   (1 <= attempts (fst run) <= maxRetries)%nat /\
   ((exists data, snd run = Ok data) \/ snd run = Throw retriesExhausted)).
Proof.
  intros B. cbn zeta. unfold extractInvoiceDataWithRetry. rewrite B. split.
  - intros ->. reflexivity.
  - intros N. destruct (retryLoop_bounds host file maxRetries 0 initialDelay)
      as (A1 & A2 & _).
    split; [split; [now apply A2 | exact A1] |].
    clear A1 A2. generalize 0%nat at 1 2 as attempt. revert initialDelay.
    induction maxRetries as [| rem IH]; intros delay attempt; [congruence |].
    rewrite retryLoop_S. destruct (tryExtract host file attempt) as [d | e].
    + left. cbn. eauto.
    + destruct rem as [| rem']; [right; reflexivity |].
      specialize (IH ltac:(congruence) (delay * 2)%Z (S attempt)).
      destruct (retryLoop host file (S rem') (S attempt) (delay * 2)%Z) as [tr r].
      exact IH.
Qed.

(** X16: when the file cannot be read, no extraction is attempted
    whatever [maxRetries] is, the rejection of [fileToBase64] is what
    [extractInvoiceDataWithRetry] throws, and [startProcessing] marks the
    file 'error' with the message of that error, or with 'Unknown
    extraction error.' when what was thrown is not an [Error]. *)
Theorem unreadable_file_is_not_extracted (f g : MassUploadFile.t) (e : Thrown)
  (maxRetries : nat) (initialDelay : Z) :
  fileToBase64 host (MassUploadFile.file f) = Throw e ->
  extractInvoiceDataWithRetry host (MassUploadFile.file f) maxRetries initialDelay
  = ([], Throw e) /\
  MassUploadFile.status (finishWith host f g) = error /\
  MassUploadFile.error (finishWith host f g) = Some (errorMessage e) /\
  (e = NonError ->
   MassUploadFile.error (finishWith host f g) = Some "Unknown extraction error.").
Proof.
  intros B. unfold finishWith, extractInvoiceDataWithRetry. rewrite B. simpl.
  repeat split. now intros ->.
Qed.

End OutcomeFacts.

Section OutcomeExamples.
Import Spec GeminiService MassUploadModal Sample.

(** The slow service: one failure, one delay of 1000 ms, then the data. *)
Lemma extraction_returns_second_attempt :
  snd (extractInvoiceDataWithRetry serviceSlow (png "a.png") 3 1000)
  = Ok (extracted "2025-03-01" [twoWidgets]) /\
  delays (fst (extractInvoiceDataWithRetry serviceSlow (png "a.png") 3 1000)) = [1000%Z].
Proof.
  destruct (extraction_returns_first_success serviceSlow (png "a.png") 3 1 1000
              "aGVsbG8=" (extracted "2025-03-01" [twoWidgets]))
    as (R & _ & D & _).
  - reflexivity.
  - lia.
  - intros i Li. assert (i = O) by lia. subst. eexists. reflexivity.
  - reflexivity.
  - split; [exact R | exact D].
Defined.

Lemma extraction_with_no_retries_allowed :
  extractInvoiceDataWithRetry serviceSlow (png "a.png") 0 1000 = ([], Throw notReached).
Proof.
  apply (extraction_with_no_retries serviceSlow (png "a.png") 0 1000 "aGVsbG8=");
    reflexivity.
Defined.

Lemma unreadable_file_message :
  MassUploadFile.error (finishWith unreadable (selected "a.png") (selected "a.png"))
  = Some "Unknown extraction error.".
Proof.
  apply (unreadable_file_is_not_extracted unreadable (selected "a.png")
           (selected "a.png") NonError 3 1000); reflexivity.
Defined.

End OutcomeExamples.

(* ===================================================================== *)
(** * What is saved                                                       *)
(* ===================================================================== *)

Section SavedFacts.
Import Spec MassUploadModal.
Variable ledgers : list Ledger.t.
Variable stockItems : list StockItem.t.
Variable companyDetails : CompanyDetails.t.
Variable dateHost : DateHost.t.

Lemma toVoucher_eraseTotals (f : MassUploadFile.t) (data : ExtractedInvoiceData.t) :
  toVoucher ledgers stockItems companyDetails dateHost f (eraseTotals data)
  = toVoucher ledgers stockItems companyDetails dateHost f data.
Proof. reflexivity. Qed.

Lemma toVoucher_same_file (f g : MassUploadFile.t) (data : ExtractedInvoiceData.t) :
  MassUploadFile.file f = MassUploadFile.file g ->
  toVoucher ledgers stockItems companyDetails dateHost f data
  = toVoucher ledgers stockItems companyDetails dateHost g data.
Proof. unfold toVoucher. now intros ->. Qed.

Lemma recalculated_sameButTotals (f : MassUploadFile.t) :
  sameButTotals (recalculated ledgers stockItems companyDetails f) f.
Proof.
  unfold sameButTotals, recalculated.
  destruct (MassUploadFile.extractedData f) as [d |] eqn:D; simpl;
    rewrite ?D; repeat split.
Qed.

(** X17: [handleSave] does not look at the advisory totals of the
    extracted data (subtotal, cgstAmount, sgstAmount, totalAmount): two
    lists of files that differ in them only are saved alike; and so
    recalculating the invoices, which changes nothing else, changes
    nothing of what is saved. *)
Theorem save_ignores_advisory_totals (files files' : list MassUploadFile.t) :
  (Forall2 sameButTotals files files' ->
   handleSave ledgers stockItems companyDetails dateHost files
   = handleSave ledgers stockItems companyDetails dateHost files') /\
  handleSave ledgers stockItems companyDetails dateHost
    (List.map (recalculated ledgers stockItems companyDetails) files)
  = handleSave ledgers stockItems companyDetails dateHost files.
Proof.
  assert (G : forall l l', Forall2 sameButTotals l l' ->
                handleSave ledgers stockItems companyDetails dateHost l
                = handleSave ledgers stockItems companyDetails dateHost l').
  { intros l l' F. unfold handleSave. induction F as [| f g r r' S Fr IH]; [reflexivity |].
    destruct S as (_ & Ef & Es & Ed).
    assert (Sv : savable f = savable g).
    { unfold savable. rewrite Es.
      destruct (MassUploadFile.extractedData f), (MassUploadFile.extractedData g);
        try discriminate; reflexivity. }
    cbn [filter]. rewrite Sv. destruct (savable g); [| exact IH].
    cbn [mapExn]. rewrite IH.
    destruct (MassUploadFile.extractedData f) as [d |],
             (MassUploadFile.extractedData g) as [d' |]; try discriminate;
      [| reflexivity].
    assert (T : toVoucher ledgers stockItems companyDetails dateHost f d
                = toVoucher ledgers stockItems companyDetails dateHost g d').
    { rewrite <- (toVoucher_eraseTotals f d), <- (toVoucher_eraseTotals g d').
      cbn [option_map] in Ed.
      assert (Ed' : eraseTotals d = eraseTotals d') by congruence.
      rewrite Ed'. now apply toVoucher_same_file. }
    now rewrite T. }
  split; [apply G |]. apply G.
  induction files as [| f r IH]; simpl; constructor; auto.
  apply recalculated_sameButTotals.
Qed.

Lemma items_regime (isInterState : bool) (lines : list ExtractedLineItem.t) :
  let items := List.map (toVoucherItem stockItems isInterState) lines in
  Qsum (List.map VoucherItem.cgstAmount items)
  == Qsum (List.map VoucherItem.sgstAmount items) /\
  (isInterState = true -> Qsum (List.map VoucherItem.cgstAmount items) == 0) /\
  (isInterState = false -> Qsum (List.map VoucherItem.igstAmount items) == 0).
Proof.
  cbn zeta. induction lines as [| l r IH]; cbn [List.map Qsum].
  - repeat split; intros; lra.
  - destruct IH as (A & B & C). unfold toVoucherItem at 1 3 5 7.
    cbn [VoucherItem.cgstAmount VoucherItem.sgstAmount VoucherItem.igstAmount].
    destruct isInterState.
    + specialize (B eq_refl). repeat split; intros; try discriminate; lra.
    + specialize (C eq_refl). repeat split; intros; try discriminate; lra.
Qed.

(** The tax totals of a saved voucher. *)
Lemma saved_totals (files : list MassUploadFile.t) (vs : list SalesPurchaseVoucher.t)
  (v : SalesPurchaseVoucher.t) :
  handleSave ledgers stockItems companyDetails dateHost files = Ok vs ->
  In v vs ->
  SalesPurchaseVoucher.totalCgst v == SalesPurchaseVoucher.totalSgst v /\
  (SalesPurchaseVoucher.isInterState v = true ->
   SalesPurchaseVoucher.totalCgst v == 0) /\
  (SalesPurchaseVoucher.isInterState v = false ->
   SalesPurchaseVoucher.totalIgst v == 0).
Proof.
  intros H Hv.
  destruct (handleSave_origin ledgers stockItems companyDetails dateHost _ _ _ H Hv)
    as (f & data & _ & _ & _ & E).
  apply toVoucher_ok in E. destruct E as (_ & _ & _ & Items & Tt & Tc & Ts & Ti & Tg).
  destruct (fold_addItem (SalesPurchaseVoucher.items v) (mkTotals 0 0 0 0 0))
    as (A & B & C & D & G).
  rewrite <- Tt in A. rewrite <- Tc in B. rewrite <- Ts in C.
  rewrite <- Ti in D. rewrite <- Tg in G. simpl in A, B, C, D, G.
  destruct (items_regime (SalesPurchaseVoucher.isInterState v)
              (orEmpty (ExtractedInvoiceData.lineItems data))) as (R1 & R2 & R3).
  cbn zeta in *. rewrite <- Items in R1, R2, R3.
  repeat split; intros; try lra.
  - specialize (R2 H0). lra.
  - specialize (R3 H0). lra.
Qed.

(** X18: a saved voucher is taxed in one regime only: its totalCgst and
    totalSgst are equal, they are 0 on an inter-state voucher, the
    totalIgst is 0 on any other; and a seller that matches no ledger, or a
    ledger or company without a state, gives a voucher that is not
    inter-state. *)
Theorem saved_voucher_regime (files : list MassUploadFile.t)
  (vs : list SalesPurchaseVoucher.t) (v : SalesPurchaseVoucher.t) :
  handleSave ledgers stockItems companyDetails dateHost files = Ok vs ->
  In v vs ->
  SalesPurchaseVoucher.totalCgst v == SalesPurchaseVoucher.totalSgst v /\
  (SalesPurchaseVoucher.isInterState v = true ->
   SalesPurchaseVoucher.totalCgst v == 0 /\ SalesPurchaseVoucher.totalSgst v == 0) /\
  (SalesPurchaseVoucher.isInterState v = false ->
   SalesPurchaseVoucher.totalIgst v == 0) /\
  (findPartyLedger ledgers (SalesPurchaseVoucher.party v) = None ->
   SalesPurchaseVoucher.isInterState v = false) /\
  (CompanyDetails.state companyDetails = None ->
   SalesPurchaseVoucher.isInterState v = false) /\
  (forall l, findPartyLedger ledgers (SalesPurchaseVoucher.party v) = Some l ->
             Ledger.state l = None \/ Ledger.state l = Some "" ->
             SalesPurchaseVoucher.isInterState v = false).
Proof.
  intros H Hv. destruct (saved_totals files vs v H Hv) as (A & B & C).
  destruct (handleSave_origin ledgers stockItems companyDetails dateHost _ _ _ H Hv)
    as (f & data & _ & _ & _ & E).
  apply toVoucher_ok in E. destruct E as (_ & Pa & In' & _).
  rewrite In', Pa in *. unfold interStateOf.
  split; [exact A |]. split; [intros I; specialize (B I); split; lra |].
  split; [exact C |]. split; [now intros -> |]. split.
  - intros Cs. destruct (findPartyLedger ledgers _) as [l |]; [| reflexivity].
    rewrite Cs. now destruct (Ledger.state l).
  - intros l -> [-> | ->]; [reflexivity |].
    now destruct (CompanyDetails.state companyDetails).
Qed.

End SavedFacts.

Section SavedExamples.
Import Spec MassUploadModal Sample.

(** Scenario A, intra-state: no IGST. *)
Lemma saved_voucher_regime_scenario_A :
  exists v,
    handleSave [acme] [widget] company isoDates [fileA] = Ok [v] /\
    SalesPurchaseVoucher.totalCgst v == SalesPurchaseVoucher.totalSgst v.
Proof.
  eexists. split; [vm_compute; reflexivity |].
  eapply (saved_voucher_regime [acme] [widget] company isoDates [fileA]).
  - vm_compute. reflexivity.
  - left. reflexivity.
Defined.

End SavedExamples.

(* ===================================================================== *)
(** * Editing before saving                                               *)
(* ===================================================================== *)

Section EditFacts.
Import Spec MassUploadModal.
Variable ledgers : list Ledger.t.
Variable stockItems : list StockItem.t.
Variable companyDetails : CompanyDetails.t.

Lemma Qsum_ext {A} (f g : A -> number) (l : list A) :
  (forall a, In a l -> f a == g a) -> Qsum (List.map f l) == Qsum (List.map g l).
Proof.
  induction l as [| x r IH]; intros H; simpl; [lra |].
  rewrite (H x (or_introl eq_refl)), IH; [lra |]. intros a Ha. apply H. now right.
Qed.

Lemma half_tax_agree (a re rs : Q) : re == rs -> a * (re / 100) / 2 == a * (rs / 100) / 2.
Proof. intros ->. reflexivity. Qed.

(** X20: what the modal shows after a recalculation and what is saved
    agree on the taxable amount: every saved voucher is the voucher that
    the save path makes of the extracted data of one of the files, and
    the subtotal recalculated from that data is the totalTaxableAmount of
    the voucher; they agree on CGST and SGST too when, for every line,
    the rate of the edit path is the rate of the save path. *)
Theorem recalculation_agrees_with_save (dateHost : DateHost.t)
  (files : list MassUploadFile.t) (vs : list SalesPurchaseVoucher.t)
  (v : SalesPurchaseVoucher.t) :
  handleSave ledgers stockItems companyDetails dateHost files = Ok vs ->
  In v vs ->
  exists f data,
    In f files /\ MassUploadFile.extractedData f = Some data /\
    toVoucher ledgers stockItems companyDetails dateHost f data = Ok v /\
    let r := recalculateInvoiceData ledgers stockItems companyDetails data
               (ExtractedInvoiceData.sellerName data) in
    ExtractedInvoiceData.subtotal r == SalesPurchaseVoucher.totalTaxableAmount v /\
    ((forall l, In l (orEmpty (ExtractedInvoiceData.lineItems data)) ->
                gstRateOnEdit stockItems (ExtractedLineItem.itemDescription l)
                == gstRateOnSave stockItems (ExtractedLineItem.itemDescription l)) ->
     ExtractedInvoiceData.cgstAmount r == SalesPurchaseVoucher.totalCgst v /\
     ExtractedInvoiceData.sgstAmount r == SalesPurchaseVoucher.totalSgst v).
Proof.
  intros H Hv.
  destruct (handleSave_origin ledgers stockItems companyDetails dateHost _ _ _ H Hv)
    as (f & data & Hf & _ & D & E).
  exists f, data. split; [exact Hf |]. split; [exact D |]. split; [exact E |].
  apply toVoucher_ok in E. destruct E as (_ & _ & In' & Items & Tt & Tc & Ts & _).
  destruct (fold_addItem (SalesPurchaseVoucher.items v) (mkTotals 0 0 0 0 0))
    as (A & B & C & _).
  rewrite <- Tt in A. rewrite <- Tc in B. rewrite <- Ts in C. simpl in A, B, C.
  destruct (recalculateInvoiceData_spec ledgers stockItems companyDetails data
              (ExtractedInvoiceData.sellerName data)) as (_ & Sub & _ & I & J).
  cbn zeta in *. rewrite <- In' in I, J.
  set (lines := orEmpty (ExtractedInvoiceData.lineItems data)) in *.
  assert (Et : Qsum (List.map lineAmount lines)
               == Qsum (List.map VoucherItem.taxableAmount (SalesPurchaseVoucher.items v))).
  { rewrite Items, map_map. apply Qsum_ext. intros l _. reflexivity. }
  split; [rewrite Sub, A, Et; lra |].
  intros Rates.
  destruct (SalesPurchaseVoucher.isInterState v) eqn:Inter.
  - destruct (I eq_refl) as [Ic Is]. rewrite Ic, Is, B, C, Items, !map_map.
    cbn [toVoucherItem VoucherItem.cgstAmount VoucherItem.sgstAmount].
    assert (Z : Qsum (List.map (fun _ : ExtractedLineItem.t => 0) lines) == 0)
      by (clear; induction lines; simpl; lra).
    rewrite Z. split; lra.
  - destruct (J eq_refl) as [Jc Js].
    assert (Gc : Qsum (List.map (halfTaxOnEdit stockItems) lines)
                 == Qsum (List.map VoucherItem.cgstAmount (SalesPurchaseVoucher.items v))).
    { rewrite Items, map_map. apply Qsum_ext. intros l Hl.
      unfold halfTaxOnEdit, lineAmount. simpl. apply half_tax_agree. now apply Rates. }
    assert (Gs : Qsum (List.map (halfTaxOnEdit stockItems) lines)
                 == Qsum (List.map VoucherItem.sgstAmount (SalesPurchaseVoucher.items v))).
    { rewrite Items, map_map. apply Qsum_ext. intros l Hl.
      unfold halfTaxOnEdit, lineAmount. simpl. apply half_tax_agree. now apply Rates. }
    rewrite Jc, Js, B, C. split; lra.
Qed.

(** X21: recalculation settles at its second application.  The
    totalAmount of one recalculation is built from the cgstAmount and
    sgstAmount it was given, not from those it computes; recalculating
    the result once more gives a record whose totalAmount is its
    subtotal + cgstAmount + sgstAmount, and that record is a fixed point:
    a third recalculation returns it unchanged. *)
Theorem recalculation_settles_at_second (data : ExtractedInvoiceData.t)
  (sellerName : string) :
  let recalc := fun d => recalculateInvoiceData ledgers stockItems companyDetails d
                           sellerName in
  let r1 := recalc data in
  let r2 := recalc r1 in
  ExtractedInvoiceData.totalAmount r1
  = ExtractedInvoiceData.subtotal r1 + ExtractedInvoiceData.cgstAmount data
    + ExtractedInvoiceData.sgstAmount data /\
  ExtractedInvoiceData.totalAmount r2
  = ExtractedInvoiceData.subtotal r2 + ExtractedInvoiceData.cgstAmount r2
    + ExtractedInvoiceData.sgstAmount r2 /\
  ExtractedInvoiceData.subtotal r2 = ExtractedInvoiceData.subtotal r1 /\
  ExtractedInvoiceData.cgstAmount r2 = ExtractedInvoiceData.cgstAmount r1 /\
  ExtractedInvoiceData.sgstAmount r2 = ExtractedInvoiceData.sgstAmount r1 /\
  recalc r2 = r2.
Proof.
  cbn zeta. unfold recalculateInvoiceData. cbn zeta.
  cbn [ExtractedInvoiceData.lineItems ExtractedInvoiceData.subtotal
       ExtractedInvoiceData.totalAmount ExtractedInvoiceData.cgstAmount
       ExtractedInvoiceData.sgstAmount ExtractedInvoiceData.sellerName
       ExtractedInvoiceData.invoiceNumber ExtractedInvoiceData.invoiceDate].
  repeat split; reflexivity.
Qed.

Lemma length_replaceAt {A} (i : nat) (x : A) (l : list A) :
  List.length (replaceAt i x l) = List.length l.
Proof.
  revert i. induction l as [| y r IH]; intros i; destruct i; simpl;
    try reflexivity. now rewrite IH.
Qed.

Lemma mapExn_Forall2 {A B} (f : A -> Exn B) (l : list A) (bs : list B) :
  mapExn f l = Ok bs -> Forall2 (fun a b => f a = Ok b) l bs.
Proof.
  revert bs. induction l as [| a r IH]; intros bs; simpl.
  - intros H. injection H as <-. constructor.
  - destruct (f a) as [b |] eqn:E; cbn [bindExn]; [| discriminate].
    destruct (mapExn f r) as [bs0 |]; cbn [bindExn]; [| discriminate].
    intros H. injection H as <-. constructor; auto.
Qed.

Lemma editLineItem_keeps (itemIndex : nat) (patch : LineItemPatch)
  (f f' : MassUploadFile.t) :
  editLineItem ledgers stockItems companyDetails itemIndex patch f = Ok f' ->
  sameFileAndLines f f'.
Proof.
  unfold editLineItem, sameFileAndLines, lineCount.
  destruct (MassUploadFile.extractedData f) as [data |] eqn:D.
  - destruct (ExtractedInvoiceData.lineItems data) as [lines |] eqn:L; [| discriminate].
    destruct (nth_error lines itemIndex) as [item |].
    + intros H. injection H as <-. simpl. rewrite L. simpl.
      now rewrite length_replaceAt.
    + intros H. injection H as <-. now rewrite D.
  - intros H. injection H as <-. now rewrite D.
Qed.

(** X22: a line-item edit at the index of a line, when it goes through,
    returns the same files in the same order: every file keeps its id,
    its file, its status, its error and its number of lines, and a file
    of another id is returned as it is. *)
Theorem line_item_edit_keeps_the_files (fileId' : string) (itemIndex : nat)
  (patch : LineItemPatch) (prevFiles files' : list MassUploadFile.t) :
  indexOfALine fileId' itemIndex prevFiles ->
  handleLineItemChange ledgers stockItems companyDetails fileId' itemIndex patch
    prevFiles = Ok files' ->
  Forall2 (fun f f' => sameFileAndLines f f' /\
                       (MassUploadFile.id f <> fileId' -> f' = f))
    prevFiles files'.
Proof.
  intros _ H. unfold handleLineItemChange in H. apply mapExn_Forall2 in H.
  induction H as [| f f' r r' E Fr IH]; constructor; [| exact IH].
  destruct (String.eqb (MassUploadFile.id f) fileId') eqn:I.
  - split; [now apply (editLineItem_keeps itemIndex patch) |].
    apply String.eqb_eq in I. intros N. now destruct N.
  - injection E as <-. split; [| reflexivity]. unfold sameFileAndLines. auto.
Qed.

(** X23: a line-item edit throws a TypeError, and so changes no file,
    when a file of the given id holds extracted data without the
    lineItems field, which recalculateInvoiceData tolerates: it treats
    the invoice as one without lines (subtotal, cgstAmount and
    sgstAmount 0). *)
Theorem line_item_edit_throws_without_lines (fileId' : string) (itemIndex : nat)
  (patch : LineItemPatch) (prevFiles : list MassUploadFile.t)
  (f : MassUploadFile.t) (data : ExtractedInvoiceData.t) :
  In f prevFiles -> MassUploadFile.id f = fileId' ->
  MassUploadFile.extractedData f = Some data ->
  ExtractedInvoiceData.lineItems data = None ->
  handleLineItemChange ledgers stockItems companyDetails fileId' itemIndex patch
    prevFiles = Throw (ErrorObj TypeError "lineItems is not iterable") /\
  recalculateInvoiceData ledgers stockItems companyDetails data
    (ExtractedInvoiceData.sellerName data)
  = ExtractedInvoiceData.mk (ExtractedInvoiceData.sellerName data)
      (ExtractedInvoiceData.invoiceNumber data) (ExtractedInvoiceData.invoiceDate data)
      0 0 0
      (0 + ExtractedInvoiceData.cgstAmount data + ExtractedInvoiceData.sgstAmount data)
      None.
Proof.
  intros Hf I D L. split.
  - unfold handleLineItemChange. apply mapExn_throws.
    + intros a e' _. destruct (String.eqb (MassUploadFile.id a) fileId'); [| discriminate].
      unfold editLineItem. destruct (MassUploadFile.extractedData a) as [d |];
        [| discriminate].
      destruct (ExtractedInvoiceData.lineItems d) as [ls |]; [| congruence].
      destruct (nth_error ls itemIndex); discriminate.
    + exists f. split; [exact Hf |]. rewrite I, String.eqb_refl.
      unfold editLineItem. now rewrite D, L.
  - unfold recalculateInvoiceData. rewrite L. reflexivity.
Qed.

End EditFacts.

Section EditExamples.
Import Spec MassUploadModal Sample.

(** Scenario A: the subtotal shown after a recalculation is the taxable
    amount saved. *)
Lemma recalculation_agrees_with_save_scenario_A :
  exists v,
    handleSave [acme] [widget] company isoDates [fileA] = Ok [v] /\
    ExtractedInvoiceData.subtotal
      (recalculateInvoiceData [acme] [widget] company (extracted "2025-03-01" [twoWidgets])
         "acme")
    == SalesPurchaseVoucher.totalTaxableAmount v.
Proof.
  eexists. split; [vm_compute; reflexivity |].
  destruct (recalculation_agrees_with_save [acme] [widget] company isoDates [fileA]
              _ _ eq_refl (or_introl eq_refl)) as (f & data & Hf & D & _ & S & _).
  destruct Hf as [<- | []]. injection D as <-. exact S.
Defined.

(** The quantity of the printed invoice set to 3: still one file, "e.png-1",
    with one line. *)
Lemma line_item_edit_keeps_the_printed_file :
  exists f',
    handleLineItemChange [acme] [widget] company "e.png-1" 0 (SetQuantity 3) [fileToEdit]
    = Ok [f'] /\
    MassUploadFile.id f' = "e.png-1" /\ lineCount f' = Some 1%nat.
Proof.
  eexists. split; [vm_compute; reflexivity |].
  assert (R : indexOfALine "e.png-1" 0 [fileToEdit]).
  { intros f d ls [<- | []] _ D L. injection D as <-. injection L as <-. simpl. lia. }
  assert (F := line_item_edit_keeps_the_files [acme] [widget] company "e.png-1" 0
                 (SetQuantity 3) [fileToEdit] _ R eq_refl).
  inversion F as [| ? ? ? ? [(I & _ & _ & _ & C) _] _]. split; [exact I | exact C].
Defined.

(** A response without lineItems cannot be edited line by line. *)
Lemma line_item_edit_throws_on_file_without_lines :
  handleLineItemChange [acme] [widget] company "n.png-1" 0 (SetQuantity 3)
    [fileToEdit; fileNoLines]
  = Throw (ErrorObj TypeError "lineItems is not iterable").
Proof.
  apply (line_item_edit_throws_without_lines [acme] [widget] company "n.png-1" 0
           (SetQuantity 3) [fileToEdit; fileNoLines] fileNoLines
           (ExtractedInvoiceData.mk "acme" "INV-8" "2025-03-02" 0 0 0 0 None)).
  - right. left. reflexivity.
  - reflexivity.
  - reflexivity.
  - reflexivity.
Defined.

End EditExamples.

(* ===================================================================== *)
(** * Stock reports: examples; and the payload of a data URL              *)
(* ===================================================================== *)

Section StockExamples.
Import Spec ReportsPage Sample.

(** Master list "Rice", "Widget": the rows come in that order. *)
Lemma stock_rows_follow_rice_and_widget :
  exists rows,
    stockSummaryData [purchaseWidgets; saleWidgets] [rice; widget] StockSummary
    = Some rows /\
    List.map StockSummaryRow.name rows = ["Rice"; "Widget"].
Proof.
  eexists. split; [vm_compute; reflexivity |].
  apply (stock_rows_follow_master_list [purchaseWidgets; saleWidgets] [rice; widget]).
  - repeat constructor; simpl; intuition discriminate.
  - repeat constructor; discriminate.
  - reflexivity.
Defined.


End StockExamples.

Section DataUrlFacts.
Import Spec GeminiService.

Lemma splitOn_cons (sep : ascii) (s : string) :
  exists x xs, splitOn sep s = x :: xs.
Proof.
  induction s as [| c r (x & xs & E)]; simpl; [eauto |].
  destruct (Ascii.eqb c sep); [eauto |]. rewrite E. eauto.
Qed.

Lemma splitOn_none (sep : ascii) (s : string) :
  contains sep s = false -> splitOn sep s = [s].
Proof.
  induction s as [| c r IH]; simpl; [reflexivity |].
  destruct (Ascii.eqb c sep); simpl; [discriminate |].
  intros H. now rewrite (IH H).
Qed.

Lemma splitOn_first (sep : ascii) (header rest : string) :
  contains sep header = false ->
  splitOn sep (header ++ String sep rest)%string = header :: splitOn sep rest.
Proof.
  induction header as [| c r IH]; simpl.
  - intros _. now rewrite Ascii.eqb_refl.
  - destruct (Ascii.eqb c sep); simpl; [discriminate |].
    intros H. now rewrite (IH H).
Qed.

(** X26: what fileToBase64 resolves with.  For a data URL
    header,payload whose header has no comma it is the payload up to its
    first comma (the whole payload when it has none, as base64 text
    never has); for a result without any comma it is undefined, not an
    error. *)
Theorem data_url_payload (header : string) :
  contains "," header = false ->
  dataUrlPayload header = None /\
  (forall payload, contains "," payload = false ->
     dataUrlPayload (header ++ String "," payload)%string = Some payload) /\
  (forall payload rest, contains "," payload = false ->
     dataUrlPayload (header ++ String "," (payload ++ String "," rest))%string
     = Some payload).
Proof.
  intros H. unfold dataUrlPayload. split; [| split].
  - now rewrite (splitOn_none _ _ H).
  - intros payload P. now rewrite (splitOn_first _ _ _ H), (splitOn_none _ _ P).
  - intros payload rest P.
    now rewrite (splitOn_first _ _ _ H), (splitOn_first _ _ _ P).
Qed.

End DataUrlFacts.

Section DataUrlExamples.
Import Spec GeminiService.

(** The data URL of a PNG. *)
Lemma data_url_payload_of_a_png :
  dataUrlPayload "data:image/png;base64,aGVsbG8=" = Some "aGVsbG8=" /\
  dataUrlPayload "data:image/png;base64" = None.
Proof.
  destruct (data_url_payload "data:image/png;base64" eq_refl) as (N & P & _).
  split; [exact (P "aGVsbG8=" eq_refl) | exact N].
Defined.

End DataUrlExamples.
